(** * SilentSurge: the screening pipeline of [GET /api/screen]

    A shallow embedding of the route handler (classification, alert
    de-duplication, final ordering), of the pivot calculator
    [getPivotData] and of the ticker matching used by the Reddit and
    Telegram adapters, with the properties the specification states
    about them; and of the modules the route calls for its data and
    its alerts (the watchlist and its quotes, the delivery percentage,
    the listing of the subreddit, the Twitter search, the WhatsApp
    transport) and of the dashboard that shows a report, with further
    properties of the code.

    Numbers.  The program computes on JavaScript numbers.  Finite values
    are modelled as exact rationals [Q]; the one division whose divisor
    can be zero (the R2 proximity) produces a [number], which adds the
    non-finite results of IEEE division.  [Math.round] is the integer
    nearest to its argument, ties towards plus infinity.

    Effects.  The route imports its collaborators; their answers during
    a scan are a [World], and an awaited call may reject.  The movers of
    a scan are enriched by concurrent tasks that share the set
    [_alertedTickers]: a scan is run under a schedule, the order in
    which its tasks are resumed, and the properties are proved for every
    schedule.  A module that keeps a cache takes the cache and the
    time of the call and returns the cache it leaves; what a remote
    service answers is an argument.

    Modules: [Num], [CRITERIA], [Pivots], [RegExp], [Mentions],
    [Route], [Yahoo], [Delivery], [Reddit], [WhatsApp], [Twitter] and
    [Dashboard] hold the program, [Scans] further notions about a scan;
    [NumFacts], [CriteriaFacts], [PivotFacts], [MentionFacts],
    [ScanFacts], [SymbolFacts], [RoundFacts], [PivotEdgeFacts],
    [MentionShapeFacts], [ReportFacts], [YahooFacts], [DeliveryFacts],
    [RedditFacts], [WhatsAppFacts], [TwitterFacts] and
    [DashboardFacts] hold what is proved about it. *)

From Stdlib Require Import Ascii String DecimalString QArith Qround Qabs ZArith Lia Lqa.
From stdpp Require Import base decidable option list gmap sets strings sorting.

Local Open Scope Q_scope.

(** ** JavaScript numbers *)

Module Num.

(** [Math.round(x)]: floor (x + 1/2). *)
Definition Math_round (x : Q) : Z := Qfloor (x + (1 # 2)).

(** [function round2(n) { return Math.round(n * 100) / 100; }] *)
Definition round2 (n : Q) : Q := inject_Z (Math_round (n * 100)) / 100.

(** Result of a division whose divisor may vanish. *)
Inductive number : Type :=
| Fin (q : Q)
| PosInfinity
| NegInfinity
| NaN.

(** [a / b] on finite operands: a non-zero value over zero is an
    infinity of the sign of [a], zero over zero is NaN.  (A zero
    divisor is a positive zero here: a sum or difference of non-zero
    finite numbers that vanishes is [+0].) *)
Definition div (a b : Q) : number :=
  if Qeq_bool b 0 then
    (if Qeq_bool a 0 then NaN
     else if Qle_bool 0 a then PosInfinity else NegInfinity)
  else Fin (a / b).

(** [x * k] for a finite, positive factor [k]. *)
Definition scale (x : number) (k : Q) : number :=
  match x with
  | Fin q => Fin (q * k)
  | other => other
  end.

(** [x <= k]; every comparison with NaN is false. *)
Definition leb (x : number) (k : Q) : bool :=
  match x with
  | Fin q => Qle_bool q k
  | NegInfinity => true
  | PosInfinity | NaN => false
  end.

(** [round2] on a possibly non-finite value: [Math.round] leaves the
    infinities and NaN as they are. *)
Definition round2n (x : number) : number :=
  match x with
  | Fin q => Fin (round2 q)
  | other => other
  end.

End Num.

Export Num.

(** ** Constants and types ([lib/constants.ts]) *)

Inductive Platform : Type := twitter | reddit | telegram.

(** A single social media post with a link. *)
Record SocialMention : Type := {
  platform : Platform;
  title : string;
  url : string;
  author : option string;
  timestamp : option string
}.

(** Status classification of a screened stock. *)
Inductive StockStatus : Type := alert | watch | filtered.

#[export] Instance StockStatus_eq_dec : EqDecision StockStatus.
Proof. solve_decision. Defined.

(** A mover, as returned by [getTopGainers] ([lib/yahoo.ts]). *)
Record GainerStock : Type := {
  symbol : string;
  name : string;
  price : Q;
  change : Q;
  changePercent : Q;
  volume : Q;
  marketCap : Q
}.

(** Result of the pivot calculator ([lib/pivots.ts]). *)
Record PivotData : Type := {
  prevHigh : Q;
  prevLow : Q;
  prevClose : Q;
  pivot : Q;
  r1 : Q;
  r2 : Q;
  r2Proximity : number;
  nearR2 : bool
}.

(** A screened stock.  [gainer] holds the fields spread from the mover
    ([...stock]); [sd_r2Proximity] and [sd_nearR2] are the fields
    [r2Proximity] and [nearR2] of the source. *)
Record StockData : Type := {
  gainer : GainerStock;
  twitterMentions : nat;
  redditMentions : nat;
  telegramMentions : nat;
  totalMentions : nat;
  silenceScore : Q;
  mentions : list SocialMention;
  deliveryPercent : Q;
  pivotR2 : Q;
  sd_r2Proximity : number;
  sd_nearR2 : bool;
  sectorOutperformance : Q;
  status : StockStatus;
  alertSent : bool
}.

(** Response of [/api/screen]. *)
Record ScreenResponse : Type := {
  stocks : list StockData;
  scannedAt : string;
  totalScanned : nat;
  alertsSent : nat;
  niftyChangePercent : Q;
  error : option string
}.

(** Criteria thresholds of the strategy. *)
Module CRITERIA.
Definition MIN_PUMP_PERCENT : Q := 4.
Definition MAX_DELIVERY_PERCENT : Q := 30.
Definition MAX_R2_PROXIMITY : Q := 1.
Definition MIN_SECTOR_OUTPERFORMANCE : Q := 2.
Definition MAX_MENTIONS : nat := 0.
End CRITERIA.

(** [symbol.replace(/\.(NS|BO)$/, "")]: the bare ticker of a symbol. *)
Fixpoint tickerFromSymbol (symbol : string) : string :=
  match symbol with
  | EmptyString => EmptyString
  | String c rest =>
      if String.eqb symbol ".NS" || String.eqb symbol ".BO"
      then EmptyString
      else String c (tickerFromSymbol rest)
  end.

(** ** Awaited calls

    A call the route awaits either resolves with a value or rejects
    with an error, whose message is all the route looks at. *)

Inductive outcome (A : Type) : Type :=
| Returns (a : A)
| Throws (msg : string).

Arguments Returns {A} a.
Arguments Throws {A} msg.

(** ** Pivot point calculator ([lib/pivots.ts]) *)

Module Pivots.

(** One daily candle of the chart; a field may be [null]. *)
Record Bar : Type := {
  high : option Q;
  low : option Q;
  close : option Q
}.

(** [!x] on a candle field: [null] and [0] are falsy. *)
Definition falsy (x : option Q) : bool :=
  match x with
  | None => true
  | Some q => Qeq_bool q 0
  end.

(** The levels computed from the previous day's candle, before any
    rounding: the locals [pivot], [r1], [r2] and [r2Proximity]. *)
Definition pivot_of (high low close : Q) : Q := (high + low + close) / 3.
Definition r1_of (high low close : Q) : Q := 2 * pivot_of high low close - low.
Definition r2_of (high low close : Q) : Q := pivot_of high low close + (high - low).
Definition r2Proximity_of (high low close currentPrice : Q) : number :=
  scale (div (Qabs (currentPrice - r2_of high low close)) (r2_of high low close)) 100.

(** [getPivotData(symbol, currentPrice)].  [chart] is the answer of
    [yahooFinance.chart] for the symbol: the list [chart?.quotes], if
    there is one.  Whatever is thrown inside is caught and gives
    [null]. *)
Definition getPivotData (chart : string -> outcome (option (list Bar)))
    (symbol : string) (currentPrice : Q) : option PivotData :=
  match chart symbol with
  | Throws _ => None
  | Returns None => None
  | Returns (Some quotes) =>
      if (length quotes <? 2)%nat then None
      else
        match quotes !! (length quotes - 2)%nat with
        | None => None
        | Some prevDay =>
            if falsy (high prevDay) || falsy (low prevDay) || falsy (close prevDay)
            then None
            else
              match high prevDay, low prevDay, close prevDay with
              | Some high, Some low, Some close =>
                  let pivot := (high + low + close) / 3 in
                  let r1 := 2 * pivot - low in
                  let r2 := pivot + (high - low) in
                  let r2Proximity := scale (div (Qabs (currentPrice - r2)) r2) 100 in
                  let nearR2 := leb r2Proximity 1 in
                  Some {| prevHigh := round2 high;
                          prevLow := round2 low;
                          prevClose := round2 close;
                          pivot := round2 pivot;
                          r1 := round2 r1;
                          r2 := round2 r2;
                          r2Proximity := round2n r2Proximity;
                          nearR2 := nearR2 |}
              | _, _, _ => None
              end
        end
  end.

End Pivots.

(** ** Regular expressions, as far as the adapters use them

    Texts are sequences of code units; the model has the code units
    below 256.  A pattern is matched by backtracking; [matches] lists
    the end positions of the matches that start at a position, in the
    order in which backtracking tries them. *)

Module RegExp.

Inductive regex : Type :=
| Empty
| Char (c : ascii)
| Class (members : list ascii) (whitespace : bool)
| AssertStart
| AssertEnd
| Seq (r s : regex)
| Alt (r s : regex)
| Lookahead (r : regex).

(** The characters of [\s] among the code units below 256:
    TAB, LF, VT, FF, CR, space and the no-break space. *)
Definition whiteSpace : list ascii :=
  map ascii_of_nat [9; 10; 11; 12; 13; 32; 160]%nat.

(** [Canonicalize] under the [i] flag (without [u]): the upper-case
    form of a code unit, when that is again a single code unit and does
    not map a non-ASCII code unit to an ASCII one.  Below 256 this moves
    [a]-[z] and the letters 224-254, the division sign 247 apart, down
    by 32. *)
Definition canonicalize (c : ascii) : ascii :=
  let n := nat_of_ascii c in
  if ((97 <=? n) && (n <=? 122))%nat then ascii_of_nat (n - 32)
  else if ((224 <=? n) && (n <=? 254) && negb (n =? 247))%nat
       then ascii_of_nat (n - 32)
  else c.

Definition same_char (ignoreCase : bool) (a b : ascii) : bool :=
  if ignoreCase then Ascii.eqb (canonicalize a) (canonicalize b)
  else Ascii.eqb a b.

Definition in_class (ignoreCase : bool) (members : list ascii)
    (whitespace : bool) (c : ascii) : bool :=
  existsb (fun a => same_char ignoreCase a c)
          (members ++ if whitespace then whiteSpace else []).

Fixpoint matches (ignoreCase : bool) (r : regex) (input : list ascii)
    (pos : nat) : list nat :=
  match r with
  | Empty => [pos]
  | Char c =>
      match input !! pos with
      | Some d => if same_char ignoreCase c d then [S pos] else []
      | None => []
      end
  | Class members whitespace =>
      match input !! pos with
      | Some d => if in_class ignoreCase members whitespace d then [S pos] else []
      | None => []
      end
  | AssertStart => if (pos =? 0)%nat then [pos] else []
  | AssertEnd => if (pos =? length input)%nat then [pos] else []
  | Seq r s => flat_map (matches ignoreCase s input) (matches ignoreCase r input pos)
  | Alt r s => matches ignoreCase r input pos ++ matches ignoreCase s input pos
  | Lookahead r =>
      match matches ignoreCase r input pos with
      | [] => []
      | _ :: _ => [pos]
      end
  end.

(** A regular expression object: its pattern, flags and [lastIndex]. *)
Record RegExp : Type := {
  source : regex;
  global : bool;
  ignoreCase : bool;
  lastIndex : nat
}.

Definition set_lastIndex (re : RegExp) (i : nat) : RegExp :=
  {| source := source re; global := global re;
     ignoreCase := ignoreCase re; lastIndex := i |}.

(** The search loop of [exec]: try the start positions [start],
    [start + 1], ... up to the end of the input ([more] further
    positions); the end index of the first match found. *)
Fixpoint search (re : RegExp) (input : list ascii) (start more : nat)
    : option nat :=
  match matches (ignoreCase re) (source re) input start with
  | e :: _ => Some e
  | [] =>
      match more with
      | O => None
      | S more' => search re input (S start) more'
      end
  end.

(** [re.test(input)]: whether there is a match at or after [lastIndex]
    (at or after 0 without the [g] flag).  With the [g] flag a match
    moves [lastIndex] to its end and a failure resets it to 0. *)
Definition test (re : RegExp) (input : list ascii) : bool * RegExp :=
  let start := if global re then lastIndex re else 0%nat in
  if (length input <? start)%nat then
    (false, if global re then set_lastIndex re 0 else re)
  else
    match search re input start (length input - start) with
    | Some e => (true, if global re then set_lastIndex re e else re)
    | None => (false, if global re then set_lastIndex re 0 else re)
    end.

(** The syntax characters of the pattern grammar:
    [^ $ \ . * + ? ( ) [ ] { } |]. *)
Definition syntaxCharacter (c : ascii) : bool :=
  existsb (Ascii.eqb c)
    ["^"; "$"; "\"; "."; "*"; "+"; "?"; "("; ")"; "["; "]"; "{"; "}"; "|"]%char.

(** Reading a piece of pattern text made of pattern characters and
    escaped syntax characters; anything else in it is left to the
    caller as a syntax error. *)
Fixpoint parse_literal (src : list ascii) : option regex :=
  match src with
  | [] => Some Empty
  | c :: rest =>
      if Ascii.eqb c "\" then
        match rest with
        | d :: rest' =>
            if syntaxCharacter d
            then option_map (Seq (Char d)) (parse_literal rest')
            else None
        | [] => None
        end
      else if syntaxCharacter c then None
      else option_map (Seq (Char c)) (parse_literal rest)
  end.

End RegExp.

(** ** Ticker matching of the mention adapters

    [lib/reddit.ts] and [lib/telegram.ts] carry the same [escapeRegex]
    and build the same pattern. *)

Module Mentions.
Import RegExp.

(** [s.replace(/[.*+?^${}()|[\]\\]/g, "\\$&")] *)
Definition escapeRegex (s : list ascii) : list ascii :=
  flat_map
    (fun c =>
       if existsb (Ascii.eqb c)
            ["."; "*"; "+"; "?"; "^"; "$"; "{"; "}"; "("; ")"; "|"; "["; "]"; "\"]%char
       then ["\"; c]%char
       else [c])
    s.

(** The pattern text around the ticker: [(?:^|[\s$#])] before it and
    [(?=[\s,;.!?)\]]|$)] after it. *)
Definition before_ticker : regex :=
  Alt AssertStart (Class ["$"; "#"]%char true).
Definition after_ticker : regex :=
  Lookahead (Alt (Class [","; ";"; "."; "!"; "?"; ")"; "]"]%char true) AssertEnd).

(** The pattern that matches a text character by character. *)
Definition literal (t : list ascii) : regex :=
  foldr (fun c r => Seq (Char c) r) Empty t.

(** [new RegExp(`(?:^|[\s$#])${escapeRegex(ticker)}(?=[\s,;.!?)\]]|$)`, "gi")];
    a pattern text that is not a pattern is a [SyntaxError]. *)
Definition tickerPattern (ticker : string) : outcome RegExp :=
  match parse_literal (escapeRegex (list_ascii_of_string ticker)) with
  | Some lit =>
      Returns {| source := Seq before_ticker (Seq lit after_ticker);
                 global := true;
                 ignoreCase := true;
                 lastIndex := 0 |}
  | None => Throws "Invalid regular expression"
  end.

(** [String(n)] for an integer. *)
Definition String_of_Z (n : Z) : string := NilZero.string_of_int (Z.to_int n).

Section Adapters.

(** [new Date(ms).toISOString()] *)
Variable toISOString : Z -> string.

(** *** Reddit *)

(** [post.data] of a listing child. *)
Record RedditPost : Type := {
  data_title : string;
  data_selftext : string;
  data_permalink : string;
  data_author : string;
  data_created_utc : Z;
  data_id : string
}.

Definition redditMention (post : RedditPost) : SocialMention :=
  {| platform := reddit;
     title := substring 0 200 (data_title post);
     url := "https://www.reddit.com" +:+ data_permalink post;
     author := if String.eqb (data_author post) "" then None
               else Some ("u/" +:+ data_author post);
     timestamp := if (data_created_utc post =? 0)%Z then None
                  else Some (toISOString (data_created_utc post * 1000)) |}.

(** The loop over the posts; the pattern object is reused and its
    [lastIndex] is reset after each post. *)
Fixpoint redditLoop (pattern : RegExp) (posts : list RedditPost)
    : list SocialMention :=
  match posts with
  | [] => []
  | post :: rest =>
      let text := data_title post +:+ " " +:+ data_selftext post in
      let '(hit, pattern) := test pattern (list_ascii_of_string text) in
      let found := if hit then [redditMention post] else [] in
      let pattern := set_lastIndex pattern 0 in
      found ++ redditLoop pattern rest
  end.

(** [searchRedditMentions(ticker)]; [posts] is what [fetchPosts()]
    resolved with. *)
Definition searchRedditMentions (posts : list RedditPost) (ticker : string)
    : outcome (list SocialMention) :=
  match tickerPattern ticker with
  | Throws msg => Throws msg
  | Returns pattern => Returns (redditLoop pattern posts)
  end.

(** *** Telegram *)

Record TelegramChat : Type := {
  chat_id : Z;
  chat_title : option string;
  chat_username : option string
}.

Record TelegramUser : Type := {
  from_username : option string;
  from_first_name : option string
}.

Record TelegramMessage : Type := {
  message_id : Z;
  text : option string;
  date : Z;
  chat : option TelegramChat;
  from : option TelegramUser
}.

Record TelegramUpdate : Type := {
  update_id : Z;
  channel_post : option TelegramMessage;
  message : option TelegramMessage
}.

Record TelegramGetUpdatesResponse : Type := {
  ok : bool;
  result : list TelegramUpdate
}.

(** A string that is present and not empty. *)
Definition truthy (s : option string) : option string :=
  match s with
  | Some v => if String.eqb v "" then None else Some v
  | None => None
  end.

(** [String(chat.id).replace(/^-100/, "")] *)
Definition channelId (id : Z) : string :=
  let s := String_of_Z id in
  if String.prefix "-100" s then substring 4 (String.length s - 4) s else s.

Definition postUrl (msg : TelegramMessage) : string :=
  match chat msg with
  | None => ""
  | Some c =>
      match truthy (chat_username c) with
      | Some u => "https://t.me/" +:+ u +:+ "/" +:+ String_of_Z (message_id msg)
      | None =>
          if (chat_id c =? 0)%Z then ""
          else "https://t.me/c/" +:+ channelId (chat_id c) +:+ "/"
               +:+ String_of_Z (message_id msg)
      end
  end.

Definition telegramAuthor (msg : TelegramMessage) : option string :=
  match from msg ≫= (fun f => truthy (from_username f)) with
  | Some u => Some ("@" +:+ u)
  | None =>
      match from msg ≫= from_first_name with
      | Some n => Some n
      | None => chat msg ≫= chat_title
      end
  end.

Definition telegramMention (msg : TelegramMessage) (body : string)
    : SocialMention :=
  {| platform := telegram;
     title := substring 0 200 body;
     url := postUrl msg;
     author := telegramAuthor msg;
     timestamp := Some (toISOString (date msg * 1000)) |}.

(** [update.channel_post ?? update.message] *)
Definition update_msg (update : TelegramUpdate) : option TelegramMessage :=
  match channel_post update with
  | Some m => Some m
  | None => message update
  end.

(** The messages of the updates that have a text. *)
Definition with_text (updates : list TelegramUpdate)
    : list (TelegramMessage * string) :=
  omap (fun update =>
          update_msg update ≫= (fun msg => pair msg <$> truthy (text msg)))
       updates.

(** The loop over the updates; an update without text is skipped by
    [continue], before the pattern is used and before [lastIndex] is
    reset. *)
Fixpoint telegramLoop (pattern : RegExp) (updates : list TelegramUpdate)
    : list SocialMention :=
  match updates with
  | [] => []
  | update :: rest =>
      match update_msg update ≫= (fun msg => pair msg <$> truthy (text msg)) with
      | None => telegramLoop pattern rest
      | Some (msg, body) =>
          let '(hit, pattern) := test pattern (list_ascii_of_string body) in
          let found := if hit then [telegramMention msg body] else [] in
          let pattern := set_lastIndex pattern 0 in
          found ++ telegramLoop pattern rest
      end
  end.

(** [searchTelegramMentions(ticker)].  [botToken] is the environment
    variable; [response] is the answer to the [getUpdates] request:
    the parsed body, or nothing when [res.ok] is false.  Everything
    after the token check runs inside [try], and any error gives []. *)
Definition searchTelegramMentions (botToken : option string)
    (response : outcome (option TelegramGetUpdatesResponse))
    (ticker : string) : list SocialMention :=
  match truthy botToken with
  | None => []
  | Some token =>
      if String.eqb token "your_telegram_bot_token_here" then []
      else
        match response with
        | Throws _ => []
        | Returns None => []
        | Returns (Some json) =>
            if negb (ok json) then []
            else
              match tickerPattern ticker with
              | Throws _ => []
              | Returns pattern => telegramLoop pattern (result json)
              end
        end
  end.

End Adapters.

(** Whether a text matches the pattern of a ticker, tested from the
    start ([lastIndex] 0). *)
Definition hits (ticker input : string) : bool :=
  match tickerPattern ticker with
  | Returns pattern => fst (test pattern (list_ascii_of_string input))
  | Throws _ => false
  end.

(** What the specification asks of a match: the ticker stands at some
    position [i] of the text, compared without regard to case; before
    it is the start of the text or one of white space, [$] and [#];
    after it is the end of the text or one of white space and
    [, ; . ! ? ) ]]. *)
Definition delimiter_before (c : ascii) : bool :=
  existsb (Ascii.eqb c) (["$"; "#"]%char ++ whiteSpace).
Definition delimiter_after (c : ascii) : bool :=
  existsb (Ascii.eqb c) ([","; ";"; "."; "!"; "?"; ")"; "]"]%char ++ whiteSpace).

Definition token_at (ticker input : list ascii) (i : nat) : Prop :=
  (i = 0%nat
   \/ exists c, (0 < i)%nat /\ input !! (i - 1)%nat = Some c
                /\ delimiter_before c = true)
  /\ map canonicalize (take (length ticker) (drop i input))
     = map canonicalize ticker
  /\ ((i + length ticker)%nat = length input
      \/ exists c, input !! (i + length ticker)%nat = Some c
                   /\ delimiter_after c = true).

Definition mentions_ticker (ticker input : string) : Prop :=
  exists i, token_at (list_ascii_of_string ticker) (list_ascii_of_string input) i.

End Mentions.

(** ** The route [GET /api/screen] ([app/api/screen/route.ts]) *)

Module Route.
Import CRITERIA.

#[export] Instance outcome_ret : MRet outcome := fun A a => Returns a.
#[export] Instance outcome_bind : MBind outcome := fun A B f m =>
  match m with
  | Returns a => f a
  | Throws msg => Throws msg
  end.

(** The collaborators the route imports, as they answer during one
    scan.  Each awaited call may reject.  The answer of a call depends
    on its arguments; [now] is what [new Date().toISOString()] gives. *)
Record World : Type := {
  getTopGainers : Q -> outcome (list GainerStock);
  getNiftyChangePercent : outcome Q;
  searchTwitterMentions : string -> outcome (list SocialMention);
  searchRedditMentions : string -> outcome (list SocialMention);
  searchTelegramMentions : string -> outcome (list SocialMention);
  getDeliveryPercent : string -> outcome Q;
  getPivotData : string -> Q -> outcome (option PivotData);
  sendWhatsAppAlert : string -> Q -> Q -> number -> outcome bool;
  now : string
}.

(** *** Process-wide state *)

(** What the notification transport sees. *)
Inductive Event : Type :=
| SendCalled (ticker : string)
| SendReturned (ticker : string) (sent : bool)
| SendThrew (ticker : string).

#[export] Instance Event_eq_dec : EqDecision Event.
Proof. solve_decision. Defined.

(** [_alertedTickers], the tickers that already received an alert
    this session, together with the history of the transport. *)
Record Session : Type := {
  _alertedTickers : gset string;
  transport : list Event
}.

Definition start_of_process : Session :=
  {| _alertedTickers := ∅; transport := [] |}.

(** *** Enrichment of one mover *)

Definition Qlt_bool (a b : Q) : bool := negb (Qle_bool b a).

(** The five lookups of a mover, awaited together. *)
Record Lookups : Type := {
  twitterResults : list SocialMention;
  redditResults : list SocialMention;
  telegramResults : list SocialMention;
  lk_deliveryPercent : Q;
  pivotData : option PivotData
}.

(** [Promise.all] of the five lookups: their results, or a rejection
    when one of them rejects.  When several reject, the route sees one
    of the messages, whichever comes first; the model takes the first
    in the order of the array. *)
Definition lookups (w : World) (stock : GainerStock) : outcome Lookups :=
  let ticker := tickerFromSymbol (symbol stock) in
  tw ← searchTwitterMentions w ticker;
  rd ← searchRedditMentions w ticker;
  tg ← searchTelegramMentions w ticker;
  dp ← getDeliveryPercent w ticker;
  pv ← getPivotData w (symbol stock) (price stock);
  mret {| twitterResults := tw; redditResults := rd; telegramResults := tg;
          lk_deliveryPercent := dp; pivotData := pv |}.

(** [Math.round((changePercent / (1 + totalMentions)) * 100) / 100] *)
Definition silenceScore_of (changePercent : Q) (totalMentions : nat) : Q :=
  inject_Z (Math_round
    ((changePercent / (1 + inject_Z (Z.of_nat totalMentions))) * 100)) / 100.

(** [Math.round((changePercent - niftyChangePercent) * 100) / 100] *)
Definition sectorOutperformance_of (changePercent niftyChangePercent : Q) : Q :=
  inject_Z (Math_round ((changePercent - niftyChangePercent) * 100)) / 100.

(** The four criteria. *)
Record Criteria : Type := {
  passesDelivery : bool;
  passesR2 : bool;
  passesSector : bool;
  passesMentions : bool
}.

Definition criteria (deliveryPercent : Q) (nearR2 : bool)
    (sectorOutperformance : Q) (totalMentions : nat) : Criteria :=
  {| passesDelivery :=
       Qle_bool 0 deliveryPercent && Qlt_bool deliveryPercent MAX_DELIVERY_PERCENT;
     passesR2 := nearR2;
     passesSector := Qle_bool MIN_SECTOR_OUTPERFORMANCE sectorOutperformance;
     passesMentions := (totalMentions <=? MAX_MENTIONS)%nat |}.

(** How many of the four criteria pass. *)
Definition passed (c : Criteria) : nat :=
  (Nat.b2n (passesDelivery c) + Nat.b2n (passesR2 c)
   + Nat.b2n (passesSector c) + Nat.b2n (passesMentions c))%nat.

(** The status decided by the [if] chain. *)
Definition classify (c : Criteria) : StockStatus :=
  if passesDelivery c && passesR2 c && passesSector c && passesMentions c
  then alert
  else if (2 <=? length (List.filter (fun b : bool => b)
             [passesDelivery c; passesR2 c; passesSector c; passesMentions c]))%nat
  then watch
  else filtered.

(** The record of a mover once its lookups are there, before any alert
    is sent for it ([alertSent] still false). *)
Definition enrich (stock : GainerStock) (niftyChangePercent : Q)
    (lk : Lookups) : StockData :=
  let twitterMentions := length (twitterResults lk) in
  let redditMentions := length (redditResults lk) in
  let telegramMentions := length (telegramResults lk) in
  let totalMentions := (twitterMentions + redditMentions + telegramMentions)%nat in
  let mentions := twitterResults lk ++ redditResults lk ++ telegramResults lk in
  let silenceScore := silenceScore_of (changePercent stock) totalMentions in
  let pivotR2 := from_option r2 0 (pivotData lk) in
  let r2Proximity := from_option r2Proximity (Fin (-1)) (pivotData lk) in
  let nearR2 := from_option nearR2 false (pivotData lk) in
  let sectorOutperformance :=
    sectorOutperformance_of (changePercent stock) niftyChangePercent in
  let status :=
    classify (criteria (lk_deliveryPercent lk) nearR2 sectorOutperformance totalMentions) in
  {| gainer := stock;
     twitterMentions := twitterMentions;
     redditMentions := redditMentions;
     telegramMentions := telegramMentions;
     totalMentions := totalMentions;
     silenceScore := silenceScore;
     mentions := mentions;
     deliveryPercent := lk_deliveryPercent lk;
     pivotR2 := pivotR2;
     sd_r2Proximity := r2Proximity;
     sd_nearR2 := nearR2;
     sectorOutperformance := sectorOutperformance;
     status := status;
     alertSent := false |}.

Definition with_alertSent (d : StockData) : StockData :=
  {| gainer := gainer d;
     twitterMentions := twitterMentions d;
     redditMentions := redditMentions d;
     telegramMentions := telegramMentions d;
     totalMentions := totalMentions d;
     silenceScore := silenceScore d;
     mentions := mentions d;
     deliveryPercent := deliveryPercent d;
     pivotR2 := pivotR2 d;
     sd_r2Proximity := sd_r2Proximity d;
     sd_nearR2 := sd_nearR2 d;
     sectorOutperformance := sectorOutperformance d;
     status := status d;
     alertSent := true |}.

Definition ticker_of (d : StockData) : string :=
  tickerFromSymbol (symbol (gainer d)).

(** *** The movers of a scan, enriched concurrently

    [gainers.map(async (stock) => ...)] starts one task per mover.  A
    task runs without interruption between two [await]s: it is
    suspended on its five lookups, then, when it has an alert to send,
    on [sendWhatsAppAlert], and other tasks run in between. *)

Inductive Task : Type :=
| AwaitingLookups (stock : GainerStock)
| AwaitingSend (d : StockData)
| Fulfilled (d : StockData)
| Rejected (msg : string).

(** A scan in progress: the session, the counter [alertsSent], the
    tasks in the order of the movers, and the first rejection, with
    which [Promise.all] rejects. *)
Record Scan : Type := {
  session : Session;
  counter : nat;
  tasks : list Task;
  rejection : option string
}.

Definition start (gainers : list GainerStock) (σ : Session) : Scan :=
  {| session := σ; counter := 0;
     tasks := AwaitingLookups <$> gainers; rejection := None |}.

Definition record_event (e : Event) (σ : Session) : Session :=
  {| _alertedTickers := _alertedTickers σ; transport := transport σ ++ [e] |}.

Definition add_alerted (ticker : string) (σ : Session) : Session :=
  {| _alertedTickers := {[ ticker ]} ∪ _alertedTickers σ;
     transport := transport σ |}.

Definition settle_task (i : nat) (t : Task) (σ : Session) (s : Scan) : Scan :=
  {| session := σ; counter := counter s;
     tasks := <[ i := t ]> (tasks s); rejection := rejection s |}.

Definition reject_task (i : nat) (msg : string) (σ : Session) (s : Scan) : Scan :=
  {| session := σ; counter := counter s;
     tasks := <[ i := Rejected msg ]> (tasks s);
     rejection := match rejection s with
                  | Some first => Some first
                  | None => Some msg
                  end |}.

(** Task [i] runs up to its next [await] or to its end. *)
Definition resume (w : World) (niftyChangePercent : Q) (i : nat) (s : Scan)
    : Scan :=
  match tasks s !! i with
  | Some (AwaitingLookups stock) =>
      match lookups w stock with
      | Throws msg => reject_task i msg (session s) s
      | Returns lk =>
          let d := enrich stock niftyChangePercent lk in
          if decide (status d = alert) then
            if decide (ticker_of d ∈ _alertedTickers (session s))
            then settle_task i (Fulfilled d) (session s) s
            else settle_task i (AwaitingSend d)
                   (record_event (SendCalled (ticker_of d)) (session s)) s
          else settle_task i (Fulfilled d) (session s) s
      end
  | Some (AwaitingSend d) =>
      let ticker := ticker_of d in
      match sendWhatsAppAlert w ticker (changePercent (gainer d))
              (deliveryPercent d) (sd_r2Proximity d) with
      | Throws msg =>
          reject_task i msg (record_event (SendThrew ticker) (session s)) s
      | Returns true =>
          {| session := add_alerted ticker
                          (record_event (SendReturned ticker true) (session s));
             counter := S (counter s);
             tasks := <[ i := Fulfilled (with_alertSent d) ]> (tasks s);
             rejection := rejection s |}
      | Returns false =>
          settle_task i (Fulfilled d)
            (record_event (SendReturned ticker false) (session s)) s
      end
  | Some (Fulfilled _) | Some (Rejected _) | None => s
  end.

(** The same, as a step relation: one case for each way a task can
    move, and [step_idle] for a task that is settled or does not exist. *)
Inductive step (w : World) (nifty : Q) (i : nat) (s : Scan) : Scan -> Prop :=
| step_idle :
    (forall stock, tasks s !! i <> Some (AwaitingLookups stock)) ->
    (forall d, tasks s !! i <> Some (AwaitingSend d)) ->
    step w nifty i s s
| step_lookups_throw stock msg :
    tasks s !! i = Some (AwaitingLookups stock) ->
    lookups w stock = Throws msg ->
    step w nifty i s (reject_task i msg (session s) s)
| step_no_alert stock lk :
    tasks s !! i = Some (AwaitingLookups stock) ->
    lookups w stock = Returns lk ->
    status (enrich stock nifty lk) <> alert ->
    step w nifty i s
      (settle_task i (Fulfilled (enrich stock nifty lk)) (session s) s)
| step_already_alerted stock lk :
    tasks s !! i = Some (AwaitingLookups stock) ->
    lookups w stock = Returns lk ->
    status (enrich stock nifty lk) = alert ->
    ticker_of (enrich stock nifty lk) ∈ _alertedTickers (session s) ->
    step w nifty i s
      (settle_task i (Fulfilled (enrich stock nifty lk)) (session s) s)
| step_send stock lk :
    tasks s !! i = Some (AwaitingLookups stock) ->
    lookups w stock = Returns lk ->
    status (enrich stock nifty lk) = alert ->
    ticker_of (enrich stock nifty lk) ∉ _alertedTickers (session s) ->
    step w nifty i s
      (settle_task i (AwaitingSend (enrich stock nifty lk))
         (record_event (SendCalled (ticker_of (enrich stock nifty lk))) (session s)) s)
| step_send_throw d msg :
    tasks s !! i = Some (AwaitingSend d) ->
    sendWhatsAppAlert w (ticker_of d) (changePercent (gainer d))
      (deliveryPercent d) (sd_r2Proximity d) = Throws msg ->
    step w nifty i s
      (reject_task i msg (record_event (SendThrew (ticker_of d)) (session s)) s)
| step_sent d :
    tasks s !! i = Some (AwaitingSend d) ->
    sendWhatsAppAlert w (ticker_of d) (changePercent (gainer d))
      (deliveryPercent d) (sd_r2Proximity d) = Returns true ->
    step w nifty i s
      {| session := add_alerted (ticker_of d)
                      (record_event (SendReturned (ticker_of d) true) (session s));
         counter := S (counter s);
         tasks := <[ i := Fulfilled (with_alertSent d) ]> (tasks s);
         rejection := rejection s |}
| step_not_sent d :
    tasks s !! i = Some (AwaitingSend d) ->
    sendWhatsAppAlert w (ticker_of d) (changePercent (gainer d))
      (deliveryPercent d) (sd_r2Proximity d) = Returns false ->
    step w nifty i s
      (settle_task i (Fulfilled d)
         (record_event (SendReturned (ticker_of d) false) (session s)) s).

(** The tasks are resumed in some order, the schedule; whatever is
    still suspended after it is then run to its end. *)
Definition run (w : World) (niftyChangePercent : Q) (schedule : list nat)
    (s : Scan) : Scan :=
  foldl (fun s i => resume w niftyChangePercent i s) s schedule.

Definition settle (w : World) (niftyChangePercent : Q) (s : Scan) : Scan :=
  run w niftyChangePercent
    (seq 0 (length (tasks s)) ++ seq 0 (length (tasks s))) s.

Definition fulfilled (t : Task) : option StockData :=
  match t with
  | Fulfilled d => Some d
  | _ => None
  end.

(** The array [enriched] that [Promise.all] resolves with. *)
Definition enriched (s : Scan) : list StockData := omap fulfilled (tasks s).

(** *** Final ordering *)

Definition statusPriority (s : StockStatus) : Z :=
  match s with
  | alert => 0
  | watch => 1
  | filtered => 2
  end.

(** The comparison function given to [sort]. *)
Definition compare (a b : StockData) : Q :=
  let p := (statusPriority (status a) - statusPriority (status b))%Z in
  if negb (p =? 0)%Z then inject_Z p
  else silenceScore b - silenceScore a.

(** [Array.prototype.sort]: a stable sort; [x] stays before [y] unless
    the comparison function is positive on them. *)
Fixpoint insert {A : Type} (cmp : A -> A -> Q) (x : A) (l : list A) : list A :=
  match l with
  | [] => [x]
  | y :: l' =>
      if Qle_bool (cmp x y) 0 then x :: y :: l'
      else y :: insert cmp x l'
  end.

Definition sort {A : Type} (cmp : A -> A -> Q) (l : list A) : list A :=
  foldr (insert cmp) [] l.

(** *** The handler *)

(** [await Promise.all(gainers.map(...))]: all the tasks, run under a
    schedule to their end. *)
Definition enrich_all (w : World) (niftyChangePercent : Q)
    (schedule : list nat) (gainers : list GainerStock) (σ : Session) : Scan :=
  settle w niftyChangePercent
    (run w niftyChangePercent schedule (start gainers σ)).

Definition errorResponse (w : World) (message : string) : ScreenResponse :=
  {| stocks := [];
     scannedAt := now w;
     totalScanned := 0;
     alertsSent := 0;
     niftyChangePercent := 0;
     error := Some message |}.

(** [GET()], for a schedule of its tasks; the response body and the
    session it leaves.  The [catch] turns any rejection into the error
    response; the tasks that are still suspended when one rejects run
    on to their end all the same. *)
Definition GET (w : World) (schedule : list nat) (σ : Session)
    : ScreenResponse * Session :=
  match (gainers ← getTopGainers w MIN_PUMP_PERCENT;
         niftyChangePercent ← getNiftyChangePercent w;
         mret (gainers, niftyChangePercent)) with
  | Throws message => (errorResponse w message, σ)
  | Returns (gainers, niftyChangePercent) =>
      if (length gainers =? 0)%nat then
        ({| stocks := [];
            scannedAt := now w;
            totalScanned := 0;
            alertsSent := 0;
            niftyChangePercent := niftyChangePercent;
            error := None |}, σ)
      else
        let s := enrich_all w niftyChangePercent schedule gainers σ in
        match rejection s with
        | Some message => (errorResponse w message, session s)
        | None =>
            ({| stocks := sort compare (enriched s);
                scannedAt := now w;
                totalScanned := length gainers;
                alertsSent := counter s;
                niftyChangePercent := niftyChangePercent;
                error := None |}, session s)
        end
  end.


(** *** Notions used to state the properties *)

(** How many times a task can still be resumed. *)
Definition steps_left (t : Task) : nat :=
  match t with
  | AwaitingLookups _ => 2
  | AwaitingSend _ => 1
  | Fulfilled _ | Rejected _ => 0
  end.

Definition pending (s : Scan) (i : nat) : nat :=
  from_option steps_left 0%nat (tasks s !! i).

(** The tasks that ended with an alert sent. *)
Definition sent (t : Task) : bool :=
  match t with
  | Fulfilled d => alertSent d
  | _ => false
  end.

Definition sent_count (ts : list Task) : nat :=
  sum_list_with (fun t => Nat.b2n (sent t)) ts.

(** The number of stocks of a list marked [alertSent]. *)
Definition alerts_in (l : list StockData) : nat :=
  sum_list_with (fun d => Nat.b2n (alertSent d)) l.

(** The bookkeeping of a scan: the counter counts the alerts sent, a
    rejected task has been noted, only alerts are sent. *)
Definition accounted (s : Scan) : Prop :=
  counter s = sent_count (tasks s)
  /\ (forall i msg, tasks s !! i = Some (Rejected msg) -> is_Some (rejection s))
  /\ (forall i d, tasks s !! i = Some (AwaitingSend d) ->
                  status d = alert /\ alertSent d = false)
  /\ (forall i d, tasks s !! i = Some (Fulfilled d) ->
                  alertSent d = true -> status d = alert).

(** The order of the report: [a] may stand right before [b]. *)
Definition precedes (a b : StockData) : Prop :=
  (statusPriority (status a) < statusPriority (status b))%Z
  \/ (status a = status b /\ (silenceScore b <= silenceScore a)%Q).

(** The ticker under which a mover is alerted. *)
Definition ticker (stock : GainerStock) : string :=
  tickerFromSymbol (symbol stock).


(** Each ticker occurs once among the movers of a scan. *)
Definition distinct_tickers (w : World) : Prop :=
  forall gainers, getTopGainers w MIN_PUMP_PERCENT = Returns gainers ->
                  NoDup (ticker <$> gainers).

(** The mover a task works on. *)
Definition task_stock (t : Task) : option GainerStock :=
  match t with
  | AwaitingLookups stock => Some stock
  | AwaitingSend d | Fulfilled d => Some (gainer d)
  | Rejected _ => None
  end.

(** Task [i] works on mover [i], and has got its lookups once it is
    past them. *)
Definition on_movers (w : World) (gainers : list GainerStock) (s : Scan) : Prop :=
  forall i t, tasks s !! i = Some t ->
    (forall g, task_stock t = Some g -> gainers !! i = Some g)
    /\ (forall d, t = AwaitingSend d \/ t = Fulfilled d ->
                  exists lk, lookups w (gainer d) = Returns lk).

(** A send that threw during the scan has rejected the scan. *)
Definition throws_noted (σ : Session) (s : Scan) : Prop :=
  exists new, transport (session s) = transport σ ++ new
              /\ (forall t, SendThrew t ∈ new -> is_Some (rejection s)).








(** The ways [GET] can end. *)
Inductive outcome_of_GET (w : World) (schedule : list nat) (σ : Session)
    : ScreenResponse * Session -> Prop :=
| gainers_threw message :
    getTopGainers w MIN_PUMP_PERCENT = Throws message ->
    outcome_of_GET w schedule σ (errorResponse w message, σ)
| benchmark_threw gainers message :
    getTopGainers w MIN_PUMP_PERCENT = Returns gainers ->
    getNiftyChangePercent w = Throws message ->
    outcome_of_GET w schedule σ (errorResponse w message, σ)
| no_gainers nifty :
    getTopGainers w MIN_PUMP_PERCENT = Returns [] ->
    getNiftyChangePercent w = Returns nifty ->
    outcome_of_GET w schedule σ
      ({| stocks := []; scannedAt := now w; totalScanned := 0; alertsSent := 0;
          niftyChangePercent := nifty; error := None |}, σ)
| task_rejected gainers nifty message :
    getTopGainers w MIN_PUMP_PERCENT = Returns gainers ->
    getNiftyChangePercent w = Returns nifty ->
    gainers <> [] ->
    rejection (enrich_all w nifty schedule gainers σ) = Some message ->
    outcome_of_GET w schedule σ
      (errorResponse w message, session (enrich_all w nifty schedule gainers σ))
| all_fulfilled gainers nifty :
    getTopGainers w MIN_PUMP_PERCENT = Returns gainers ->
    getNiftyChangePercent w = Returns nifty ->
    gainers <> [] ->
    rejection (enrich_all w nifty schedule gainers σ) = None ->
    outcome_of_GET w schedule σ
      ({| stocks := sort compare (enriched (enrich_all w nifty schedule gainers σ));
          scannedAt := now w;
          totalScanned := length gainers;
          alertsSent := counter (enrich_all w nifty schedule gainers σ);
          niftyChangePercent := nifty;
          error := None |},
       session (enrich_all w nifty schedule gainers σ)).

(** *** Scenarios

    A mover up 6 percent at 121, with no mention anywhere, 20 percent
    delivery and the previous day's candle 110 / 90 / 100 (R2 = 120),
    against a benchmark up 3 percent: every criterion passes.  The
    transport accepts every message. *)

Definition a_chart : string -> outcome (option (list Pivots.Bar)) :=
  fun _ =>
    Returns (Some [ {| Pivots.high := Some 110; Pivots.low := Some 90;
                       Pivots.close := Some 100 |};
                    {| Pivots.high := None; Pivots.low := None;
                       Pivots.close := None |} ]).

Definition a_mover (symbol : string) : GainerStock :=
  {| symbol := symbol; name := symbol; price := 121; change := 7;
     changePercent := 6; volume := 1000; marketCap := 1000000 |}.

Definition a_world (gainers : outcome (list GainerStock)) : World :=
  {| getTopGainers := fun _ => gainers;
     getNiftyChangePercent := Returns 3;
     searchTwitterMentions := fun _ => Returns [];
     searchRedditMentions := fun _ => Returns [];
     searchTelegramMentions := fun _ => Returns [];
     getDeliveryPercent := fun _ => Returns 20;
     getPivotData := fun symbol price =>
       Returns (Pivots.getPivotData a_chart symbol price);
     sendWhatsAppAlert := fun _ _ _ _ => Returns true;
     now := "2026-01-01T09:30:00.000Z" |}.

(** One mover. *)
Definition one_mover : World := a_world (Returns [a_mover "TCS.NS"]).


(** Two movers; the first has 50 percent delivery and is only watched. *)
Definition two_movers : World :=
  {| getTopGainers := fun _ => Returns [a_mover "INFY.NS"; a_mover "TCS.NS"];
     getNiftyChangePercent := Returns 3;
     searchTwitterMentions := fun _ => Returns [];
     searchRedditMentions := fun _ => Returns [];
     searchTelegramMentions := fun _ => Returns [];
     getDeliveryPercent := fun ticker =>
       if String.eqb ticker "INFY" then Returns 50 else Returns 20;
     getPivotData := fun symbol price =>
       Returns (Pivots.getPivotData a_chart symbol price);
     sendWhatsAppAlert := fun _ _ _ _ => Returns true;
     now := "2026-01-01T09:30:00.000Z" |}.

(** The movers cannot be fetched. *)
Definition no_quotes : World := a_world (Throws "fetch failed").

(** A screened stock with a given status and silence score. *)
Definition a_stock (st : StockStatus) (score : Q) : StockData :=
  {| gainer := a_mover "TCS.NS";
     twitterMentions := 0; redditMentions := 0; telegramMentions := 0;
     totalMentions := 0; silenceScore := score; mentions := [];
     deliveryPercent := 20; pivotR2 := 120; sd_r2Proximity := Fin (83 # 100);
     sd_nearR2 := true; sectorOutperformance := 3;
     status := st; alertSent := false |}.

End Route.

(** ** Further notions about a scan *)

Module Scans.
Import Route CRITERIA.

(** The call [sendWhatsAppAlert(ticker, stock.changePercent,
    deliveryPercent, r2Proximity)] made for a screened stock. *)
Definition send_of (w : World) (d : StockData) : outcome bool :=
  sendWhatsAppAlert w (ticker_of d) (changePercent (gainer d))
    (deliveryPercent d) (sd_r2Proximity d).

(** The ticker an event of the transport is about. *)
Definition event_ticker (e : Event) : string :=
  match e with
  | SendCalled t | SendReturned t _ | SendThrew t => t
  end.

(** A stock is the record of a mover: computed from the mover's
    lookups, marked [alertSent] or not. *)
Definition screened (w : World) (nifty : Q) (g : GainerStock) (d : StockData)
    : Prop :=
  exists lk, lookups w g = Returns lk
             /\ (d = enrich g nifty lk \/ d = with_alertSent (enrich g nifty lk)).

(** How far the task of mover [g] has come. *)
Definition stage (w : World) (nifty : Q) (g : GainerStock) (t : Task) : Prop :=
  match t with
  | AwaitingLookups stock => stock = g
  | AwaitingSend d =>
      exists lk, lookups w g = Returns lk /\ d = enrich g nifty lk
                 /\ status d = alert
  | Fulfilled d => screened w nifty g d
  | Rejected _ => True
  end.

(** Task [i] works on mover [i] and holds what the route computes for it. *)
Definition staged (w : World) (nifty : Q) (gainers : list GainerStock)
    (s : Scan) : Prop :=
  forall i t, tasks s !! i = Some t ->
              exists g, gainers !! i = Some g /\ stage w nifty g t.

(** A stock of ticker [t] has been marked [alertSent]. *)
Definition marked (ts : list Task) (t : string) : Prop :=
  exists i d, ts !! i = Some (Fulfilled d) /\ alertSent d = true /\ ticker_of d = t.

(** The set is the set the scan started with, and the tickers of the
    stocks it has marked [alertSent]. *)
Definition grown (σ : Session) (s : Scan) : Prop :=
  forall t, t ∈ _alertedTickers (session s) <->
            t ∈ _alertedTickers σ \/ marked (tasks s) t.

(** Every use of the transport during the scan is for a mover that
    classifies as an alert. *)
Definition for_alerts (w : World) (nifty : Q) (gainers : list GainerStock)
    (σ : Session) (s : Scan) : Prop :=
  exists new, transport (session s) = transport σ ++ new
    /\ forall e, e ∈ new ->
         exists g lk, g ∈ gainers /\ lookups w g = Returns lk
                      /\ status (enrich g nifty lk) = alert
                      /\ event_ticker e = ticker g.

(** The task of a mover at its end, when no other task of the scan
    has its ticker: what the route does for the mover from the session
    [σ] the scan started with. *)
Definition final_task (w : World) (nifty : Q) (σ : Session) (g : GainerStock)
    : Task :=
  match lookups w g with
  | Throws msg => Rejected msg
  | Returns lk =>
      let d := enrich g nifty lk in
      if decide (status d = alert) then
        if decide (ticker_of d ∈ _alertedTickers σ) then Fulfilled d
        else
          match send_of w d with
          | Throws msg => Rejected msg
          | Returns true => Fulfilled (with_alertSent d)
          | Returns false => Fulfilled d
          end
      else Fulfilled d
  end.

(** With distinct tickers, a task is either still at its start, or
    waiting for the transport with a ticker that was not in the set
    when the scan started, or at the end [final_task] gives. *)
Definition on_course (w : World) (nifty : Q) (gainers : list GainerStock)
    (σ : Session) (s : Scan) : Prop :=
  forall i t, tasks s !! i = Some t ->
    exists g, gainers !! i = Some g
      /\ (t = AwaitingLookups g
          \/ (exists lk, lookups w g = Returns lk
                /\ t = AwaitingSend (enrich g nifty lk)
                /\ status (enrich g nifty lk) = alert
                /\ ticker g ∉ _alertedTickers σ)
          \/ t = final_task w nifty σ g).

(** The rejection of a scan is that of the lookups of one of its
    movers, or that of the send for one that classifies as an alert. *)
Definition explained (w : World) (nifty : Q) (gainers : list GainerStock)
    (s : Scan) : Prop :=
  forall message, rejection s = Some message ->
    exists g, g ∈ gainers
      /\ (lookups w g = Throws message
          \/ exists lk, lookups w g = Returns lk
                        /\ status (enrich g nifty lk) = alert
                        /\ send_of w (enrich g nifty lk) = Throws message).

(** Scenario: the mover of [one_mover] with 50 percent delivery, which
    is watched and not alerted. *)
Definition institutional : World :=
  {| getTopGainers := fun _ => Returns [a_mover "TCS.NS"];
     getNiftyChangePercent := Returns 3;
     searchTwitterMentions := fun _ => Returns [];
     searchRedditMentions := fun _ => Returns [];
     searchTelegramMentions := fun _ => Returns [];
     getDeliveryPercent := fun _ => Returns 50;
     getPivotData := fun symbol price =>
       Returns (Pivots.getPivotData a_chart symbol price);
     sendWhatsAppAlert := fun _ _ _ _ => Returns true;
     now := "2026-01-01T09:30:00.000Z" |}.

End Scans.

(** ** The watchlist ([lib/constants.ts]) *)

(** Nifty 50 index symbol for the sector benchmark. *)
Definition NIFTY_50_SYMBOL : string := "^NSEI".

(** Curated Nifty 200 symbols (NSE). *)
Definition NIFTY_200_SYMBOLS : list string :=
  [
    (* Nifty 50 *)
    "RELIANCE.NS"; "TCS.NS"; "HDFCBANK.NS"; "INFY.NS"; "ICICIBANK.NS";
    "HINDUNILVR.NS"; "BHARTIARTL.NS"; "SBIN.NS"; "ITC.NS"; "KOTAKBANK.NS";
    "LT.NS"; "AXISBANK.NS"; "BAJFINANCE.NS"; "ASIANPAINT.NS"; "MARUTI.NS";
    "HCLTECH.NS"; "TITAN.NS"; "SUNPHARMA.NS"; "WIPRO.NS"; "ULTRACEMCO.NS";
    "NTPC.NS"; "POWERGRID.NS"; "NESTLEIND.NS"; "TATAMOTORS.NS"; "TECHM.NS";
    "BAJAJFINSV.NS"; "ADANIENT.NS"; "ADANIPORTS.NS"; "ONGC.NS"; "TATASTEEL.NS";
    "JSWSTEEL.NS"; "COALINDIA.NS"; "HDFCLIFE.NS"; "SBILIFE.NS"; "GRASIM.NS";
    "M&M.NS"; "DIVISLAB.NS"; "BPCL.NS"; "BAJAJ-AUTO.NS"; "DRREDDY.NS";
    "CIPLA.NS"; "EICHERMOT.NS"; "APOLLOHOSP.NS"; "HEROMOTOCO.NS"; "UPL.NS";
    "TATACONSUM.NS"; "BRITANNIA.NS"; "INDUSINDBK.NS"; "HINDALCO.NS"; "VEDL.NS";
    (* Nifty Next 50 *)
    "ADANIGREEN.NS"; "AMBUJACEM.NS"; "AUROPHARMA.NS"; "BANDHANBNK.NS"; "BANKBARODA.NS";
    "BERGEPAINT.NS"; "BIOCON.NS"; "BOSCHLTD.NS"; "CHOLAFIN.NS"; "COLPAL.NS";
    "CONCOR.NS"; "CUMMINSIND.NS"; "DLF.NS"; "DABUR.NS"; "GAIL.NS";
    "GMRINFRA.NS"; "GODREJCP.NS"; "HAVELLS.NS"; "HINDPETRO.NS"; "IDFCFIRSTB.NS";
    "IGL.NS"; "INDUSTOWER.NS"; "IRCTC.NS"; "JUBLFOOD.NS"; "LICI.NS";
    "LUPIN.NS"; "MARICO.NS"; "MUTHOOTFIN.NS"; "NAUKRI.NS"; "OBEROIRLTY.NS";
    "OFSS.NS"; "PEL.NS"; "PETRONET.NS"; "PIDILITIND.NS"; "PNB.NS";
    "POLYCAB.NS"; "SBICARD.NS"; "SHREECEM.NS"; "SIEMENS.NS"; "SRF.NS";
    "TORNTPHARM.NS"; "TRENT.NS"; "VOLTAS.NS"; "ZOMATO.NS"; "PIIND.NS";
    "PAGEIND.NS"; "MPHASIS.NS"; "LTIM.NS"; "DMART.NS"; "HAL.NS";
    (* Additional Nifty 200 *)
    "ABB.NS"; "ACC.NS"; "ALKEM.NS"; "ASHOKLEY.NS"; "ATUL.NS";
    "BALKRISIND.NS"; "BEL.NS"; "BHARATFORG.NS"; "BHEL.NS"; "CANFINHOME.NS";
    "CHAMBLFERT.NS"; "CROMPTON.NS"; "CANBK.NS"; "DEEPAKNTR.NS"; "DELTACORP.NS";
    "DIXON.NS"; "ESCORTS.NS"; "EXIDEIND.NS"; "FEDERALBNK.NS"; "GLENMARK.NS";
    "GNFC.NS"; "GSPL.NS"; "HDFCAMC.NS"; "HONAUT.NS"; "ICICIPRULI.NS";
    "ICICIGI.NS"; "IDEA.NS"; "IDBI.NS"; "INDHOTEL.NS"; "IOC.NS";
    "IPCALAB.NS"; "JINDALSTEL.NS"; "JKCEMENT.NS"; "KPITTECH.NS"; "LAURUSLABS.NS";
    "LICHSGFIN.NS"; "LTTS.NS"; "MANAPPURAM.NS"; "MCX.NS"; "METROPOLIS.NS";
    "MFSL.NS"; "MGL.NS"; "MOTHERSON.NS"; "NAM-INDIA.NS"; "NATIONALUM.NS";
    "NAVINFLUOR.NS"; "NMDC.NS"; "PERSISTENT.NS"; "PFC.NS"; "PVRINOX.NS";
    "RAMCOCEM.NS"; "RECLTD.NS"; "SAIL.NS"; "SONACOMS.NS"; "STARHEALTH.NS";
    "SUNTV.NS"; "SYNGENE.NS"; "TATACHEM.NS"; "TATACOMM.NS"; "TATAPOWER.NS";
    "TORNTPOWER.NS"; "TVSMOTOR.NS"; "UBL.NS"; "UNIONBANK.NS"; "UNITDSPR.NS";
    "VBL.NS"; "ZEEL.NS"; "ZYDUSLIFE.NS"; "COFORGE.NS"; "MAXHEALTH.NS";
    "ASTRAL.NS"; "BATAINDIA.NS"; "CAMS.NS"; "CLEAN.NS"; "CYIENT.NS";
    "DELHIVERY.NS"; "DEVYANI.NS"; "EMAMILTD.NS"; "FORTIS.NS"; "HAPPSTMNDS.NS";
    "INDIAMART.NS"; "IRFC.NS"; "KALYANKJIL.NS"; "KEI.NS"; "LALPATHLAB.NS";
    "LODHA.NS"; "MRF.NS"; "NHPC.NS"; "PHOENIXLTD.NS"; "POONAWALLA.NS";
    "PRESTIGE.NS"; "RAJESHEXPO.NS"; "RELAXO.NS"; "SJVN.NS"; "SUNDARMFIN.NS";
    "SUPREMEIND.NS"; "THERMAX.NS"; "TIINDIA.NS"; "TRIDENT.NS"; "WHIRLPOOL.NS"
  ]%string.

(** ** Market data ([lib/yahoo.ts]) *)

Module Yahoo.
Import Route.

(** A quote of yahoo-finance2, as far as the code reads it; any field
    may be missing. *)
Record Quote : Type := {
  q_symbol : option string;
  shortName : option string;
  longName : option string;
  regularMarketPrice : option Q;
  regularMarketChange : option Q;
  regularMarketChangePercent : option Q;
  regularMarketVolume : option Q;
  q_marketCap : option Q
}.

Definition BATCH_SIZE : nat := 50.

Section Yahoo.

(** [yahooFinance.quote(sym)]: resolves with a quote, or with nothing,
    or rejects. *)
Variable quote : string -> outcome (option Quote).

(** [yahooFinance.quote(sym).catch(() => null)] *)
Definition quote_or_null (sym : string) : option Quote :=
  match quote sym with
  | Returns q => q
  | Throws _ => None
  end.

(** What the inner loop pushes for a quote, if anything. *)
Definition pushed (minChangePercent : Q) (q : Quote) : option GainerStock :=
  let changePercent := default 0 (regularMarketChangePercent q) in
  if Qlt_bool changePercent minChangePercent then None
  else
    Some {| symbol := default ""%string (q_symbol q);
            name := match shortName q with
                    | Some n => n
                    | None =>
                        match longName q with
                        | Some n => n
                        | None => default ""%string (q_symbol q)
                        end
                    end;
            price := default 0 (regularMarketPrice q);
            change := default 0 (regularMarketChange q);
            changePercent := changePercent;
            volume := default 0 (regularMarketVolume q);
            marketCap := default 0 (q_marketCap q) |}.

(** What the loop pushes for a symbol, if anything. *)
Definition entry (minChangePercent : Q) (sym : string) : option GainerStock :=
  quote_or_null sym ≫= pushed minChangePercent.

(** [for (const result of results) { ... }]: the settled results of a
    batch, each skipped or pushed to [allQuotes].  Every promise of
    the batch is fulfilled, rejections having been turned into
    [null]. *)
Definition collect (minChangePercent : Q) (results : list (option Quote))
    (allQuotes : list GainerStock) : list GainerStock :=
  foldl (fun allQuotes result =>
           match result with
           | None => allQuotes
           | Some q =>
               match pushed minChangePercent q with
               | None => allQuotes
               | Some stock => allQuotes ++ [stock]
               end
           end)
        allQuotes results.

(** [for (let i = 0; i < symbols.length; i += BATCH_SIZE) { ... }];
    [fuel] bounds the number of rounds. *)
Fixpoint batches (fuel : nat) (minChangePercent : Q) (symbols : list string)
    (i : nat) (allQuotes : list GainerStock) : list GainerStock :=
  match fuel with
  | O => allQuotes
  | S fuel =>
      if (i <? length symbols)%nat then
        let batch := take BATCH_SIZE (drop i symbols) in
        let results := quote_or_null <$> batch in
        batches fuel minChangePercent symbols (i + BATCH_SIZE)
          (collect minChangePercent results allQuotes)
      else allQuotes
  end.

(** [getTopGainers(minChangePercent)]; a round starts [BATCH_SIZE]
    symbols further, so that as many rounds as there are symbols
    suffice. *)
Definition getTopGainers (minChangePercent : Q) : list GainerStock :=
  let allQuotes :=
    batches (length NIFTY_200_SYMBOLS) minChangePercent NIFTY_200_SYMBOLS 0 [] in
  sort (fun a b => changePercent b - changePercent a) allQuotes.

(** [getNiftyChangePercent()] *)
Definition getNiftyChangePercent : Q :=
  match quote_or_null NIFTY_50_SYMBOL with
  | None => 0
  | Some q => default 0 (regularMarketChangePercent q)
  end.

End Yahoo.

(** The route with its market data from this module: what
    [getTopGainers] and [getNiftyChangePercent] of a [World] are when
    the quotes are [quote]. *)
Definition market (quote : string -> outcome (option Quote)) (w : World) : Prop :=
  (forall minChangePercent,
     Route.getTopGainers w minChangePercent
     = Returns (getTopGainers quote minChangePercent))
  /\ Route.getNiftyChangePercent w = Returns (getNiftyChangePercent quote).


Definition down (sym : string) : outcome (option Quote) := Throws "fetch failed".

Definition market_world (quote : string -> outcome (option Quote)) : World :=
  {| Route.getTopGainers := fun minChangePercent =>
       Returns (getTopGainers quote minChangePercent);
     Route.getNiftyChangePercent := Returns (getNiftyChangePercent quote);
     searchTwitterMentions := fun _ => Returns [];
     searchRedditMentions := fun _ => Returns [];
     searchTelegramMentions := fun _ => Returns [];
     getDeliveryPercent := fun _ => Returns 20;
     getPivotData := fun symbol price =>
       Returns (Pivots.getPivotData a_chart symbol price);
     sendWhatsAppAlert := fun _ _ _ _ => Returns true;
     now := "2026-01-01T09:30:00.000Z" |}.

End Yahoo.

(** ** Delivery percentage ([lib/delivery.ts]) *)

Module Delivery.

(** [tradeInfo.securityWiseDP]; a quantity is held as the text
    [String(...)] makes of it, and may be missing. *)
Record SecurityWiseDP : Type := {
  deliveryQuantity : option string;
  quantityTraded : option string
}.

Record TradeInfo : Type := {
  securityWiseDP : option SecurityWiseDP
}.

(** An entry of [_cache]. *)
Record Entry : Type := {
  value : number;
  fetchedAt : Z
}.

Definition CACHE_TTL_MS : Z := 3 * 60 * 1000.

(** [a / b] on numbers, for a divisor that is not zero. *)
Definition quotient (a b : number) : number :=
  match a, b with
  | NaN, _ | _, NaN => NaN
  | Fin x, Fin y => Fin (x / y)
  | Fin _, (PosInfinity | NegInfinity) => Fin 0
  | (PosInfinity | NegInfinity), (PosInfinity | NegInfinity) => NaN
  | PosInfinity, Fin y => if Qle_bool 0 y then PosInfinity else NegInfinity
  | NegInfinity, Fin y => if Qle_bool 0 y then NegInfinity else PosInfinity
  end.

(** [Math.round(x * 10000) / 100] *)
Definition hundredths (x : number) : number :=
  match x with
  | Fin q => Fin (inject_Z (Math_round (q * 10000)) / 100)
  | other => other
  end.

(** [x === 0] *)
Definition is_zero (x : number) : bool :=
  match x with
  | Fin q => Qeq_bool q 0
  | _ => false
  end.

(** [s.replace(/,/g, "")] *)
Fixpoint without_commas (s : string) : string :=
  match s with
  | EmptyString => EmptyString
  | String c rest =>
      if Ascii.eqb c "," then without_commas rest
      else String c (without_commas rest)
  end.

Section Delivery.

(** [parseFloat] *)
Variable parseFloat : string -> number.

(** [parseFloat(String(quantity ?? 0).replace(/,/g, ""))] *)
Definition quantity (field : option string) : number :=
  parseFloat (without_commas (default "0"%string field)).

(** The first lines of [getDeliveryPercent(ticker)], up to the
    [await]: the cached value, when there is one that is younger than
    [CACHE_TTL_MS] at the time [now] of the call. *)
Definition cached (cache : gmap string Entry) (ticker : string) (now : Z)
    : option number :=
  match cache !! ticker with
  | Some entry =>
      if (now - fetchedAt entry <? CACHE_TTL_MS)%Z then Some (value entry)
      else None
  | None => None
  end.

(** The rest of it, from the answer of [nseIndia.getEquityTradeInfo]
    on; [later] is the time at which the value is stored. *)
Definition fetched (answer : outcome (option TradeInfo)) (ticker : string)
    (later : Z) (cache : gmap string Entry) : number * gmap string Entry :=
  match answer with
  | Throws _ => (Fin (-1), cache)
  | Returns tradeInfo =>
      match tradeInfo ≫= securityWiseDP with
      | None => (Fin (-1), cache)
      | Some dp =>
          let deliveryQty := quantity (deliveryQuantity dp) in
          let totalQty := quantity (quantityTraded dp) in
          if is_zero totalQty then (Fin (-1), cache)
          else
            let pct := hundredths (quotient deliveryQty totalQty) in
            (pct, <[ ticker := {| value := pct; fetchedAt := later |} ]> cache)
      end
  end.

(** [getDeliveryPercent(ticker)], called at [now] with NSE answering
    as [nse]: the result and the cache it leaves. *)
Definition getDeliveryPercent (nse : string -> outcome (option TradeInfo))
    (ticker : string) (now later : Z) (cache : gmap string Entry)
    : number * gmap string Entry :=
  match cached cache ticker now with
  | Some value => (value, cache)
  | None => fetched (nse ticker) ticker later cache
  end.

(** NSE has figures for the ticker, with a traded quantity that is not
    zero. *)
Definition available (answer : outcome (option TradeInfo)) : Prop :=
  exists tradeInfo dp,
    answer = Returns (Some tradeInfo) /\ securityWiseDP tradeInfo = Some dp
    /\ is_zero (quantity (quantityTraded dp)) = false.

End Delivery.

(** Scenarios: a [parseFloat] for texts of digits; NSE with 2,500
    shares delivered out of 10,000 traded; NSE out of reach. *)
Definition parse_digits (s : string) : number :=
  match NilEmpty.uint_of_string s with
  | Some n => Fin (inject_Z (Z.of_N (N.of_uint n)))
  | None => NaN
  end.

Definition a_quarter (ticker : string) : outcome (option TradeInfo) :=
  Returns (Some {| securityWiseDP :=
                     Some {| deliveryQuantity := Some "2,500"%string;
                             quantityTraded := Some "10,000"%string |} |}).

Definition unreachable (ticker : string) : outcome (option TradeInfo) :=
  Throws "timeout".

End Delivery.

(** ** The listing of the subreddit and its cache ([lib/reddit.ts]) *)

Module Reddit.
Import Mentions.

(** [_cache], when it is not [null]. *)
Record Cache : Type := {
  posts : list RedditPost;
  fetchedAt : Z
}.

Definition CACHE_TTL_MS : Z := 2 * 60 * 1000.

(** What the request for the listing resolves with: a status that is
    not ok, or a body, whose [data.children] may be missing.  A
    request that fails, or whose body cannot be read, rejects. *)
Inductive Listing : Type :=
| NotOk
| Children (children : option (list RedditPost)).

(** The first lines of [fetchPosts()]: the cached posts, when they are
    younger than [CACHE_TTL_MS] at the time [now] of the call. *)
Definition cached (cache : option Cache) (now : Z) : option (list RedditPost) :=
  match cache with
  | Some c =>
      if (now - fetchedAt c <? CACHE_TTL_MS)%Z then Some (posts c) else None
  | None => None
  end.

(** The rest of it, from the answer to the request on; [later] is the
    time at which the posts are stored. *)
Definition fetched (response : outcome Listing) (later : Z)
    (cache : option Cache) : list RedditPost * option Cache :=
  match response with
  | Throws _ => ([], cache)
  | Returns NotOk => ([], cache)
  | Returns (Children children) =>
      let posts := default [] children in
      (posts, Some {| posts := posts; fetchedAt := later |})
  end.

(** [fetchPosts()], called at [now]: the posts and the cache it leaves. *)
Definition fetchPosts (response : outcome Listing) (now later : Z)
    (cache : option Cache) : list RedditPost * option Cache :=
  match cached cache now with
  | Some posts => (posts, cache)
  | None => fetched response later cache
  end.

Section Search.

Variable toISOString : Z -> string.

(** [searchRedditMentions(ticker)] with its call of [fetchPosts()]. *)
Definition searchRedditMentions (response : outcome Listing) (now later : Z)
    (cache : option Cache) (ticker : string)
    : outcome (list SocialMention) * option Cache :=
  let '(posts, cache) := fetchPosts response now later cache in
  (Mentions.searchRedditMentions toISOString posts ticker, cache).

End Search.

(** Scenario: a listing of one post. *)
Definition a_post : RedditPost :=
  {| data_title := "Why is $TCS up today?";
     data_selftext := "";
     data_permalink := "/r/IndianStreetBets/comments/1abcde/why_is_tcs_up_today/";
     data_author := "trader";
     data_created_utc := 1767259800;
     data_id := "1abcde" |}.

End Reddit.

(** ** WhatsApp alerts through Twilio ([lib/whatsapp.ts]) *)

Module WhatsApp.
Import Mentions.

(** The environment variables the function reads. *)
Record Env : Type := {
  TWILIO_ACCOUNT_SID : option string;
  TWILIO_AUTH_TOKEN : option string;
  TWILIO_WHATSAPP_FROM : option string;
  WHATSAPP_TO : option string
}.

(** The request made to Twilio: its address, the text whose base64
    form follows [Basic] in the [Authorization] header, and the form
    fields of its body. *)
Record Request : Type := {
  address : string;
  credentials : string;
  params : list (string * string)
}.

Definition newline : string := String (ascii_of_nat 10) EmptyString.

Section WhatsApp.

(** [x.toFixed(digits)] on a finite number. *)
Variable toFixed : Q -> nat -> string.

(** [toFixed] on any number: a value that is not finite is written as
    [String] writes it. *)
Definition toFixed_number (x : number) (digits : nat) : string :=
  match x with
  | Fin q => toFixed q digits
  | PosInfinity => "Infinity"
  | NegInfinity => "-Infinity"
  | NaN => "NaN"
  end.

(** The text of the message. *)
Definition body (ticker : string) (changePercent deliveryPercent : Q)
    (r2Proximity : number) : string :=
  String.concat newline
    [ "🚨 SilentSurge Alert: " +:+ ticker +:+ " up +" +:+ toFixed changePercent 2
        +:+ "% at R2 resistance with zero news and low delivery.";
      "";
      "📊 Details:";
      "• Change: +" +:+ toFixed changePercent 2 +:+ "%";
      "• Delivery %: " +:+ toFixed deliveryPercent 1 +:+ "% (speculative)";
      "• R2 Proximity: " +:+ toFixed_number r2Proximity 2 +:+ "%";
      "• Social Mentions: 0";
      "";
      "⚡ Mean-reversion short candidate identified by SilentSurge." ]%string.

(** [sendWhatsAppAlert(ticker, changePercent, deliveryPercent,
    r2Proximity)]: whether the message was sent, and the requests made
    to Twilio.  [fetch] is the answer to a request: whether its status
    is ok, or a rejection; whatever is thrown from the request on is
    caught. *)
Definition sendWhatsAppAlert (env : Env) (fetch : Request -> outcome bool)
    (ticker : string) (changePercent deliveryPercent : Q) (r2Proximity : number)
    : bool * list Request :=
  match truthy (TWILIO_ACCOUNT_SID env), truthy (TWILIO_AUTH_TOKEN env),
        truthy (TWILIO_WHATSAPP_FROM env), truthy (WHATSAPP_TO env) with
  | Some accountSid, Some authToken, Some from, Some to =>
      if String.eqb accountSid "your_twilio_account_sid"
         || String.eqb authToken "your_twilio_auth_token"
      then (false, [])
      else
        let request :=
          {| address := "https://api.twilio.com/2010-04-01/Accounts/"
                        +:+ accountSid +:+ "/Messages.json";
             credentials := accountSid +:+ ":" +:+ authToken;
             params := [ ("From", from); ("To", to);
                         ("Body", body ticker changePercent deliveryPercent
                                    r2Proximity) ]%string |} in
        match fetch request with
        | Returns true => (true, [request])
        | Returns false | Throws _ => (false, [request])
        end
  | _, _, _, _ => (false, [])
  end.

(** The four variables are set and are not the placeholders. *)
Definition configured (env : Env) : Prop :=
  exists accountSid authToken from to,
    truthy (TWILIO_ACCOUNT_SID env) = Some accountSid
    /\ truthy (TWILIO_AUTH_TOKEN env) = Some authToken
    /\ truthy (TWILIO_WHATSAPP_FROM env) = Some from
    /\ truthy (WHATSAPP_TO env) = Some to
    /\ accountSid <> "your_twilio_account_sid"%string
    /\ authToken <> "your_twilio_auth_token"%string.

End WhatsApp.

(** Scenario: a configured environment, and Twilio accepting every
    request. *)
Definition twilio : Env :=
  {| TWILIO_ACCOUNT_SID := Some "AC0123456789"%string;
     TWILIO_AUTH_TOKEN := Some "secret"%string;
     TWILIO_WHATSAPP_FROM := Some "whatsapp:+14155238886"%string;
     WHATSAPP_TO := Some "whatsapp:+919876543210"%string |}.

Definition accepted (request : Request) : outcome bool := Returns true.

End WhatsApp.

(** ** Twitter search ([lib/twitter.ts]) *)

Module Twitter.
Import Mentions.

(** A tweet of the search result, with the fields asked for
    ([tweet_id] and [tweet_text] are its [id] and [text]). *)
Record Tweet : Type := {
  tweet_id : string;
  tweet_text : option string;
  author_id : option string;
  created_at : option string
}.

(** The environment variables the module reads. *)
Record Env : Type := {
  TWITTER_BEARER_TOKEN : option string;
  TWITTER_TRUSTED_USER_IDS : option string
}.

(** A client, which is the token it was made with. *)
Definition TwitterApi : Type := string.

(** [getClient()]; [_client] is the module's variable.  The client
    returned, and the variable afterwards. *)
Definition getClient (env : Env) (_client : option TwitterApi)
    : option TwitterApi * option TwitterApi :=
  match _client with
  | Some client => (Some client, _client)
  | None =>
      match truthy (TWITTER_BEARER_TOKEN env) with
      | None => (None, None)
      | Some token =>
          if String.eqb token "your_twitter_bearer_token_here" then (None, None)
          else (Some token, Some token)
      end
  end.

(** [s.split(",")] *)
Fixpoint split (s : string) : list string :=
  match s with
  | EmptyString => [EmptyString]
  | String c rest =>
      if Ascii.eqb c "," then EmptyString :: split rest
      else
        match split rest with
        | piece :: pieces => String c piece :: pieces
        | [] => [String c EmptyString]
        end
  end.

(** White space and line terminators, among the code units below 256. *)
Definition is_space (c : ascii) : bool :=
  existsb (Ascii.eqb c) RegExp.whiteSpace.

Fixpoint trimStart (s : string) : string :=
  match s with
  | EmptyString => EmptyString
  | String c rest => if is_space c then trimStart rest else s
  end.

Fixpoint trimEnd (s : string) : string :=
  match s with
  | EmptyString => EmptyString
  | String c rest =>
      match trimEnd rest with
      | EmptyString => if is_space c then EmptyString else String c EmptyString
      | kept => String c kept
      end
  end.

(** [s.trim()] *)
Definition trim (s : string) : string := trimEnd (trimStart s).

(** [(process.env.TWITTER_TRUSTED_USER_IDS ?? "").split(",")
       .map((id) => id.trim()).filter(Boolean)] *)
Definition trustedIds (env : Env) : list string :=
  List.filter (fun id => negb (String.eqb id ""))
    (trim <$> split (default ""%string (TWITTER_TRUSTED_USER_IDS env))).

(** The search query for a ticker. *)
Definition query (env : Env) (ticker : string) : string :=
  let tickerQuery := "($" +:+ ticker +:+ " OR #" +:+ ticker +:+ ")" in
  let fromClause :=
    if (0 <? length (trustedIds env))%nat
    then " (" +:+ String.concat " OR " ((fun id => "from:" +:+ id) <$> trustedIds env)
         +:+ ")"
    else ""%string in
  tickerQuery +:+ fromClause +:+ " -is:retweet lang:en".

Definition tweetMention (tweet : Tweet) : SocialMention :=
  {| platform := twitter;
     title := match tweet_text tweet with
              | Some body => substring 0 200 body
              | None => ""%string
              end;
     url := "https://x.com/i/status/" +:+ tweet_id tweet;
     author := author_id tweet;
     timestamp := created_at tweet |}.

(** [searchTwitterMentions(ticker)].  [search] is the answer of
    [roClient.v2.search] for a client and a query: the tweets
    [result.data?.data], if there are any, or a rejection, which is
    caught.  The mentions, and the variable [_client] afterwards. *)
Definition searchTwitterMentions (env : Env)
    (search : TwitterApi -> string -> outcome (option (list Tweet)))
    (_client : option TwitterApi) (ticker : string)
    : list SocialMention * option TwitterApi :=
  match getClient env _client with
  | (None, _client) => ([], _client)
  | (Some client, _client) =>
      match search client (query env ticker) with
      | Throws _ => ([], _client)
      | Returns None => ([], _client)
      | Returns (Some tweets) => (tweetMention <$> tweets, _client)
      end
  end.

(** Scenario: a token, and no trusted account. *)
Definition a_token : Env :=
  {| TWITTER_BEARER_TOKEN := Some "AAAAAAAAAAAAAAAAAAAAAA"%string;
     TWITTER_TRUSTED_USER_IDS := Some " , "%string |}.

Definition a_tweet : Tweet :=
  {| tweet_id := "1876543210";
     tweet_text := Some "$TCS breaking out"%string;
     author_id := Some "44196397"%string;
     created_at := Some "2026-01-01T09:30:00.000Z"%string |}.

End Twitter.

(** ** The dashboard ([app/page.tsx]) *)

Module Dashboard.
Import Mentions Route.

(** The answer to [fetch("/api/screen")]: its status, and its body as
    [res.json()] reads it. *)
Record Response : Type := {
  res_status : Z;
  json : outcome ScreenResponse
}.

(** [res.ok] *)
Definition res_ok (res : Response) : bool :=
  (200 <=? res_status res)%Z && (res_status res <=? 299)%Z.

(** The state of the component: [data], [loading] and [error]
    ([st_error]). *)
Record State : Type := {
  data : option ScreenResponse;
  loading : bool;
  st_error : option string
}.

(** [fetchData()]: the state when the call has ended.  What is thrown
    inside is an [Error], whose message becomes the error shown. *)
Definition fetchData (answer : outcome Response) (st : State) : State :=
  let failed msg := {| data := data st; loading := false; st_error := Some msg |} in
  match answer with
  | Throws msg => failed msg
  | Returns res =>
      if negb (res_ok res)
      then failed ("HTTP " +:+ String_of_Z (res_status res))
      else
        match json res with
        | Throws msg => failed msg
        | Returns report =>
            match truthy (error report) with
            | Some message => failed message
            | None => {| data := Some report; loading := false; st_error := None |}
            end
        end
  end.

(** What the route answers with: [NextResponse.json(response)] for a
    report, and [NextResponse.json(errorResponse, { status: 500 })]
    from its [catch], which is where a report carries an error. *)
Definition served (r : ScreenResponse) : Response :=
  {| res_status := match error r with
                   | Some _ => 500
                   | None => 200
                   end;
     json := Returns r |}.

(** [data?.stocks.filter((s) => s.status === st).length ?? 0] *)
Definition count (st : StockStatus) (state : State) : nat :=
  match data state with
  | Some report => length (filter (fun s => status s = st) (stocks report))
  | None => 0
  end.

Definition alertCount : State -> nat := count alert.
Definition watchCount : State -> nat := count watch.

(** The parts of the page that depend on the state. *)
Inductive Block : Type :=
| StatsBar
| LoadingState
| ErrorState (message : string)
| EmptyState
| Table.

Definition shown (condition : bool) (block : Block) : list Block :=
  if condition then [block] else [].

(** The blocks that are rendered. *)
Definition view (st : State) : list Block :=
  let has_data := bool_decide (is_Some (data st)) in
  let has_error := bool_decide (is_Some (truthy (st_error st))) in
  let rows := from_option (fun report => length (stocks report)) 0%nat (data st) in
  shown (has_data && negb (loading st)) StatsBar
  ++ shown (loading st) LoadingState
  ++ from_option
       (fun message => shown (negb (loading st)) (ErrorState message))
       [] (truthy (st_error st))
  ++ shown (negb (loading st) && negb has_error && has_data && (rows =? 0)%nat)
       EmptyState
  ++ shown (negb (loading st) && negb has_error && has_data && (0 <? rows)%nat)
       Table.

(** Scenario: the page as it is first rendered. *)
Definition first_render : State :=
  {| data := None; loading := true; st_error := None |}.

End Dashboard.

(** * Properties *)

(** ** Rounding *)

Module NumFacts.

Lemma Qfloor_ge (k : Z) (x : Q) : (k <= Qfloor x)%Z <-> inject_Z k <= x.
Proof.
  split; intros H.
  - eapply Qle_trans; [| apply Qfloor_le]. now rewrite <- Zle_Qle.
  - assert (Hlt : inject_Z k < inject_Z (Qfloor x + 1)).
    { eapply Qle_lt_trans; [exact H | apply Qlt_floor]. }
    rewrite <- Zlt_Qlt in Hlt. lia.
Qed.

Lemma Math_round_le (x y : Q) : x <= y -> (Math_round x <= Math_round y)%Z.
Proof.
  intros H. unfold Math_round. apply Qfloor_resp_le. lra.
Qed.

Lemma Math_round_ge (k : Z) (x : Q) :
  (k <= Math_round x)%Z <-> inject_Z k - (1 # 2) <= x.
Proof.
  unfold Math_round. rewrite Qfloor_ge. split; intros H; lra.
Qed.


Lemma hundredths_le (a b : Z) :
  inject_Z a / 100 <= inject_Z b / 100 <-> (a <= b)%Z.
Proof.
  rewrite Zle_Qle. split; intros H.
  - apply Qmult_le_r with (z := / 100); [reflexivity | exact H].
  - apply Qmult_le_r with (z := / 100) in H; [exact H | reflexivity].
Qed.



End NumFacts.

(** ** Criteria and classification *)

Module CriteriaFacts.
Import Route CRITERIA NumFacts.

(** C1.  For each of the sixteen combinations of the four criteria
    the classifier gives [alert] exactly when all four pass, [watch]
    exactly when two or three pass, and [filtered] exactly when at most
    one passes; and the status of an enriched mover is the one the
    classifier gives to its four criteria. *)
Theorem classify_truth_table :
  (forall delivery r2 sector mentions : bool,
     let c := {| passesDelivery := delivery; passesR2 := r2;
                 passesSector := sector; passesMentions := mentions |} in
     (classify c = alert <->
        delivery = true /\ r2 = true /\ sector = true /\ mentions = true)
     /\ (classify c = watch <-> passed c = 2%nat \/ passed c = 3%nat)
     /\ (classify c = filtered <-> (passed c <= 1)%nat))
  /\ (forall (stock : GainerStock) (nifty : Q) (lk : Lookups),
        let d := enrich stock nifty lk in
        status d = classify (criteria (deliveryPercent d) (sd_nearR2 d)
                                      (sectorOutperformance d) (totalMentions d))).
Proof.
  split; [| reflexivity].
  intros delivery r2 sector mentions.
  destruct delivery, r2, sector, mentions; cbn;
    repeat split; intros; try discriminate; try lia;
    intuition (try discriminate; try lia).
Qed.

(** *** Silence score *)

Lemma denominator_pos (totalMentions : nat) :
  1 <= 1 + inject_Z (Z.of_nat totalMentions).
Proof.
  assert (H : inject_Z 0 <= inject_Z (Z.of_nat totalMentions)).
  { rewrite <- Zle_Qle. lia. }
  change (inject_Z 0) with 0 in H. lra.
Qed.

Lemma quotient_decreasing (changePercent : Q) (m n : nat) :
  0 <= changePercent -> (m <= n)%nat ->
  changePercent / (1 + inject_Z (Z.of_nat n))
  <= changePercent / (1 + inject_Z (Z.of_nat m)).
Proof.
  intros Hc Hmn.
  pose proof (denominator_pos m) as Hm. pose proof (denominator_pos n) as Hn.
  assert (Hle : 1 + inject_Z (Z.of_nat m) <= 1 + inject_Z (Z.of_nat n)).
  { assert (inject_Z (Z.of_nat m) <= inject_Z (Z.of_nat n)).
    { rewrite <- Zle_Qle. lia. }
    lra. }
  set (a := 1 + inject_Z (Z.of_nat m)) in *.
  set (b := 1 + inject_Z (Z.of_nat n)) in *.
  assert (Hx : changePercent / a * a == changePercent) by (field; lra).
  assert (Hy : changePercent / b * b == changePercent) by (field; lra).
  assert (Hx0 : 0 <= changePercent / a) by (apply Qle_shift_div_l; lra).
  assert (Hy0 : 0 <= changePercent / b) by (apply Qle_shift_div_l; lra).
  set (x := changePercent / a) in *. set (y := changePercent / b) in *.
  nra.
Qed.

Lemma quotient_strictly_decreasing (changePercent : Q) (m n : nat) :
  0 < changePercent -> (m < n)%nat ->
  changePercent / (1 + inject_Z (Z.of_nat n))
  < changePercent / (1 + inject_Z (Z.of_nat m)).
Proof.
  intros Hc Hmn.
  pose proof (denominator_pos m) as Hm. pose proof (denominator_pos n) as Hn.
  assert (Hlt : 1 + inject_Z (Z.of_nat m) < 1 + inject_Z (Z.of_nat n)).
  { assert (inject_Z (Z.of_nat m) < inject_Z (Z.of_nat n)).
    { rewrite <- Zlt_Qlt. lia. }
    lra. }
  set (a := 1 + inject_Z (Z.of_nat m)) in *.
  set (b := 1 + inject_Z (Z.of_nat n)) in *.
  assert (Hx : changePercent / a * a == changePercent) by (field; lra).
  assert (Hy : changePercent / b * b == changePercent) by (field; lra).
  assert (Hx0 : 0 < changePercent / a) by (apply Qlt_shift_div_l; lra).
  assert (Hy0 : 0 < changePercent / b) by (apply Qlt_shift_div_l; lra).
  set (x := changePercent / a) in *. set (y := changePercent / b) in *.
  nra.
Qed.

(** C3, as stated, fails: with a change of 4 percent, 150 and 151
    mentions give the same silence score, 0.03.  (And for a negative
    change percentage the score increases with the mention count: -4
    percent gives -4 without mentions and -2 with one.) *)
Lemma silenceScore_not_strictly_decreasing :
  ((150 < 151)%nat
   /\ silenceScore_of 4 150 == 3 # 100
   /\ silenceScore_of 4 151 == 3 # 100
   /\ ~ silenceScore_of 4 151 < silenceScore_of 4 150)
  /\ ((0 < 1)%nat
      /\ silenceScore_of (-4) 0 == -4
      /\ silenceScore_of (-4) 1 == -2
      /\ ~ silenceScore_of (-4) 1 <= silenceScore_of (-4) 0).
Proof.
  split.
  - split; [lia |]. split; [reflexivity |]. split; [reflexivity |].
    vm_compute. discriminate.
  - split; [lia |]. split; [reflexivity |]. split; [reflexivity |].
    vm_compute. intros H. apply H. reflexivity.
Qed.

(** C3, amended.  The divisor [1 + totalMentions] is at least 1 for
    every mention count, so the quotient is defined.  For a change
    percentage that is not negative the silence score never increases
    with the mention count, and, for a positive change percentage, the
    quotient before rounding strictly decreases. *)
Theorem silenceScore_decreasing (changePercent : Q) (m n : nat) :
  1 <= 1 + inject_Z (Z.of_nat m)
  /\ (0 <= changePercent -> (m < n)%nat ->
      silenceScore_of changePercent n <= silenceScore_of changePercent m)
  /\ (0 < changePercent -> (m < n)%nat ->
      changePercent / (1 + inject_Z (Z.of_nat n))
      < changePercent / (1 + inject_Z (Z.of_nat m))).
Proof.
  split; [apply denominator_pos |]. split.
  - intros Hc Hmn. unfold silenceScore_of.
    apply hundredths_le, Math_round_le.
    pose proof (quotient_decreasing changePercent m n Hc ltac:(lia)). lra.
  - apply quotient_strictly_decreasing.
Qed.

Lemma silenceScore_decreasing_witness :
  silenceScore_of 6 1 <= silenceScore_of 6 0
  /\ 6 / (1 + inject_Z (Z.of_nat 1)) < 6 / (1 + inject_Z (Z.of_nat 0)).
Proof.
  destruct (silenceScore_decreasing 6 0 1) as (_ & Hle & Hlt).
  split; [apply Hle | apply Hlt]; first [lia | reflexivity | discriminate].
Defined.

(** *** Sector outperformance *)

(** C4, as stated, fails: a mover up 4.999 percent against a benchmark
    up 3 percent outperforms by 1.999 points, less than 2, and passes,
    because the difference is compared after rounding to 2.00. *)
Lemma passesSector_below_two :
  passesSector (criteria 20 true (sectorOutperformance_of (4999 # 1000) 3) 0) = true
  /\ ~ MIN_SECTOR_OUTPERFORMANCE <= (4999 # 1000) - 3.
Proof.
  split; [reflexivity |]. vm_compute. intros H. apply H. reflexivity.
Qed.

(** C4, amended.  [passesSector] holds exactly when the sector
    outperformance as reported, the difference between the mover's and
    the benchmark's change percentage rounded to two decimals, is at
    least 2; that is, when the difference itself is at least 1.995. *)
Theorem passesSector_iff (deliveryPercent : Q) (nearR2 : bool)
    (changePercent niftyChangePercent : Q) (totalMentions : nat) :
  let c := criteria deliveryPercent nearR2
             (sectorOutperformance_of changePercent niftyChangePercent)
             totalMentions in
  (passesSector c = true <->
     MIN_SECTOR_OUTPERFORMANCE <= round2 (changePercent - niftyChangePercent))
  /\ (passesSector c = true <->
     399 # 200 <= changePercent - niftyChangePercent).
Proof.
  cbn -[sectorOutperformance_of]. rewrite Qle_bool_iff.
  change (sectorOutperformance_of changePercent niftyChangePercent)
    with (round2 (changePercent - niftyChangePercent)).
  split; [reflexivity |].
  assert (Htwo : MIN_SECTOR_OUTPERFORMANCE == inject_Z 200 / 100) by reflexivity.
  unfold round2. rewrite Htwo, hundredths_le, Math_round_ge.
  change (inject_Z 200) with 200.
  split; intros H; lra.
Qed.

End CriteriaFacts.

(** ** Pivot levels *)

Module PivotFacts.
Import Pivots NumFacts.

Lemma falsy_nonzero (q : Q) : ~ q == 0 -> falsy (Some q) = false.
Proof.
  intros H. cbn. destruct (Qeq_bool q 0) eqn:E; [| reflexivity].
  apply Qeq_bool_iff in E. contradiction.
Qed.

(** With at least two candles and a previous day whose high, low and
    close are there and not zero, the calculator returns the rounded
    levels, and [nearR2] as decided on the proximity before rounding. *)
Lemma getPivotData_complete (chart : string -> outcome (option (list Bar)))
    (symbol : string) (currentPrice : Q) (quotes : list Bar) (prevDay : Bar)
    (h l c : Q) :
  chart symbol = Returns (Some quotes) ->
  (2 <= length quotes)%nat ->
  quotes !! (length quotes - 2)%nat = Some prevDay ->
  high prevDay = Some h -> low prevDay = Some l -> close prevDay = Some c ->
  ~ h == 0 -> ~ l == 0 -> ~ c == 0 ->
  getPivotData chart symbol currentPrice =
    Some {| prevHigh := round2 h;
            prevLow := round2 l;
            prevClose := round2 c;
            pivot := round2 (pivot_of h l c);
            r1 := round2 (r1_of h l c);
            r2 := round2 (r2_of h l c);
            r2Proximity := round2n (r2Proximity_of h l c currentPrice);
            nearR2 := leb (r2Proximity_of h l c currentPrice) 1 |}.
Proof.
  intros Hchart Hlen Hprev Hh Hl Hc Hh0 Hl0 Hc0.
  unfold getPivotData. rewrite Hchart.
  destruct (Nat.ltb_spec (length quotes) 2) as [Hlt | _]; [lia |].
  rewrite Hprev, Hh, Hl, Hc.
  rewrite !falsy_nonzero by assumption. reflexivity.
Qed.







End PivotFacts.

(** ** Ticker matching *)

Module MentionFacts.
Import RegExp Mentions.

Ltac each_code_unit c := destruct c as [[] [] [] [] [] [] [] []].

(** [escapeRegex] escapes exactly the syntax characters. *)
Lemma escaped_syntaxCharacter (c : ascii) :
  existsb (Ascii.eqb c)
    ["."; "*"; "+"; "?"; "^"; "$"; "{"; "}"; "("; ")"; "|"; "["; "]"; "\"]%char
  = syntaxCharacter c.
Proof. each_code_unit c; reflexivity. Qed.

Lemma backslash_syntaxCharacter (c : ascii) :
  Ascii.eqb c "\" = true -> syntaxCharacter c = true.
Proof. intros H. apply Ascii.eqb_eq in H. subst c. reflexivity. Qed.

(** An escaped ticker reads back as the ticker itself. *)
Lemma parse_escapeRegex (t : list ascii) :
  parse_literal (escapeRegex t) = Some (literal t).
Proof.
  induction t as [| c t IH]; [reflexivity |].
  unfold escapeRegex. cbn [flat_map]. fold (escapeRegex t).
  rewrite escaped_syntaxCharacter.
  destruct (syntaxCharacter c) eqn:Hc; cbn [app parse_literal].
  - change (Ascii.eqb "\" "\") with true. cbn match.
    rewrite Hc, IH. reflexivity.
  - destruct (Ascii.eqb c "\") eqn:Hb.
    + apply backslash_syntaxCharacter in Hb. congruence.
    + rewrite Hc, IH. reflexivity.
Qed.

Lemma tickerPattern_returns (ticker : string) :
  tickerPattern ticker =
    Returns {| source := Seq before_ticker
                           (Seq (literal (list_ascii_of_string ticker)) after_ticker);
               global := true; ignoreCase := true; lastIndex := 0 |}.
Proof. unfold tickerPattern. rewrite parse_escapeRegex. reflexivity. Qed.

(** Under the [i] flag the two classes of the pattern contain the
    listed characters and nothing else. *)
Lemma class_before (c : ascii) :
  in_class true ["$"; "#"]%char true c = delimiter_before c.
Proof. each_code_unit c; reflexivity. Qed.

Lemma class_after (c : ascii) :
  in_class true [","; ";"; "."; "!"; "?"; ")"; "]"]%char true c = delimiter_after c.
Proof. each_code_unit c; reflexivity. Qed.

(** The ticker part matches at [k] exactly when the text carries the
    ticker there, up to case. *)
Lemma matches_literal (t input : list ascii) (k e : nat) :
  In e (matches true (literal t) input k) <->
  e = (k + length t)%nat
  /\ map canonicalize (take (length t) (drop k input)) = map canonicalize t.
Proof.
  revert k. induction t as [| c t IH]; intros k.
  - cbn. split.
    + intros [<- | []]. split; [lia | reflexivity].
    + intros [-> _]. left. lia.
  - cbn [literal foldr matches length]. fold (literal t).
    destruct (input !! k) as [d |] eqn:Hk.
    + rewrite (drop_S _ _ _ Hk). cbn [take map].
      unfold same_char.
      destruct (Ascii.eqb (canonicalize c) (canonicalize d)) eqn:Hcd.
      * apply Ascii.eqb_eq in Hcd. cbn [flat_map]. rewrite app_nil_r, IH.
        split.
        -- intros [-> Heq]. split; [lia | congruence].
        -- intros [-> Heq]. split; [lia | congruence].
      * apply Ascii.eqb_neq in Hcd. cbn [flat_map]. split; [intros [] |].
        intros [_ Heq]. congruence.
    + cbn [flat_map]. split; [intros [] |].
      intros [_ Heq]. apply lookup_ge_None in Hk.
      rewrite drop_ge in Heq by lia. discriminate.
Qed.

Lemma matches_after (input : list ascii) (k e : nat) :
  In e (matches true after_ticker input k) <->
  e = k /\ (k = length input
            \/ exists c, input !! k = Some c /\ delimiter_after c = true).
Proof.
  unfold after_ticker. cbn [matches].
  destruct (input !! k) as [d |] eqn:Hk.
  - rewrite class_after.
    assert (Hlt : (k < length input)%nat) by (eapply lookup_lt_Some; eassumption).
    destruct (Nat.eqb_spec k (length input)) as [-> | _]; [lia |].
    destruct (delimiter_after d) eqn:Hd; cbn [app In].
    + split.
      * intros [<- | []]. split; [reflexivity |]. right. eauto.
      * intros [-> _]. now left.
    + split; [intros [] |]. intros [_ [-> | (c & Hc & Hdc)]]; [lia |].
      congruence.
  - apply lookup_ge_None in Hk. cbn [app].
    destruct (Nat.eqb_spec k (length input)) as [-> | Hne]; cbn [app In].
    + split.
      * intros [<- | []]. split; [reflexivity | now left].
      * intros [-> _]. now left.
    + split; [intros [] |]. intros [_ [-> | (c & Hc & _)]]; [lia |].
      discriminate.
Qed.

Lemma matches_before (input : list ascii) (j k : nat) :
  In k (matches true before_ticker input j) <->
  (j = 0%nat /\ k = 0%nat)
  \/ exists c, input !! j = Some c /\ delimiter_before c = true /\ k = S j.
Proof.
  unfold before_ticker. cbn [matches]. rewrite in_app_iff.
  split.
  - intros [H | H].
    + destruct (Nat.eqb_spec j 0) as [-> | _]; [| destruct H].
      destruct H as [<- | []]. now left.
    + destruct (input !! j) as [d |]; [| destruct H].
      rewrite class_before in H.
      destruct (delimiter_before d) eqn:Hd; [| destruct H].
      destruct H as [<- | []]. right. eauto.
  - intros [[-> ->] | (c & Hc & Hd & ->)].
    + left. now left.
    + right. rewrite Hc, class_before, Hd. now left.
Qed.

(** A match of the whole pattern that starts at [j]: the ticker stands
    at [j] when [j] is the start of the text, or right after the
    delimiter at [j]. *)
Lemma matches_pattern (t input : list ascii) (j e : nat) :
  In e (matches true (Seq before_ticker (Seq (literal t) after_ticker)) input j) <->
  exists k,
    ((j = 0%nat /\ k = 0%nat)
     \/ exists c, input !! j = Some c /\ delimiter_before c = true /\ k = S j)
    /\ e = (k + length t)%nat
    /\ map canonicalize (take (length t) (drop k input)) = map canonicalize t
    /\ ((k + length t)%nat = length input
        \/ exists c, input !! (k + length t)%nat = Some c
                     /\ delimiter_after c = true).
Proof.
  cbn [matches]. rewrite in_flat_map. split.
  - intros (k & Hk & He). apply in_flat_map in He as (m & Hm & He).
    apply matches_before in Hk. apply matches_literal in Hm as [-> Hm].
    apply matches_after in He as [-> He]. eauto 6.
  - intros (k & Hk & -> & Hm & He). exists k.
    split; [now apply matches_before |].
    apply in_flat_map. exists (k + length t)%nat.
    split; [now apply matches_literal | now apply matches_after].
Qed.

(** The search loop finds a match exactly when some start position in
    its range has one. *)
Lemma search_is_Some (re : RegExp) (input : list ascii) (start more : nat) :
  is_Some (search re input start more) <->
  exists j, (start <= j <= start + more)%nat
            /\ matches (ignoreCase re) (source re) input j <> [].
Proof.
  revert start. induction more as [| more IH]; intros start; cbn [search].
  - destruct (matches (ignoreCase re) (source re) input start) as [| e l] eqn:E.
    + split; [intros [x Hx]; discriminate |].
      intros (j & Hj & Hne). replace j with start in Hne by lia. contradiction.
    + split; [| eauto]. intros _. exists start. split; [lia | congruence].
  - destruct (matches (ignoreCase re) (source re) input start) as [| e l] eqn:E.
    + rewrite IH. split.
      * intros (j & Hj & Hne). exists j. split; [lia | exact Hne].
      * intros (j & Hj & Hne). exists j. split; [| exact Hne].
        destruct (decide (j = start)) as [-> | Hjs]; [contradiction | lia].
    + split; [| eauto]. intros _. exists start. split; [lia | congruence].
Qed.

Lemma test_from_start (re : RegExp) (input : list ascii) :
  global re = true -> lastIndex re = 0%nat ->
  (fst (test re input) = true <->
   exists j, (j <= length input)%nat
             /\ matches (ignoreCase re) (source re) input j <> []).
Proof.
  intros Hg Hl. unfold test. rewrite Hg, Hl.
  change (length input <? 0)%nat with false. cbn match.
  rewrite Nat.sub_0_r.
  pose proof (search_is_Some re input 0 (length input)) as H.
  destruct (search re input 0 (length input)) as [e |]; cbn [fst].
  - split; [| reflexivity]. intros _.
    destruct H as [H _]. destruct (H (mk_is_Some _ _ eq_refl)) as (j & Hj & Hne).
    exists j. split; [lia | exact Hne].
  - split; [discriminate |]. intros (j & Hj & Hne).
    destruct H as [_ H]. destruct H as [x Hx]; [| discriminate].
    exists j. split; [lia | exact Hne].
Qed.

(** [test] touches nothing but [lastIndex]: once that is reset, the
    pattern object is as before. *)
Lemma test_then_reset (re : RegExp) (input : list ascii) :
  lastIndex re = 0%nat ->
  set_lastIndex (snd (test re input)) 0 = re.
Proof.
  intros Hl. destruct re as [src g i li]. cbn in Hl. subst li.
  unfold test. cbn [global lastIndex].
  destruct (length input <? if g then 0 else 0)%nat;
    [destruct g; reflexivity |].
  destruct (search _ _ _ _); destruct g; reflexivity.
Qed.

Lemma nonempty_In {A : Type} (l : list A) : l <> [] <-> exists x, In x l.
Proof.
  destruct l as [| x l]; cbn.
  - split; [congruence | intros [x []]].
  - split; [eauto | congruence].
Qed.

(** A text matches the pattern of a ticker exactly when it mentions the
    ticker in the sense of the specification. *)
Lemma hits_iff (ticker input : string) :
  hits ticker input = true <-> mentions_ticker ticker input.
Proof.
  unfold hits, mentions_ticker. rewrite tickerPattern_returns.
  rewrite test_from_start by reflexivity. cbn [ignoreCase source].
  set (t := list_ascii_of_string ticker). set (s := list_ascii_of_string input).
  split.
  - intros (j & Hj & Hne). apply nonempty_In in Hne as (e & He).
    apply matches_pattern in He as (k & Hk & _ & Hm & Ha).
    exists k. split; [| split; assumption].
    destruct Hk as [[_ ->] | (c & Hc & Hd & ->)]; [now left |].
    right. exists c. rewrite Nat.sub_1_r. cbn [Nat.pred].
    split; [lia | split; assumption].
  - intros (i & Hb & Hm & Ha).
    destruct Hb as [-> | (c & Hi & Hc & Hd)].
    + exists 0%nat. split; [lia |]. apply nonempty_In.
      exists (0 + length t)%nat. apply matches_pattern.
      exists 0%nat. split; [now left | split; [reflexivity | split; assumption]].
    + exists (i - 1)%nat. split; [apply lookup_lt_Some in Hc; lia |].
      apply nonempty_In. exists (i + length t)%nat. apply matches_pattern.
      exists i. split; [| split; [reflexivity | split; assumption]].
      right. exists c. split; [exact Hc | split; [exact Hd | lia]].
Qed.

Section Loops.

Variable toISOString : Z -> string.

Lemma redditLoop_filter (pattern : RegExp) (posts : list RedditPost) :
  lastIndex pattern = 0%nat ->
  redditLoop toISOString pattern posts =
    map (redditMention toISOString)
      (List.filter
         (fun post => fst (test pattern (list_ascii_of_string
            (data_title post +:+ " " +:+ data_selftext post))))
         posts).
Proof.
  intros Hl. induction posts as [| post rest IH]; [reflexivity |].
  cbn [redditLoop List.filter].
  pose proof (test_then_reset pattern
    (list_ascii_of_string (data_title post +:+ " " +:+ data_selftext post)) Hl)
    as Hreset.
  destruct (test pattern _) as [hit pattern'] eqn:E. cbn [snd] in Hreset.
  cbn [fst]. rewrite Hreset, IH. destruct hit; reflexivity.
Qed.

Lemma telegramLoop_filter (pattern : RegExp) (updates : list TelegramUpdate) :
  lastIndex pattern = 0%nat ->
  telegramLoop toISOString pattern updates =
    map (fun '(msg, body) => telegramMention toISOString msg body)
      (List.filter
         (fun '(msg, body) => fst (test pattern (list_ascii_of_string body)))
         (with_text updates)).
Proof.
  intros Hl. induction updates as [| update rest IH]; [reflexivity |].
  cbn [telegramLoop with_text omap list_omap]. fold (with_text rest).
  destruct (update_msg update ≫= _) as [[msg body] |]; [| exact IH].
  cbn [List.filter].
  pose proof (test_then_reset pattern (list_ascii_of_string body) Hl) as Hreset.
  destruct (test pattern _) as [hit pattern'] eqn:E. cbn [snd] in Hreset.
  rewrite Hreset, IH. destruct hit; reflexivity.
Qed.

End Loops.

(** C8.  A text matches the pattern of a ticker exactly when the
    ticker occurs in it, compared without regard to case, preceded by
    the start of the text or by white space, [$] or [#], and followed
    by the end of the text or by white space or one of [, ; . ! ? ) ]].
    The Reddit and the Telegram adapter keep exactly the posts whose
    text matches.  For the ticker TCS, "I like $TCS today" matches and
    "PETROLTCS" does not. *)
Theorem ticker_matching :
  (forall ticker input : string,
     hits ticker input = true <-> mentions_ticker ticker input)
  /\ (forall (toISOString : Z -> string) (posts : list RedditPost) (ticker : string),
        searchRedditMentions toISOString posts ticker =
          Returns (map (redditMention toISOString)
            (List.filter
               (fun post =>
                  hits ticker (data_title post +:+ " " +:+ data_selftext post))
               posts)))
  /\ (forall (toISOString : Z -> string) (token : string)
             (json : TelegramGetUpdatesResponse) (ticker : string),
        token <> "" -> token <> "your_telegram_bot_token_here" ->
        ok json = true ->
        searchTelegramMentions toISOString (Some token) (Returns (Some json)) ticker =
          map (fun '(msg, body) => telegramMention toISOString msg body)
            (List.filter (fun '(msg, body) => hits ticker body)
               (with_text (result json))))
  /\ (hits "TCS" "I like $TCS today" = true
      /\ mentions_ticker "TCS" "I like $TCS today")
  /\ (hits "TCS" "PETROLTCS" = false
      /\ ~ mentions_ticker "TCS" "PETROLTCS").
Proof.
  split; [exact hits_iff |]. split; [| split; [| split]].
  - intros toISOString posts ticker.
    unfold searchRedditMentions, hits. rewrite tickerPattern_returns.
    rewrite redditLoop_filter by reflexivity. reflexivity.
  - intros toISOString token json ticker Htoken Hplaceholder Hok.
    unfold searchTelegramMentions, truthy.
    apply String.eqb_neq in Htoken, Hplaceholder.
    rewrite Htoken, Hplaceholder, Hok. cbn [negb].
    unfold hits. rewrite tickerPattern_returns.
    rewrite telegramLoop_filter by reflexivity. reflexivity.
  - assert (H : hits "TCS" "I like $TCS today" = true) by (vm_compute; reflexivity).
    split; [exact H | now apply hits_iff].
  - assert (H : hits "TCS" "PETROLTCS" = false) by (vm_compute; reflexivity).
    split; [exact H |]. intros Hm. apply hits_iff in Hm. congruence.
Qed.

Lemma ticker_matching_witness :
  searchTelegramMentions (fun _ => "2026-01-01T09:30:00.000Z"%string)
    (Some "123456:token"%string)
    (Returns (Some {| ok := true;
                      result := [ {| update_id := 1;
                                     channel_post :=
                                       Some {| message_id := 7;
                                               text := Some "Buy #tcs, now"%string;
                                               date := 1767259800;
                                               chat := None;
                                               from := None |};
                                     message := None |} ] |}))
    "TCS"
  = [ {| platform := telegram;
         title := "Buy #tcs, now";
         url := "";
         author := None;
         timestamp := Some "2026-01-01T09:30:00.000Z"%string |} ].
Proof.
  destruct ticker_matching as (_ & _ & Htelegram & _).
  rewrite Htelegram; [vm_compute; reflexivity | discriminate | discriminate | reflexivity].
Defined.

End MentionFacts.

(** ** The scan *)

Module ScanFacts.
Import Route CRITERIA.

(** [resume] takes a step of the relation. *)
Lemma resume_step (w : World) (nifty : Q) (i : nat) (s : Scan) :
  step w nifty i s (resume w nifty i s).
Proof.
  unfold resume.
  destruct (tasks s !! i) as [[stock | d | d | msg] |] eqn:Hi.
  - destruct (lookups w stock) as [lk | msg] eqn:Hlk.
    + cbv zeta. destruct (decide (status (enrich stock nifty lk) = alert)) as [Ha | Ha].
      * destruct (decide (ticker_of (enrich stock nifty lk)
                          ∈ _alertedTickers (session s))) as [Hin | Hin].
        -- eapply step_already_alerted; eassumption.
        -- eapply step_send; eassumption.
      * eapply step_no_alert; eassumption.
    + eapply step_lookups_throw; eassumption.
  - cbv zeta.
    destruct (sendWhatsAppAlert w _ _ _ _) as [[|] | msg] eqn:Hs.
    + eapply step_sent; eassumption.
    + eapply step_not_sent; eassumption.
    + eapply step_send_throw; eassumption.
  - apply step_idle; intros ? ?; congruence.
  - apply step_idle; intros ? ?; congruence.
  - apply step_idle; intros ? ?; congruence.
Qed.

(** A property kept by every step holds all along a run. *)
Lemma run_invariant (w : World) (nifty : Q) (P : Scan -> Prop) :
  (forall i s s', P s -> step w nifty i s s' -> P s') ->
  forall schedule s, P s -> P (run w nifty schedule s).
Proof.
  intros Hstep schedule. induction schedule as [| i schedule IH]; intros s Hs.
  - exact Hs.
  - cbn. apply IH. eapply Hstep; [exact Hs | apply resume_step].
Qed.

Lemma settle_invariant (w : World) (nifty : Q) (P : Scan -> Prop) :
  (forall i s s', P s -> step w nifty i s s' -> P s') ->
  forall s, P s -> P (settle w nifty s).
Proof. intros Hstep s Hs. unfold settle. now apply run_invariant. Qed.

(** *** Every task comes to an end *)

Lemma step_pending (w : World) (nifty : Q) (j : nat) (s s' : Scan) (i : nat) :
  step w nifty j s s' ->
  (pending s' i <= pending s i - (if decide (i = j) then 1 else 0))%nat.
Proof.
  intros Hstep. unfold pending.
  destruct Hstep as
    [Hl Hd | stock msg Hj | stock lk Hj | stock lk Hj | stock lk Hj
     | d msg Hj | d Hj | d Hj];
    cbn [tasks settle_task reject_task];
    try (destruct (decide (i = j)) as [-> | Hne];
         [ rewrite list_lookup_insert_eq by (eapply lookup_lt_Some; exact Hj);
           rewrite Hj; cbn; lia
         | rewrite list_lookup_insert_ne by congruence; lia ]).
  destruct (decide (i = j)) as [-> | Hne]; [| lia].
  destruct (tasks s !! j) as [[stock | d | d | msg] |] eqn:Hj; cbn; try lia.
  - exfalso. eapply Hl. reflexivity.
  - exfalso. eapply Hd. reflexivity.
Qed.

Lemma step_length (w : World) (nifty : Q) (j : nat) (s s' : Scan) :
  step w nifty j s s' -> length (tasks s') = length (tasks s).
Proof.
  intros []; cbn [tasks settle_task reject_task];
    rewrite ?length_insert; reflexivity.
Qed.

Lemma run_length (w : World) (nifty : Q) (schedule : list nat) (s : Scan) :
  length (tasks (run w nifty schedule s)) = length (tasks s).
Proof.
  apply (run_invariant w nifty (fun s' => length (tasks s') = length (tasks s)));
    [| reflexivity].
  intros i s1 s2 H1 Hstep. rewrite <- H1. eapply step_length, Hstep.
Qed.

Lemma run_pending (w : World) (nifty : Q) (schedule : list nat) (s : Scan) (i : nat) :
  (pending (run w nifty schedule s) i
   <= pending s i - (if decide (i ∈ schedule) then 1 else 0))%nat.
Proof.
  revert s. induction schedule as [| j schedule IH]; intros s.
  - unfold run. cbn [foldl].
    destruct (decide (i ∈ [])) as [Hin | _]; [| lia].
    apply elem_of_nil in Hin. contradiction.
  - cbn [run foldl]. fold (run w nifty schedule (resume w nifty j s)).
    specialize (IH (resume w nifty j s)).
    pose proof (step_pending w nifty j s _ i (resume_step w nifty j s)) as Hj.
    destruct (decide (i ∈ j :: schedule)) as [Hin | Hin];
      destruct (decide (i ∈ schedule)) as [Hs | Hs];
      destruct (decide (i = j)) as [-> | Hne]; try lia.
    all: rewrite elem_of_cons in Hin; tauto.
Qed.

(** After [settle] no task is suspended any more. *)
Lemma settle_pending (w : World) (nifty : Q) (s : Scan) (i : nat) :
  pending (settle w nifty s) i = 0%nat.
Proof.
  unfold settle, run. rewrite foldl_app.
  fold (run w nifty (seq 0 (length (tasks s))) s).
  set (s1 := run w nifty (seq 0 (length (tasks s))) s).
  fold (run w nifty (seq 0 (length (tasks s))) s1).
  pose proof (run_pending w nifty (seq 0 (length (tasks s))) s i) as H1.
  pose proof (run_pending w nifty (seq 0 (length (tasks s))) s1 i) as H2.
  fold s1 in H1.
  destruct (decide (i ∈ seq 0 (length (tasks s)))) as [Hin | Hin].
  - assert (pending s i <= 2)%nat.
    { unfold pending. destruct (tasks s !! i) as [[] |]; cbn; lia. }
    lia.
  - assert (pending s i = 0)%nat; [| lia].
    unfold pending. rewrite lookup_ge_None_2; [reflexivity |].
    rewrite elem_of_seq in Hin. lia.
Qed.

Lemma settled_task (w : World) (nifty : Q) (s : Scan) (i : nat) (t : Task) :
  tasks (settle w nifty s) !! i = Some t ->
  (exists d, t = Fulfilled d) \/ (exists msg, t = Rejected msg).
Proof.
  intros Hi. pose proof (settle_pending w nifty s i) as H.
  unfold pending in H. rewrite Hi in H.
  destruct t; cbn in H; try discriminate; eauto.
Qed.

(** *** The final ordering *)

Lemma statusPriority_inj (a b : StockStatus) :
  statusPriority a = statusPriority b -> a = b.
Proof. destruct a, b; cbn; intros H; try reflexivity; discriminate. Qed.

Lemma compare_le (a b : StockData) :
  Qle_bool (compare a b) 0 = true -> precedes a b.
Proof.
  unfold compare, precedes. cbv zeta. intros H. apply Qle_bool_iff in H.
  destruct (Z.eqb_spec (statusPriority (status a) - statusPriority (status b)) 0)
    as [Hp | Hp]; cbn [negb] in H.
  - right. split; [apply statusPriority_inj; lia | lra].
  - left. change 0%Q with (inject_Z 0) in H. rewrite <- Zle_Qle in H. lia.
Qed.

Lemma compare_gt (a b : StockData) :
  Qle_bool (compare a b) 0 = false -> precedes b a.
Proof.
  unfold compare, precedes. cbv zeta. intros H.
  assert (Hgt : ~ (compare a b <= 0)%Q).
  { intros Hle. apply Qle_bool_iff in Hle. unfold compare in Hle. congruence. }
  unfold compare in Hgt. cbv zeta in Hgt.
  destruct (Z.eqb_spec (statusPriority (status a) - statusPriority (status b)) 0)
    as [Hp | Hp]; cbn [negb] in Hgt.
  - right. split; [apply statusPriority_inj; lia | lra].
  - left. change 0%Q with (inject_Z 0) in Hgt. rewrite <- Zle_Qle in Hgt. lia.
Qed.

Lemma insert_HdRel (a x : StockData) (l : list StockData) :
  HdRel precedes a l -> precedes a x -> HdRel precedes a (insert compare x l).
Proof.
  intros Hl Hx. destruct l as [| y l]; cbn [insert].
  - now constructor.
  - destruct (Qle_bool (compare x y) 0); constructor; [exact Hx |].
    now inversion Hl.
Qed.

Lemma insert_Sorted (x : StockData) (l : list StockData) :
  Sorted precedes l -> Sorted precedes (insert compare x l).
Proof.
  induction 1 as [| y l Hl IH Hy]; cbn [insert].
  - repeat constructor.
  - destruct (Qle_bool (compare x y) 0) eqn:E.
    + constructor; [now constructor |]. constructor. now apply compare_le.
    + constructor; [exact IH |]. apply insert_HdRel; [exact Hy |].
      now apply compare_gt.
Qed.

Lemma sort_Sorted (l : list StockData) : Sorted precedes (sort compare l).
Proof.
  induction l as [| x l IH]; cbn; [constructor | now apply insert_Sorted].
Qed.

Lemma insert_Permutation {A : Type} (cmp : A -> A -> Q) (x : A) (l : list A) :
  insert cmp x l ≡ₚ x :: l.
Proof.
  induction l as [| y l IH]; cbn [insert]; [reflexivity |].
  destruct (Qle_bool (cmp x y) 0); [reflexivity |].
  rewrite IH. apply Permutation_swap.
Qed.

Lemma sort_Permutation {A : Type} (cmp : A -> A -> Q) (l : list A) :
  sort cmp l ≡ₚ l.
Proof.
  induction l as [| x l IH]; cbn; [reflexivity |].
  fold (sort cmp l). now rewrite insert_Permutation, IH.
Qed.

Lemma Sorted_adjacent {A : Type} (R : A -> A -> Prop) (l : list A)
    (i : nat) (a b : A) :
  Sorted R l -> l !! i = Some a -> l !! S i = Some b -> R a b.
Proof.
  intros Hl. revert i. induction Hl as [| x l Hl IH Hx]; intros i Ha Hb.
  - discriminate.
  - destruct i as [| i]; cbn in Ha, Hb.
    + injection Ha as ->. destruct l as [| y l]; [discriminate |].
      cbn in Hb. injection Hb as ->. now inversion Hx.
    + eapply IH; eassumption.
Qed.

(** *** The counter and the flags *)

Lemma sent_count_insert (ts : list Task) (i : nat) (t t' : Task) :
  ts !! i = Some t ->
  (sent_count (<[ i := t' ]> ts) + Nat.b2n (sent t)
   = sent_count ts + Nat.b2n (sent t'))%nat.
Proof.
  unfold sent_count. revert i. induction ts as [| x ts IH]; intros i Hi.
  - discriminate.
  - destruct i as [| i]; simpl in Hi |- *.
    + injection Hi as ->. lia.
    + specialize (IH i Hi). lia.
Qed.

Ltac inserted H :=
  let Heq := fresh "Heq" in
  apply list_lookup_insert_Some in H as [(-> & Heq & _) | (_ & H)];
  [ try discriminate Heq; try (injection Heq as <-) | ].

Lemma sent_count_same (ts : list Task) (i : nat) (t t' : Task) :
  ts !! i = Some t -> sent t = false -> sent t' = false ->
  sent_count (<[ i := t' ]> ts) = sent_count ts.
Proof.
  intros Hi Ht Ht'. pose proof (sent_count_insert ts i t t' Hi) as H.
  rewrite Ht, Ht' in H. cbn in H. lia.
Qed.

(** Every step keeps the books. *)
Lemma step_accounted (w : World) (nifty : Q) (i : nat) (s s' : Scan) :
  accounted s -> step w nifty i s s' -> accounted s'.
Proof.
  intros Hacc Hstep. pose proof Hacc as (Hcount & Hrej & Hsend & Hdone).
  destruct Hstep as
    [Hl Hd | stock msg Hi Hlk | stock lk Hi Hlk Hs | stock lk Hi Hlk Hs Hin
     | stock lk Hi Hlk Hs Hin | d msg Hi Hsd | d Hi Hsd | d Hi Hsd];
    [exact Hacc | ..];
    unfold accounted; cbn [counter tasks rejection settle_task reject_task];
    try (pose proof (Hsend i d Hi) as [Hsa Hsf]).
  (* the counter *)
  all: split;
    [ first [ rewrite (sent_count_same _ _ _ _ Hi)
                by (try reflexivity; cbn [sent]; assumption);
              exact Hcount
            | idtac ] | ].
  (* rejected tasks are noted *)
  all: try (split;
    [ intros k m Hk; inserted Hk;
      first [ destruct (rejection s); eauto; fail
            | eapply Hrej; eassumption ] | ]).
  (* a task about to send has an alert, not yet marked as sent *)
  all: try (split;
    [ intros k d' Hk; inserted Hk;
      first [ split; [assumption | reflexivity]
            | eapply Hsend; eassumption ] | ]).
  (* a stock marked as sent is an alert *)
  all: try (intros k d' Hk Ha; inserted Hk;
    first [ assumption | discriminate Ha
          | eapply Hdone; eassumption | congruence ]).
  (* the step that counts an alert *)
  pose proof (sent_count_insert (tasks s) i _ (Fulfilled (with_alertSent d)) Hi) as H.
  cbn in H. lia.
Qed.

Lemma start_accounted (gainers : list GainerStock) (σ : Session) :
  accounted (start gainers σ).
Proof.
  unfold accounted, start. cbn [counter tasks rejection].
  split; [| split; [| split]].
  - unfold sent_count. induction gainers as [| g gs IH]; [reflexivity |].
    cbn. exact IH.
  - intros i msg Hi. apply list_lookup_fmap_Some in Hi as (g & ? & ?). discriminate.
  - intros i d Hi. apply list_lookup_fmap_Some in Hi as (g & ? & ?). discriminate.
  - intros i d Hi. apply list_lookup_fmap_Some in Hi as (g & ? & ?). discriminate.
Qed.

(** *** The handler's outcomes *)

Lemma GET_outcome (w : World) (schedule : list nat) (σ : Session) :
  outcome_of_GET w schedule σ (GET w schedule σ).
Proof.
  unfold GET.
  destruct (getTopGainers w MIN_PUMP_PERCENT) as [gainers | message] eqn:Hg;
    cbn [mbind outcome_bind]; [| idtac ].
  2: { exact (gainers_threw w schedule σ message Hg). }
  destruct (getNiftyChangePercent w) as [nifty | message] eqn:Hn;
    cbn [mbind outcome_bind mret outcome_ret]; [| exact (benchmark_threw w schedule σ gainers message Hg Hn)].
  destruct gainers as [| g gainers]; cbn [length Nat.eqb].
  - exact (no_gainers w schedule σ nifty Hg Hn).
  - cbv zeta.
    destruct (rejection (enrich_all w nifty schedule (g :: gainers) σ)) eqn:Hr.
    + refine (task_rejected w schedule σ (g :: gainers) nifty _ Hg Hn _ Hr). discriminate.
    + refine (all_fulfilled w schedule σ (g :: gainers) nifty Hg Hn _ Hr). discriminate.
Qed.

Lemma enrich_all_accounted w nifty schedule gainers σ :
  accounted (enrich_all w nifty schedule gainers σ).
Proof.
  unfold enrich_all.
  apply settle_invariant; [intros; eapply step_accounted; eassumption |].
  apply run_invariant; [intros; eapply step_accounted; eassumption |].
  apply start_accounted.
Qed.

Lemma enrich_all_length w nifty schedule gainers σ :
  length (tasks (enrich_all w nifty schedule gainers σ)) = length gainers.
Proof.
  unfold enrich_all, settle. rewrite !run_length. unfold start. cbn.
  apply length_fmap.
Qed.

Lemma enrich_all_fulfilled w nifty schedule gainers σ i t :
  rejection (enrich_all w nifty schedule gainers σ) = None ->
  tasks (enrich_all w nifty schedule gainers σ) !! i = Some t ->
  exists d, t = Fulfilled d.
Proof.
  intros Hr Hi.
  destruct (settled_task _ _ _ _ _ Hi) as [Hd | [msg ->]]; [exact Hd |].
  destruct (enrich_all_accounted w nifty schedule gainers σ) as (_ & Hrej & _).
  apply Hrej in Hi. rewrite Hr in Hi. destruct Hi as [? ?]. discriminate.
Qed.

Lemma length_omap_fulfilled (ts : list Task) :
  (forall i t, ts !! i = Some t -> exists d, t = Fulfilled d) ->
  length (omap fulfilled ts) = length ts.
Proof.
  induction ts as [| t ts IH]; intros H; [reflexivity |].
  destruct (H 0%nat t eq_refl) as [d ->]. cbn. f_equal.
  apply IH. intros i t' Hi. apply (H (S i)). exact Hi.
Qed.

Lemma alerts_in_fulfilled (ts : list Task) :
  alerts_in (omap fulfilled ts) = sent_count ts.
Proof.
  unfold alerts_in, sent_count.
  induction ts as [| t ts IH]; [reflexivity |].
  destruct t; cbn; rewrite <- IH; reflexivity.
Qed.

(** C10.  In every successful report the count [alertsSent] is the
    number of stocks marked [alertSent], every stock marked
    [alertSent] has the status [alert], and [totalScanned] is the
    length of the stock list. *)
Theorem report_counts (w : World) (schedule : list nat) (σ : Session) :
  let r := fst (GET w schedule σ) in
  error r = None ->
  alertsSent r = alerts_in (stocks r)
  /\ (forall d, d ∈ stocks r -> alertSent d = true -> status d = alert)
  /\ totalScanned r = length (stocks r).
Proof.
  cbv zeta.
  destruct (GET_outcome w schedule σ)
    as [msg Hg | gainers msg Hg Hn | nifty Hg Hn
        | gainers nifty msg Hg Hn Hne Hr | gainers nifty Hg Hn Hne Hr];
    cbn [fst error errorResponse stocks alertsSent totalScanned];
    intros He; try discriminate He.
  - split; [reflexivity |]. split; [| reflexivity].
    intros d Hd. apply elem_of_nil in Hd. contradiction.
  - set (F := enrich_all w nifty schedule gainers σ) in *.
    pose proof (enrich_all_accounted w nifty schedule gainers σ)
      as (Hcount & _ & _ & Hdone). fold F in Hcount, Hdone.
    split; [| split].
    + unfold alerts_in. rewrite sort_Permutation.
      fold (alerts_in (enriched F)). unfold enriched.
      now rewrite alerts_in_fulfilled.
    + intros d Hd Ha. rewrite sort_Permutation in Hd.
      apply list_elem_of_omap in Hd as (t & Ht & Hf).
      destruct t; try discriminate Hf. injection Hf as ->.
      apply list_elem_of_lookup in Ht as [i Hi]. eapply Hdone; eassumption.
    + rewrite sort_Permutation. unfold enriched.
      rewrite length_omap_fulfilled.
      * symmetry. apply enrich_all_length.
      * intros i t. now apply enrich_all_fulfilled.
Qed.

Lemma report_counts_witness :
  alertsSent (fst (GET one_mover [] start_of_process))
  = alerts_in (stocks (fst (GET one_mover [] start_of_process)))
  /\ totalScanned (fst (GET one_mover [] start_of_process))
     = length (stocks (fst (GET one_mover [] start_of_process))).
Proof.
  destruct (report_counts one_mover [] start_of_process) as (Hcount & _ & Hlen);
    [reflexivity |].
  split; [exact Hcount | exact Hlen].
Defined.

(** *** Rejections *)

Lemma step_on_movers w nifty gainers i s s' :
  on_movers w gainers s -> step w nifty i s s' -> on_movers w gainers s'.
Proof.
  intros Hon Hstep.
  destruct Hstep as
    [Hl Hd | stock msg Hi Hlk | stock lk Hi Hlk Hs | stock lk Hi Hlk Hs Hin
     | stock lk Hi Hlk Hs Hin | d msg Hi Hsd | d Hi Hsd | d Hi Hsd];
    [exact Hon | ..];
    intros k t Hk; cbn [tasks settle_task reject_task] in Hk;
    apply list_lookup_insert_Some in Hk as [(-> & <- & _) | (_ & Hk)];
    try (apply Hon; exact Hk);
    destruct (Hon _ _ Hi) as [Hg Hlook]; cbn [task_stock] in Hg |- *;
    (split; [ intros g [= <-]; apply Hg; reflexivity
            | intros d' [[= <-] | [= <-]]; cbn [enrich with_alertSent gainer];
              first [ eexists; eassumption | apply Hlook; auto ] ]).
Qed.

Lemma start_on_movers w gainers σ : on_movers w gainers (start gainers σ).
Proof.
  intros i t Hi. cbn in Hi. apply list_lookup_fmap_Some in Hi as (g & -> & Hg).
  split.
  - intros g' [= <-]. exact Hg.
  - intros d [H | H]; discriminate H.
Qed.

Lemma enrich_all_on_movers w nifty schedule gainers σ :
  on_movers w gainers (enrich_all w nifty schedule gainers σ).
Proof.
  unfold enrich_all.
  apply settle_invariant; [intros; eapply step_on_movers; eassumption |].
  apply run_invariant; [intros; eapply step_on_movers; eassumption |].
  apply start_on_movers.
Qed.

(** A mover whose lookups reject makes the scan reject. *)
Lemma lookups_throw_rejects w nifty schedule gainers σ stock message :
  stock ∈ gainers -> lookups w stock = Throws message ->
  is_Some (rejection (enrich_all w nifty schedule gainers σ)).
Proof.
  intros Hin Hthrow. apply list_elem_of_lookup in Hin as [i Hi].
  set (F := enrich_all w nifty schedule gainers σ).
  assert (Hlt : (i < length (tasks F))%nat).
  { unfold F. rewrite enrich_all_length. eapply lookup_lt_Some, Hi. }
  apply lookup_lt_is_Some in Hlt as [t Ht].
  destruct (settled_task _ _ _ _ _ Ht) as [[d ->] | [msg ->]].
  - destruct (enrich_all_on_movers w nifty schedule gainers σ _ _ Ht) as [Hg Hlook].
    destruct (Hlook d (or_intror eq_refl)) as [lk Hlk].
    specialize (Hg (gainer d) eq_refl). congruence.
  - destruct (enrich_all_accounted w nifty schedule gainers σ) as (_ & Hrej & _).
    eapply Hrej. exact Ht.
Qed.

Lemma step_throws_noted w nifty σ i s s' :
  throws_noted σ s -> step w nifty i s s' -> throws_noted σ s'.
Proof.
  intros Hn Hstep. pose proof Hn as (new & Hnew & Hthrew).
  destruct Hstep as
    [Hl Hd | stock msg Hi Hlk | stock lk Hi Hlk Hs | stock lk Hi Hlk Hs Hin
     | stock lk Hi Hlk Hs Hin | d msg Hi Hsd | d Hi Hsd | d Hi Hsd];
    [exact Hn | ..]; unfold throws_noted;
    cbn [session rejection settle_task reject_task record_event add_alerted transport].
  - exists new. split; [exact Hnew |]. intros t Ht. destruct (rejection s); eexists; reflexivity.
  - exists new. split; [exact Hnew |]. exact Hthrew.
  - exists new. split; [exact Hnew |]. exact Hthrew.
  - eexists (new ++ [_]). split; [rewrite Hnew, app_assoc; reflexivity |].
    intros t Ht. apply elem_of_app in Ht as [Ht | Ht]; [now apply (Hthrew t) |].
    apply list_elem_of_singleton in Ht. discriminate.
  - eexists (new ++ [_]). split; [rewrite Hnew, app_assoc; reflexivity |].
    intros t Ht. destruct (rejection s); eexists; reflexivity.
  - eexists (new ++ [_]). split; [rewrite Hnew, app_assoc; reflexivity |].
    intros t Ht. apply elem_of_app in Ht as [Ht | Ht]; [now apply (Hthrew t) |].
    apply list_elem_of_singleton in Ht. discriminate.
  - eexists (new ++ [_]). split; [rewrite Hnew, app_assoc; reflexivity |].
    intros t Ht. apply elem_of_app in Ht as [Ht | Ht]; [now apply (Hthrew t) |].
    apply list_elem_of_singleton in Ht. discriminate.
Qed.

Lemma enrich_all_throws_noted w nifty schedule gainers σ :
  throws_noted σ (enrich_all w nifty schedule gainers σ).
Proof.
  unfold enrich_all.
  apply settle_invariant; [intros; eapply step_throws_noted; eassumption |].
  apply run_invariant; [intros; eapply step_throws_noted; eassumption |].
  exists []. split; [cbn; now rewrite app_nil_r |].
  intros t Ht. apply elem_of_nil in Ht. contradiction.
Qed.

(** C7.  [GET] always returns a report.  A report that carries an
    error has an empty stock list, zero [totalScanned], zero
    [alertsSent] and a zero benchmark.  That is the report returned
    when fetching the movers throws (with its message), when fetching
    the benchmark throws (with its message), when the lookups of any
    mover throw, and when a send throws. *)
Theorem failure_reported (w : World) (schedule : list nat) (σ : Session) :
  let r := fst (GET w schedule σ) in
  let σ' := snd (GET w schedule σ) in
  (forall message, error r = Some message ->
     stocks r = [] /\ totalScanned r = 0%nat /\ alertsSent r = 0%nat
     /\ niftyChangePercent r = 0%Q /\ scannedAt r = now w)
  /\ (forall message,
        getTopGainers w MIN_PUMP_PERCENT = Throws message ->
        error r = Some message)
  /\ (forall gainers message,
        getTopGainers w MIN_PUMP_PERCENT = Returns gainers ->
        getNiftyChangePercent w = Throws message ->
        error r = Some message)
  /\ (forall gainers nifty stock message,
        getTopGainers w MIN_PUMP_PERCENT = Returns gainers ->
        getNiftyChangePercent w = Returns nifty ->
        stock ∈ gainers -> lookups w stock = Throws message ->
        is_Some (error r))
  /\ (exists new, transport σ' = transport σ ++ new
                  /\ forall t, SendThrew t ∈ new -> is_Some (error r)).
Proof.
  cbv zeta.
  destruct (GET_outcome w schedule σ)
    as [msg Hg | gainers msg Hg Hn | nifty Hg Hn
        | gainers nifty msg Hg Hn Hne Hr | gainers nifty Hg Hn Hne Hr];
    cbn [fst snd error errorResponse stocks alertsSent totalScanned
         niftyChangePercent scannedAt].
  - split; [intros; repeat split |]. split; [intros; congruence |].
    split; [intros; congruence |]. split; [intros; congruence |].
    exists []. split; [now rewrite app_nil_r |]. eauto.
  - split; [intros; repeat split |]. split; [intros; congruence |].
    split; [intros; congruence |]. split; [intros; congruence |].
    exists []. split; [now rewrite app_nil_r |]. eauto.
  - split; [intros; discriminate |]. split; [intros; congruence |].
    split; [intros; congruence |]. split.
    + intros gainers n stock m Hg' _ Hin. exfalso.
      assert (gainers = []) by congruence. subst gainers.
      apply elem_of_nil in Hin. contradiction.
    + exists []. split; [now rewrite app_nil_r |].
      intros t Ht. apply elem_of_nil in Ht. contradiction.
  - split; [intros; repeat split |]. split; [intros; congruence |].
    split; [intros; congruence |]. split; [eauto |].
    destruct (enrich_all_throws_noted w nifty schedule gainers σ) as (new & Hnew & _).
    exists new. split; [exact Hnew | eauto].
  - split; [intros; discriminate |]. split; [intros; congruence |].
    split; [intros; congruence |]. split.
    + intros gainers' nifty' stock m Hg' Hn' Hin Hthrow. exfalso.
      assert (gainers' = gainers) by congruence. assert (nifty' = nifty) by congruence.
      subst gainers' nifty'.
      pose proof (lookups_throw_rejects w nifty schedule gainers σ stock m Hin Hthrow)
        as [x Hx]. congruence.
    + destruct (enrich_all_throws_noted w nifty schedule gainers σ)
        as (new & Hnew & Hthrew).
      exists new. split; [exact Hnew |]. intros t Ht. exfalso.
      destruct (Hthrew t Ht) as [x Hx]. congruence.
Qed.

Lemma failure_reported_witness :
  error (fst (GET no_quotes [] start_of_process)) = Some "fetch failed"%string
  /\ stocks (fst (GET no_quotes [] start_of_process)) = []
  /\ totalScanned (fst (GET no_quotes [] start_of_process)) = 0%nat
  /\ alertsSent (fst (GET no_quotes [] start_of_process)) = 0%nat
  /\ niftyChangePercent (fst (GET no_quotes [] start_of_process)) = 0%Q.
Proof.
  destruct (failure_reported no_quotes [] start_of_process)
    as (Hshape & Hgainers & _).
  pose proof (Hgainers "fetch failed"%string eq_refl) as Herr.
  destruct (Hshape _ Herr) as (Hs & Ht & Ha & Hn & _).
  repeat split; assumption.
Defined.

(** C6.  In every successful report each stock and its successor are
    in order: the first has the higher status priority (a smaller
    [statusPriority]), or both have the same status and the silence
    score of the first is at least that of the second.  Stocks of
    status watch, alert, filtered come out as alert, watch, filtered
    whatever their scores, and of two alerts with scores 2 and 5 the
    one with 5 comes first. *)
Theorem report_sorted :
  (forall (w : World) (schedule : list nat) (σ : Session),
     let r := fst (GET w schedule σ) in
     error r = None ->
     forall i a b, stocks r !! i = Some a -> stocks r !! S i = Some b ->
                   precedes a b)
  /\ (forall x y z : Q,
        status <$> sort compare [a_stock watch x; a_stock alert y; a_stock filtered z]
        = [alert; watch; filtered])
  /\ silenceScore <$> sort compare [a_stock alert 2; a_stock alert 5] = [5%Q; 2%Q]
  /\ silenceScore <$> sort compare [a_stock alert 5; a_stock alert 2] = [5%Q; 2%Q].
Proof.
  split; [| split; [| split]]; [| intros x y z; reflexivity | reflexivity | reflexivity].
  intros w schedule σ. cbv zeta.
  destruct (GET_outcome w schedule σ)
    as [msg Hg | gainers msg Hg Hn | nifty Hg Hn
        | gainers nifty msg Hg Hn Hne Hr | gainers nifty Hg Hn Hne Hr];
    cbn [fst error errorResponse stocks]; intros He i a b Ha Hb;
    try discriminate He; try discriminate Ha.
  eapply Sorted_adjacent; [apply sort_Sorted | exact Ha | exact Hb].
Qed.

Lemma report_sorted_witness :
  exists a b,
    stocks (fst (GET two_movers [] start_of_process)) !! 0%nat = Some a
    /\ stocks (fst (GET two_movers [] start_of_process)) !! 1%nat = Some b
    /\ symbol (gainer a) = "TCS.NS"%string /\ status a = alert
    /\ symbol (gainer b) = "INFY.NS"%string /\ status b = watch
    /\ precedes a b.
Proof.
  destruct report_sorted as [Hsorted _].
  eexists _, _.
  split; [vm_compute; reflexivity |]. split; [vm_compute; reflexivity |].
  split; [reflexivity |]. split; [reflexivity |].
  split; [reflexivity |]. split; [reflexivity |].
  apply (Hsorted two_movers [] start_of_process eq_refl 0%nat);
    vm_compute; reflexivity.
Defined.

(** *** The set of alerted tickers *)







(** *** One alert per ticker *)



Section DistinctTickers.

Variables (w : World) (nifty : Q) (gainers : list GainerStock).
Hypothesis distinct : NoDup (ticker <$> gainers).






End DistinctTickers.

(** *** A ticker that is already in the set *)



(** *** From steps to scans and to the process *)
















End ScanFacts.

(** ** Tickers and symbols *)

Module SymbolFacts.

Lemma length_append (a b : string) :
  String.length (a +:+ b) = (String.length a + String.length b)%nat.
Proof. induction a as [| c a IH]; simpl; [reflexivity | now f_equal]. Qed.

Lemma longer_not_suffix (c : ascii) (s suffix : string) :
  String.length suffix = 3%nat ->
  String.eqb (String c (s +:+ suffix)) ".NS" || String.eqb (String c (s +:+ suffix)) ".BO"
  = false.
Proof.
  intros Hlen. apply orb_false_intro; apply String.eqb_neq; intros H;
    apply (f_equal String.length) in H; cbn in H; rewrite length_append in H; lia.
Qed.

Lemma tickerFromSymbol_strips (s suffix : string) :
  suffix = ".NS"%string \/ suffix = ".BO"%string ->
  tickerFromSymbol (s +:+ suffix) = s.
Proof.
  intros Hs. induction s as [| c s IH].
  - destruct Hs as [-> | ->]; reflexivity.
  - change (String c s +:+ suffix) with (String c (s +:+ suffix)).
    cbn [tickerFromSymbol]. rewrite longer_not_suffix, IH; [reflexivity |].
    destruct Hs as [-> | ->]; reflexivity.
Qed.

Lemma tickerFromSymbol_keeps (s : string) :
  (forall p, s <> p +:+ ".NS") -> (forall p, s <> p +:+ ".BO") ->
  tickerFromSymbol s = s.
Proof.
  induction s as [| c s IH]; intros Hns Hbo; [reflexivity |].
  cbn [tickerFromSymbol].
  destruct (String.eqb_spec (String c s) ".NS") as [E | _].
  { exfalso. apply (Hns ""%string). exact E. }
  destruct (String.eqb_spec (String c s) ".BO") as [E | _].
  { exfalso. apply (Hbo ""%string). exact E. }
  cbn [orb]. f_equal. apply IH.
  - intros p ->. apply (Hns (String c p)). reflexivity.
  - intros p ->. apply (Hbo (String c p)). reflexivity.
Qed.

(** X1.  [tickerFromSymbol] removes one trailing [.NS] or [.BO], so
    that the NSE and the BSE symbol of a company give the same ticker,
    and returns every other symbol as it is. *)
Theorem tickerFromSymbol_suffix :
  (forall s : string,
     tickerFromSymbol (s +:+ ".NS") = s /\ tickerFromSymbol (s +:+ ".BO") = s)
  /\ (forall s : string,
        (forall p, s <> p +:+ ".NS") -> (forall p, s <> p +:+ ".BO") ->
        tickerFromSymbol s = s).
Proof.
  split.
  - intros s. split; apply tickerFromSymbol_strips; auto.
  - apply tickerFromSymbol_keeps.
Qed.

Lemma tickerFromSymbol_suffix_witness :
  tickerFromSymbol "^NSEI" = "^NSEI"%string.
Proof.
  apply (proj2 tickerFromSymbol_suffix).
  - intros p H.
    assert (Hl := f_equal String.length H). rewrite length_append in Hl. cbn in Hl.
    destruct p as [| a [| b [| ? ?]]]; cbn in Hl; try lia; discriminate H.
  - intros p H.
    assert (Hl := f_equal String.length H). rewrite length_append in Hl. cbn in Hl.
    destruct p as [| a [| b [| ? ?]]]; cbn in Hl; try lia; discriminate H.
Defined.

End SymbolFacts.

(** ** Rounding to hundredths *)

Module RoundFacts.
Import NumFacts.




Lemma Math_round_proper (x y : Q) : x == y -> Math_round x = Math_round y.
Proof.
  intros H. apply Z.le_antisymm; apply Math_round_le; rewrite H; apply Qle_refl.
Qed.




End RoundFacts.

(** ** The pivot calculator at its edges *)

Module PivotEdgeFacts.
Import Pivots NumFacts PivotFacts.

Lemma falsy_false (x : option Q) :
  falsy x = false <-> exists q, x = Some q /\ ~ q == 0.
Proof.
  destruct x as [q |]; cbn.
  - split.
    + intros H. exists q. split; [reflexivity |]. intros E.
      apply Qeq_bool_iff in E. congruence.
    + intros (q' & [= <-] & Hq). destruct (Qeq_bool q 0) eqn:E; [| reflexivity].
      apply Qeq_bool_iff in E. contradiction.
  - split; [discriminate | intros (q & H & _); discriminate H].
Qed.

(** X3.  [getPivotData] gives a result exactly when the chart has at
    least two candles and the high, the low and the close of the
    candle before the last are there and not zero; a chart that
    cannot be fetched, has no quotes or has a single candle, and a
    missing or zero price, all give [null]. *)
Theorem getPivotData_available (chart : string -> outcome (option (list Bar)))
    (symbol : string) (currentPrice : Q) :
  is_Some (getPivotData chart symbol currentPrice) <->
  exists quotes prevDay h l c,
    chart symbol = Returns (Some quotes)
    /\ (2 <= length quotes)%nat
    /\ quotes !! (length quotes - 2)%nat = Some prevDay
    /\ high prevDay = Some h /\ low prevDay = Some l /\ close prevDay = Some c
    /\ ~ h == 0 /\ ~ l == 0 /\ ~ c == 0.
Proof.
  split.
  - unfold getPivotData. intros [pd H].
    destruct (chart symbol) as [[quotes |] | msg]; try discriminate H.
    destruct (length quotes <? 2)%nat eqn:Hlen; [discriminate H |].
    apply Nat.ltb_ge in Hlen.
    destruct (quotes !! (length quotes - 2)%nat) as [prevDay |] eqn:Hprev;
      [| discriminate H].
    destruct (falsy (high prevDay)) eqn:Hh; [discriminate H |].
    destruct (falsy (low prevDay)) eqn:Hl; [discriminate H |].
    destruct (falsy (close prevDay)) eqn:Hc; [discriminate H |].
    apply falsy_false in Hh as (h & Hh & Hh0), Hl as (l & Hl & Hl0),
      Hc as (c & Hc & Hc0).
    exists quotes, prevDay, h, l, c. repeat split; assumption.
  - intros (quotes & prevDay & h & l & c & Hq & Hlen & Hprev & Hh & Hl & Hc & ? & ? & ?).
    rewrite (getPivotData_complete chart symbol currentPrice quotes prevDay h l c);
      try assumption. eexists; reflexivity.
Qed.









End PivotEdgeFacts.

(** ** What the mention adapters return *)

Module MentionShapeFacts.
Import RegExp Mentions MentionFacts.

Lemma length_substring_le (n : nat) (s : string) :
  (String.length (substring 0 n s) <= n)%nat.
Proof.
  revert s. induction n as [| n IH]; intros [| c s]; cbn; try lia.
  specialize (IH s). lia.
Qed.

Lemma filter_sublist {A : Type} (p : A -> bool) (l : list A) :
  List.filter p l `sublist_of` l.
Proof.
  induction l as [| x l IH]; cbn; [constructor |].
  destruct (p x); [now apply sublist_skip | now apply sublist_cons].
Qed.

Section Shapes.

Variable toISOString : Z -> string.

(** X6.  [searchRedditMentions] returns for every ticker, whatever
    characters it is made of.  What it returns are mentions made from
    the posts, at most one for each and in their order; each has the
    platform [reddit], a title of at most 200 characters and a link
    on [https://www.reddit.com]. *)
Theorem reddit_mentions_shape (posts : list RedditPost) (ticker : string) :
  exists found,
    searchRedditMentions toISOString posts ticker = Returns found
    /\ found `sublist_of` (redditMention toISOString <$> posts)
    /\ Forall (fun m => platform m = reddit
                        /\ (String.length (title m) <= 200)%nat
                        /\ exists path, url m = "https://www.reddit.com" +:+ path)
         found.
Proof.
  unfold searchRedditMentions. rewrite tickerPattern_returns.
  eexists. split; [reflexivity |].
  rewrite redditLoop_filter by reflexivity. split.
  - apply fmap_sublist, filter_sublist.
  - apply Forall_forall. intros m Hm.
    apply list_elem_of_fmap in Hm as (post & -> & _).
    cbn [redditMention platform title url]. split; [reflexivity |].
    split; [apply length_substring_le | eexists; reflexivity].
Qed.

Lemma postUrl_shape (msg : TelegramMessage) :
  postUrl msg = ""%string \/ exists path, postUrl msg = "https://t.me/" +:+ path.
Proof.
  unfold postUrl. destruct (chat msg) as [c |]; [| now left].
  destruct (truthy (chat_username c)) as [u |]; [right; eexists; reflexivity |].
  destruct (chat_id c =? 0)%Z; [now left |].
  right. exists ("c/" +:+ channelId (chat_id c) +:+ "/" +:+ String_of_Z (message_id msg)).
  reflexivity.
Qed.

Lemma length_with_text (updates : list TelegramUpdate) :
  (length (with_text updates) <= length updates)%nat.
Proof.
  unfold with_text. induction updates as [| u updates IH]; cbn; [lia |].
  destruct (_ ≫= _); cbn; lia.
Qed.

Lemma length_filter_le {A : Type} (p : A -> bool) (l : list A) :
  (length (List.filter p l) <= length l)%nat.
Proof. induction l as [| x l IH]; cbn; [lia |]. destruct (p x); cbn; lia. Qed.

(** X7.  The mentions [searchTelegramMentions] returns have the platform
    [telegram], a title of at most 200 characters, a timestamp, and a
    link that is empty or on [https://t.me/]; there are at most as
    many as updates.  There is none when the token is missing, empty
    or the placeholder, when the request fails or is not ok, and when
    the body says it is not ok. *)
Theorem telegram_mentions_shape (botToken : option string)
    (response : outcome (option TelegramGetUpdatesResponse)) (ticker : string) :
  let found := searchTelegramMentions toISOString botToken response ticker in
  Forall (fun m => platform m = telegram
                   /\ (String.length (title m) <= 200)%nat
                   /\ is_Some (timestamp m)
                   /\ (url m = ""%string
                       \/ exists path, url m = "https://t.me/" +:+ path))
    found
  /\ (forall json, response = Returns (Some json) ->
                   (length found <= length (result json))%nat
                   /\ (ok json = false -> found = []))
  /\ ((forall json, response <> Returns (Some json)) -> found = [])
  /\ (truthy botToken = None
      \/ botToken = Some "your_telegram_bot_token_here"%string -> found = []).
Proof.
  cbv zeta.
  assert (Hloop : forall updates,
    let found := telegramLoop toISOString
      {| source := Seq before_ticker
                     (Seq (literal (list_ascii_of_string ticker)) after_ticker);
         global := true; ignoreCase := true; lastIndex := 0 |} updates in
    Forall (fun m => platform m = telegram
                   /\ (String.length (title m) <= 200)%nat
                   /\ is_Some (timestamp m)
                   /\ (url m = ""%string
                       \/ exists path, url m = "https://t.me/" +:+ path)) found
    /\ (length found <= length updates)%nat).
  { intros updates. cbv zeta. rewrite telegramLoop_filter by reflexivity. split.
    - apply Forall_forall. intros m Hm.
      apply list_elem_of_fmap in Hm as ([msg body] & -> & _).
      cbn [telegramMention platform title url timestamp].
      split; [reflexivity |]. split; [apply length_substring_le |].
      split; [eexists; reflexivity | apply postUrl_shape].
    - rewrite length_map.
      etransitivity; [apply length_filter_le | apply length_with_text]. }
  unfold searchTelegramMentions.
  destruct (truthy botToken) as [token |] eqn:Htoken.
  2: { split; [constructor |]. split; [intros; split; [cbn; lia | reflexivity] |].
       split; reflexivity. }
  destruct (String.eqb_spec token "your_telegram_bot_token_here") as [-> | Hne].
  { split; [constructor |]. split; [intros; split; [cbn; lia | reflexivity] |].
    split; reflexivity. }
  assert (Hconf : truthy botToken = None
      \/ botToken = Some "your_telegram_bot_token_here"%string -> False).
  { intros [H | ->]; [congruence |]. cbn in Htoken. congruence. }
  destruct response as [[json |] | msg].
  - rewrite tickerPattern_returns. destruct (ok json) eqn:Hok; cbn [negb].
    + destruct (Hloop (result json)) as [Hall Hlen].
      split; [exact Hall |]. split.
      * intros json' [= <-]. split; [exact Hlen | congruence].
      * split; [intros H; exfalso; eapply H; reflexivity |].
        intros [H | H]; [discriminate H |]. exfalso. apply Hconf. now right.
    + split; [constructor |]. split; [intros; split; [cbn; lia | reflexivity] |].
      split; reflexivity.
  - split; [constructor |]. split; [intros; split; [cbn; lia | reflexivity] |].
    split; reflexivity.
  - split; [constructor |]. split; [intros; split; [cbn; lia | reflexivity] |].
    split; reflexivity.
Qed.

End Shapes.

Lemma telegram_mentions_shape_witness :
  searchTelegramMentions (fun _ => "2026-01-01T09:30:00.000Z"%string)
    (Some "123456:token"%string)
    (Returns (Some {| ok := false;
                      result := [ {| update_id := 1;
                                     channel_post :=
                                       Some {| message_id := 7;
                                               text := Some "Buy #tcs, now"%string;
                                               date := 1767259800;
                                               chat := None;
                                               from := None |};
                                     message := None |} ] |}))
    "TCS"
  = [].
Proof.
  refine (proj2 (proj1 (proj2 (telegram_mentions_shape _ _ _ _)) _ eq_refl) _).
  reflexivity.
Defined.

End MentionShapeFacts.

(** ** The report and the session after a scan *)

Module ReportFacts.
Import Route CRITERIA Scans ScanFacts.

Lemma step_staged w nifty gainers i s s' :
  staged w nifty gainers s -> step w nifty i s s' -> staged w nifty gainers s'.
Proof.
  intros Hst Hstep.
  destruct Hstep as
    [Hl Hd | stock msg Hi Hlk | stock lk Hi Hlk Hs | stock lk Hi Hlk Hs Hin
     | stock lk Hi Hlk Hs Hin | d msg Hi Hsd | d Hi Hsd | d Hi Hsd];
    [exact Hst | ..];
    intros k t Hk; cbn [tasks settle_task reject_task] in Hk;
    apply list_lookup_insert_Some in Hk as [(-> & <- & _) | (_ & Hk)];
    try (apply Hst; exact Hk);
    destruct (Hst _ _ Hi) as (g & Hg & Hstage); cbn [stage] in Hstage;
    exists g; (split; [exact Hg |]); cbn [stage]; try exact I.
  - subst stock. exists lk. auto.
  - subst stock. exists lk. auto.
  - subst stock. exists lk. auto.
  - destruct Hstage as (lk & Hlk & -> & Hs). exists lk. auto.
  - destruct Hstage as (lk & Hlk & -> & Hs). exists lk. auto.
Qed.

Lemma start_staged w nifty gainers σ : staged w nifty gainers (start gainers σ).
Proof.
  intros i t Hi. cbn in Hi. apply list_lookup_fmap_Some in Hi as (g & -> & Hg).
  exists g. split; [exact Hg | reflexivity].
Qed.

Lemma enrich_all_staged w nifty schedule gainers σ :
  staged w nifty gainers (enrich_all w nifty schedule gainers σ).
Proof.
  unfold enrich_all.
  apply settle_invariant; [intros; eapply step_staged; eassumption |].
  apply run_invariant; [intros; eapply step_staged; eassumption |].
  apply start_staged.
Qed.

(** The array [enriched] of a scan without rejection: one stock per
    mover, in the order of the movers. *)
Lemma enriched_screened w nifty schedule gainers σ :
  rejection (enrich_all w nifty schedule gainers σ) = None ->
  Forall2 (screened w nifty) gainers
    (enriched (enrich_all w nifty schedule gainers σ)).
Proof.
  intros Hr. unfold enriched.
  pose proof (enrich_all_staged w nifty schedule gainers σ) as Hst.
  pose proof (enrich_all_length w nifty schedule gainers σ) as Hlen.
  pose proof (fun i t => enrich_all_fulfilled w nifty schedule gainers σ i t Hr) as Hful.
  clear Hr. unfold staged in Hst. revert Hst Hlen Hful.
  generalize (tasks (enrich_all w nifty schedule gainers σ)).
  intros ts. revert gainers. induction ts as [| t ts IH]; intros gainers Hst Hlen Hful.
  - destruct gainers; [constructor | discriminate Hlen].
  - destruct gainers as [| g gainers]; [discriminate Hlen |].
    destruct (Hful 0%nat t eq_refl) as [d ->]. cbn [omap fulfilled].
    constructor.
    + destruct (Hst 0%nat _ eq_refl) as (g' & [= <-] & Hstage). exact Hstage.
    + apply IH.
      * intros i t Hi. apply (Hst (S i) t Hi).
      * cbn in Hlen. lia.
      * intros i t Hi. apply (Hful (S i) t Hi).
Qed.


(** X8.  A report without error has one stock for each mover, in some
    order: the record computed from the mover's lookups and from the
    benchmark, marked [alertSent] or not.  No mover is dropped and
    none is reported twice. *)
Theorem report_covers_movers (w : World) (schedule : list nat) (σ : Session)
    (gainers : list GainerStock) (nifty : Q) :
  getTopGainers w MIN_PUMP_PERCENT = Returns gainers ->
  getNiftyChangePercent w = Returns nifty ->
  let r := fst (GET w schedule σ) in
  error r = None ->
  niftyChangePercent r = nifty
  /\ exists ds, Forall2 (screened w nifty) gainers ds /\ stocks r ≡ₚ ds.
Proof.
  intros Hgainers Hnifty. cbv zeta.
  destruct (GET_outcome w schedule σ)
    as [msg Hg | gainers' msg Hg Hn | nifty' Hg Hn
        | gainers' nifty' msg Hg Hn Hne Hr | gainers' nifty' Hg Hn Hne Hr];
    cbn [fst error errorResponse stocks niftyChangePercent]; intros He;
    try discriminate He; try congruence.
  - assert (gainers = []) by congruence. assert (nifty' = nifty) by congruence.
    subst. split; [reflexivity |]. exists []. split; constructor.
  - assert (gainers' = gainers) by congruence. assert (nifty' = nifty) by congruence.
    subst. split; [reflexivity |]. eexists. split.
    + apply enriched_screened. exact Hr.
    + apply sort_Permutation.
Qed.

Lemma report_covers_movers_witness :
  niftyChangePercent (fst (GET two_movers [] start_of_process)) = 3
  /\ exists ds,
       Forall2 (screened two_movers 3) [a_mover "INFY.NS"; a_mover "TCS.NS"] ds
       /\ stocks (fst (GET two_movers [] start_of_process)) ≡ₚ ds.
Proof.
  apply (report_covers_movers two_movers [] start_of_process
           [a_mover "INFY.NS"; a_mover "TCS.NS"] 3);
    [reflexivity | reflexivity | vm_compute; reflexivity].
Defined.

Lemma report_row (w : World) (schedule : list nat) (σ : Session) (d : StockData) :
  error (fst (GET w schedule σ)) = None ->
  d ∈ stocks (fst (GET w schedule σ)) ->
  exists g, screened w (niftyChangePercent (fst (GET w schedule σ))) g d.
Proof.
  destruct (GET_outcome w schedule σ)
    as [msg Hg | gainers' msg Hg Hn | nifty' Hg Hn
        | gainers' nifty' msg Hg Hn Hne Hr | gainers' nifty' Hg Hn Hne Hr];
    cbn [fst error errorResponse stocks niftyChangePercent]; intros He Hd;
    try discriminate He; try (apply elem_of_nil in Hd; contradiction).
  rewrite sort_Permutation in Hd.
  pose proof (enriched_screened w nifty' schedule gainers' σ Hr) as Hall.
  apply list_elem_of_lookup in Hd as [i Hi].
  destruct (Forall2_lookup_r _ _ _ _ _ Hall Hi) as (g & _ & Hs).
  exists g. exact Hs.
Qed.

(** X9.  In a report without error every stock is consistent with
    itself: [totalMentions] is the sum of the three counts and the
    number of mentions listed, the silence score and the sector
    outperformance are those of its change and of the benchmark of the
    report, and the status is the one its own fields give. *)
Theorem report_rows_consistent (w : World) (schedule : list nat) (σ : Session)
    (d : StockData) :
  let r := fst (GET w schedule σ) in
  error r = None -> d ∈ stocks r ->
  totalMentions d = (twitterMentions d + redditMentions d + telegramMentions d)%nat
  /\ length (mentions d) = totalMentions d
  /\ silenceScore d = silenceScore_of (changePercent (gainer d)) (totalMentions d)
  /\ sectorOutperformance d
     = sectorOutperformance_of (changePercent (gainer d)) (niftyChangePercent r)
  /\ status d = classify (criteria (deliveryPercent d) (sd_nearR2 d)
                            (sectorOutperformance d) (totalMentions d)).
Proof.
  cbv zeta. intros He Hd.
  destruct (report_row w schedule σ d He Hd) as (g & lk & _ & [-> | ->]);
    cbn [enrich with_alertSent totalMentions twitterMentions redditMentions
         telegramMentions mentions silenceScore sectorOutperformance status
         deliveryPercent sd_nearR2 gainer];
    rewrite !length_app; repeat split; lia.
Qed.

Lemma report_rows_consistent_witness :
  exists d,
    stocks (fst (GET one_mover [] start_of_process)) = [d]
    /\ length (mentions d) = totalMentions d
    /\ silenceScore d = silenceScore_of (changePercent (gainer d)) (totalMentions d).
Proof.
  assert (H : exists d, stocks (fst (GET one_mover [] start_of_process)) = [d])
    by (eexists; vm_compute; reflexivity).
  destruct H as [d Hd]. exists d. split; [exact Hd |].
  destruct (report_rows_consistent one_mover [] start_of_process d)
    as (_ & Hlen & Hscore & _);
    [vm_compute; reflexivity | rewrite Hd; left | ].
  split; [exact Hlen | exact Hscore].
Defined.

Lemma classify_alert (c : Criteria) :
  classify c = alert ->
  passesDelivery c = true /\ passesR2 c = true
  /\ passesSector c = true /\ passesMentions c = true.
Proof.
  unfold classify.
  destruct (passesDelivery c), (passesR2 c), (passesSector c), (passesMentions c);
    cbn; intros H; try discriminate H; auto.
Qed.

(** X10.  In a report without error a stock with the status [alert] has
    no mention listed, a delivery percentage from 0 to below 30, so
    not the -1 of a failed lookup, [nearR2] set, so pivot data that
    were found, a sector outperformance of at least 2, and the rounded
    change as its silence score. *)
Theorem alert_rows (w : World) (schedule : list nat) (σ : Session)
    (d : StockData) :
  let r := fst (GET w schedule σ) in
  error r = None -> d ∈ stocks r -> status d = alert ->
  mentions d = [] /\ totalMentions d = 0%nat
  /\ 0 <= deliveryPercent d /\ deliveryPercent d < MAX_DELIVERY_PERCENT
  /\ sd_nearR2 d = true
  /\ MIN_SECTOR_OUTPERFORMANCE <= sectorOutperformance d
  /\ silenceScore d = round2 (changePercent (gainer d)).
Proof.
  cbv zeta. intros He Hd Hs.
  destruct (report_row w schedule σ d He Hd) as (g & lk & _ & H).
  assert (Hfields : exists e, e = enrich g (niftyChangePercent (fst (GET w schedule σ))) lk
            /\ mentions d = mentions e /\ totalMentions d = totalMentions e
            /\ deliveryPercent d = deliveryPercent e /\ sd_nearR2 d = sd_nearR2 e
            /\ sectorOutperformance d = sectorOutperformance e
            /\ silenceScore d = silenceScore e /\ status d = status e
            /\ gainer d = gainer e).
  { eexists. split; [reflexivity |]. destruct H as [-> | ->]; repeat split. }
  destruct Hfields as (e & -> & -> & -> & -> & -> & -> & -> & Hst & ->).
  rewrite Hst in Hs. clear Hst H.
  cbn [enrich status] in Hs. apply classify_alert in Hs as (Hdel & Hr2 & Hsec & Hmen).
  cbn [criteria passesDelivery passesR2 passesSector passesMentions] in *.
  cbn [enrich mentions totalMentions deliveryPercent sd_nearR2 sectorOutperformance
       silenceScore gainer].
  apply andb_prop in Hdel as [Hlo Hhi]. apply Qle_bool_iff in Hlo.
  unfold Qlt_bool in Hhi. apply negb_true_iff in Hhi.
  assert (Hlt : lk_deliveryPercent lk < MAX_DELIVERY_PERCENT).
  { apply Qnot_le_lt. intros Hle. apply Qle_bool_iff in Hle. congruence. }
  apply Qle_bool_iff in Hsec. apply Nat.leb_le in Hmen. unfold MAX_MENTIONS in Hmen.
  assert (Hzero : (length (twitterResults lk) + length (redditResults lk)
                   + length (telegramResults lk))%nat = 0%nat) by lia.
  assert (Htw : twitterResults lk = []) by (apply length_zero_iff_nil; lia).
  assert (Hrd : redditResults lk = []) by (apply length_zero_iff_nil; lia).
  assert (Htg : telegramResults lk = []) by (apply length_zero_iff_nil; lia).
  rewrite Htw, Hrd, Htg. cbn [app length Nat.add].
  repeat split; try assumption.
  unfold silenceScore_of, round2. f_equal. f_equal. apply RoundFacts.Math_round_proper.
  cbn. field.
Qed.


Lemma alert_rows_witness :
  exists d,
    stocks (fst (GET one_mover [] start_of_process)) = [d]
    /\ mentions d = [] /\ deliveryPercent d < MAX_DELIVERY_PERCENT
    /\ sd_nearR2 d = true.
Proof.
  assert (H : exists d, stocks (fst (GET one_mover [] start_of_process)) = [d]
                        /\ status d = alert)
    by (eexists; split; vm_compute; reflexivity).
  destruct H as (d & Hd & Hs). exists d. split; [exact Hd |].
  destruct (alert_rows one_mover [] start_of_process d)
    as (Hm & _ & _ & Hdel & Hnear & _);
    [vm_compute; reflexivity | rewrite Hd; left | exact Hs | ].
  split; [exact Hm |]. split; [exact Hdel | exact Hnear].
Defined.

(** *** The growth of the set *)

Lemma marked_insert_same (ts : list Task) (i : nat) (x y : Task) (t : string) :
  ts !! i = Some x -> sent x = false -> sent y = false ->
  (marked (<[ i := y ]> ts) t <-> marked ts t).
Proof.
  intros Hi Hx Hy. split; intros (k & d & Hk & Ha & Ht).
  - apply list_lookup_insert_Some in Hk as [(-> & -> & _) | (_ & Hk)].
    + cbn in Hy. congruence.
    + exists k, d. auto.
  - destruct (decide (k = i)) as [-> | Hne].
    + rewrite Hi in Hk. injection Hk as ->. cbn in Hx. congruence.
    + exists k, d. rewrite list_lookup_insert_ne by congruence. auto.
Qed.

Lemma marked_insert_sent (ts : list Task) (i : nat) (x : Task) (d : StockData)
    (t : string) :
  ts !! i = Some x -> sent x = false -> alertSent d = true ->
  (marked (<[ i := Fulfilled d ]> ts) t <-> marked ts t \/ ticker_of d = t).
Proof.
  intros Hi Hx Hd. split.
  - intros (k & d' & Hk & Ha & Ht).
    apply list_lookup_insert_Some in Hk as [(-> & [= <-] & _) | (_ & Hk)].
    + right. exact Ht.
    + left. exists k, d'. auto.
  - intros [(k & d' & Hk & Ha & Ht) | Ht].
    + destruct (decide (k = i)) as [-> | Hne].
      * rewrite Hi in Hk. injection Hk as ->. cbn in Hx. congruence.
      * exists k, d'. rewrite list_lookup_insert_ne by congruence. auto.
    + exists i, d. rewrite list_lookup_insert_eq by (eapply lookup_lt_Some, Hi). auto.
Qed.

Lemma step_grown w nifty σ i s s' :
  accounted s -> grown σ s -> step w nifty i s s' -> grown σ s'.
Proof.
  intros (_ & _ & Hsend & _) Hgr Hstep.
  destruct Hstep as
    [Hl Hd | stock msg Hi Hlk | stock lk Hi Hlk Hs | stock lk Hi Hlk Hs Hin
     | stock lk Hi Hlk Hs Hin | d msg Hi Hsd | d Hi Hsd | d Hi Hsd];
    [exact Hgr | ..]; intros t;
    cbn [session tasks settle_task reject_task record_event add_alerted
         _alertedTickers];
    try (rewrite (marked_insert_same _ _ _ _ _ Hi)
           by (try reflexivity; cbn [sent]; try apply (Hsend _ _ Hi));
         apply Hgr).
  rewrite (marked_insert_sent _ _ _ _ _ Hi) by reflexivity.
  rewrite elem_of_union, elem_of_singleton, (Hgr t).
  change (ticker_of (with_alertSent d)) with (ticker_of d).
  split; [intros [-> | [? | ?]] | intros [? | [? | ->]]]; auto.
Qed.

Lemma start_grown gainers σ : grown σ (start gainers σ).
Proof.
  intros t. cbn. split; [auto |]. intros [H | (i & d & Hi & _)]; [exact H |].
  apply list_lookup_fmap_Some in Hi as (g & ? & ?). discriminate.
Qed.

Lemma enrich_all_grown w nifty schedule gainers σ :
  grown σ (enrich_all w nifty schedule gainers σ).
Proof.
  assert (H : accounted (enrich_all w nifty schedule gainers σ)
              /\ grown σ (enrich_all w nifty schedule gainers σ)); [| apply H].
  unfold enrich_all.
  apply (settle_invariant w nifty (fun s => accounted s /\ grown σ s)).
  { intros i s s' [Ha Hg] Hstep. split;
      [eapply step_accounted | eapply step_grown]; eassumption. }
  apply (run_invariant w nifty (fun s => accounted s /\ grown σ s)).
  { intros i s s' [Ha Hg] Hstep. split;
      [eapply step_accounted | eapply step_grown]; eassumption. }
  split; [apply start_accounted | apply start_grown].
Qed.

Lemma marked_enriched (ts : list Task) (t : string) :
  marked ts t <->
  exists d, d ∈ omap fulfilled ts /\ alertSent d = true /\ ticker_of d = t.
Proof.
  split.
  - intros (i & d & Hi & Ha & Ht). exists d. split; [| auto].
    apply list_elem_of_omap. exists (Fulfilled d). split; [| reflexivity].
    eapply list_elem_of_lookup_2, Hi.
  - intros (d & Hd & Ha & Ht). apply list_elem_of_omap in Hd as (x & Hx & Hf).
    destruct x; try discriminate Hf. injection Hf as ->.
    apply list_elem_of_lookup in Hx as [i Hi]. exists i, d. auto.
Qed.

(** X11.  After a scan that ends without error the set
    [_alertedTickers] holds the tickers it held before and the tickers
    of the stocks the report marks [alertSent], and no other. *)
Theorem alerted_after_scan (w : World) (schedule : list nat) (σ : Session) :
  let r := fst (GET w schedule σ) in
  let σ' := snd (GET w schedule σ) in
  error r = None ->
  forall t, t ∈ _alertedTickers σ' <->
            t ∈ _alertedTickers σ
            \/ exists d, d ∈ stocks r /\ alertSent d = true /\ ticker_of d = t.
Proof.
  cbv zeta.
  destruct (GET_outcome w schedule σ)
    as [msg Hg | gainers' msg Hg Hn | nifty' Hg Hn
        | gainers' nifty' msg Hg Hn Hne Hr | gainers' nifty' Hg Hn Hne Hr];
    cbn [fst snd error errorResponse stocks]; intros He t;
    try discriminate He.
  - split; [auto |]. intros [H | (d & Hd & _)]; [exact H |].
    apply elem_of_nil in Hd. contradiction.
  - rewrite (enrich_all_grown w nifty' schedule gainers' σ t), marked_enriched.
    unfold enriched.
    split; (intros [H | (d & Hd & Ha & Ht)]; [left; exact H |]); right; exists d;
      (split; [| auto]).
    + rewrite sort_Permutation. exact Hd.
    + rewrite sort_Permutation in Hd. exact Hd.
Qed.

Lemma alerted_after_scan_witness :
  "TCS"%string ∈ _alertedTickers (snd (GET one_mover [] start_of_process)).
Proof.
  assert (H : exists d, stocks (fst (GET one_mover [] start_of_process)) = [d]
                        /\ alertSent d = true /\ ticker_of d = "TCS"%string)
    by (eexists; split; [| split]; vm_compute; reflexivity).
  destruct H as (d & Hd & Ha & Ht).
  apply (alerted_after_scan one_mover [] start_of_process);
    [vm_compute; reflexivity |].
  right. exists d. split; [rewrite Hd; left | auto].
Defined.

(** *** The transport is used for alerts only *)

Lemma step_for_alerts w nifty gainers σ i s s' :
  staged w nifty gainers s -> for_alerts w nifty gainers σ s ->
  step w nifty i s s' -> for_alerts w nifty gainers σ s'.
Proof.
  intros Hst (new & Hnew & Hall) Hstep.
  assert (Hmore : forall e,
            (exists g lk, g ∈ gainers /\ lookups w g = Returns lk
                          /\ status (enrich g nifty lk) = alert
                          /\ event_ticker e = ticker g) ->
            exists new', transport (session s) ++ [e] = transport σ ++ new'
              /\ forall e', e' ∈ new' ->
                   exists g lk, g ∈ gainers /\ lookups w g = Returns lk
                                /\ status (enrich g nifty lk) = alert
                                /\ event_ticker e' = ticker g).
  { intros e He. exists (new ++ [e]). split; [rewrite Hnew, app_assoc; reflexivity |].
    intros e' He'. apply elem_of_app in He' as [He' | He']; [now apply Hall |].
    apply list_elem_of_singleton in He'. subst e'. exact He. }
  destruct Hstep as
    [Hl Hd | stock msg Hi Hlk | stock lk Hi Hlk Hs | stock lk Hi Hlk Hs Hin
     | stock lk Hi Hlk Hs Hin | d msg Hi Hsd | d Hi Hsd | d Hi Hsd];
    unfold for_alerts;
    cbn [session settle_task reject_task record_event add_alerted transport];
    try (exists new; split; [exact Hnew | exact Hall]);
    apply Hmore; destruct (Hst _ _ Hi) as (g & Hg & Hstage); cbn [stage] in Hstage.
  - subst stock. exists g, lk. repeat split; try assumption.
    eapply list_elem_of_lookup_2, Hg.
  - destruct Hstage as (lk & Hlk & -> & Hs). exists g, lk. repeat split; try assumption.
    eapply list_elem_of_lookup_2, Hg.
  - destruct Hstage as (lk & Hlk & -> & Hs). exists g, lk. repeat split; try assumption.
    eapply list_elem_of_lookup_2, Hg.
  - destruct Hstage as (lk & Hlk & -> & Hs). exists g, lk. repeat split; try assumption.
    eapply list_elem_of_lookup_2, Hg.
Qed.

Lemma enrich_all_for_alerts w nifty schedule gainers σ :
  for_alerts w nifty gainers σ (enrich_all w nifty schedule gainers σ).
Proof.
  assert (H : staged w nifty gainers (enrich_all w nifty schedule gainers σ)
              /\ for_alerts w nifty gainers σ (enrich_all w nifty schedule gainers σ));
    [| apply H].
  unfold enrich_all.
  apply (settle_invariant w nifty
           (fun s => staged w nifty gainers s /\ for_alerts w nifty gainers σ s)).
  { intros i s s' [Ha Hg] Hstep. split;
      [eapply step_staged | eapply step_for_alerts]; eassumption. }
  apply (run_invariant w nifty
           (fun s => staged w nifty gainers s /\ for_alerts w nifty gainers σ s)).
  { intros i s s' [Ha Hg] Hstep. split;
      [eapply step_staged | eapply step_for_alerts]; eassumption. }
  split; [apply start_staged |].
  exists []. split; [cbn; now rewrite app_nil_r |].
  intros e He. apply elem_of_nil in He. contradiction.
Qed.


(** X12.  Whatever a scan adds to the history of the transport is about
    a mover of that scan that classifies as an alert.  A scan none of
    whose movers classifies as an alert leaves the session as it was:
    no call of the transport, no ticker added. *)
Theorem transport_for_alerts_only (w : World) (schedule : list nat) (σ : Session) :
  let σ' := snd (GET w schedule σ) in
  (exists new, transport σ' = transport σ ++ new
     /\ forall e, e ∈ new ->
          exists gainers nifty g lk,
            getTopGainers w MIN_PUMP_PERCENT = Returns gainers
            /\ getNiftyChangePercent w = Returns nifty
            /\ g ∈ gainers /\ lookups w g = Returns lk
            /\ status (enrich g nifty lk) = alert
            /\ event_ticker e = ticker g)
  /\ (forall gainers nifty,
        getTopGainers w MIN_PUMP_PERCENT = Returns gainers ->
        getNiftyChangePercent w = Returns nifty ->
        (forall g lk, g ∈ gainers -> lookups w g = Returns lk ->
                      status (enrich g nifty lk) <> alert) ->
        σ' = σ).
Proof.
  cbv zeta.
  assert (Hsame : exists new, transport σ = transport σ ++ new
     /\ forall e, e ∈ new ->
          exists gainers nifty g lk,
            getTopGainers w MIN_PUMP_PERCENT = Returns gainers
            /\ getNiftyChangePercent w = Returns nifty
            /\ g ∈ gainers /\ lookups w g = Returns lk
            /\ status (enrich g nifty lk) = alert
            /\ event_ticker e = ticker g).
  { exists []. split; [now rewrite app_nil_r |].
    intros e He. apply elem_of_nil in He. contradiction. }
  assert (Hscan : forall gainers nifty,
    getTopGainers w MIN_PUMP_PERCENT = Returns gainers ->
    getNiftyChangePercent w = Returns nifty ->
    let F := enrich_all w nifty schedule gainers σ in
    (exists new, transport (session F) = transport σ ++ new
       /\ forall e, e ∈ new ->
          exists gainers nifty g lk,
            getTopGainers w MIN_PUMP_PERCENT = Returns gainers
            /\ getNiftyChangePercent w = Returns nifty
            /\ g ∈ gainers /\ lookups w g = Returns lk
            /\ status (enrich g nifty lk) = alert
            /\ event_ticker e = ticker g)
    /\ (forall gainers' nifty',
        getTopGainers w MIN_PUMP_PERCENT = Returns gainers' ->
        getNiftyChangePercent w = Returns nifty' ->
        (forall g lk, g ∈ gainers' -> lookups w g = Returns lk ->
                      status (enrich g nifty' lk) <> alert) ->
        session F = σ)).
  { intros gainers nifty Hg Hn F.
    destruct (enrich_all_for_alerts w nifty schedule gainers σ) as (new & Hnew & Hall).
    fold F in Hnew. split.
    - exists new. split; [exact Hnew |]. intros e He.
      destruct (Hall e He) as (g & lk & ?). exists gainers, nifty, g, lk. auto.
    - intros gainers' nifty' Hg' Hn' Hnone.
      assert (gainers' = gainers) by congruence.
      assert (nifty' = nifty) by congruence. subst gainers' nifty'.
      assert (Hnil : new = []).
      { destruct new as [| e new]; [reflexivity |]. exfalso.
        destruct (Hall e) as (g & lk & Hin & Hlk & Hs & _); [left |].
        exact (Hnone g lk Hin Hlk Hs). }
      subst new. rewrite app_nil_r in Hnew.
      assert (Hset : _alertedTickers (session F) = _alertedTickers σ).
      { apply set_eq. intros t. unfold F.
        rewrite (enrich_all_grown w nifty schedule gainers σ t).
        split; [| auto]. intros [H | (i & d & Hi & Ha & _)]; [exact H |]. exfalso.
        destruct (enrich_all_accounted w nifty schedule gainers σ) as (_ & _ & _ & Hdone).
        pose proof (Hdone i d Hi Ha) as Hs.
        destruct (enrich_all_staged w nifty schedule gainers σ i _ Hi)
          as (g & Hgi & lk & Hlk & Hd).
        apply (Hnone g lk); [eapply list_elem_of_lookup_2, Hgi | exact Hlk |].
        destruct Hd as [-> | ->]; exact Hs. }
      destruct (session F) as [a tr]. destruct σ as [a' tr'].
      cbn in Hnew, Hset. congruence. }
  destruct (GET_outcome w schedule σ)
    as [msg Hg | gainers' msg Hg Hn | nifty' Hg Hn
        | gainers' nifty' msg Hg Hn Hne Hr | gainers' nifty' Hg Hn Hne Hr];
    cbn [snd]; try (split; [exact Hsame | reflexivity]);
    apply (Hscan gainers' nifty' Hg Hn).
Qed.

Lemma transport_for_alerts_only_witness :
  snd (GET institutional [] start_of_process) = start_of_process.
Proof.
  apply (proj2 (transport_for_alerts_only institutional [] start_of_process)
           [a_mover "TCS.NS"] 3 eq_refl eq_refl).
  intros g lk Hin Hlk. apply list_elem_of_singleton in Hin. subst g.
  vm_compute in Hlk. injection Hlk as <-. vm_compute. discriminate.
Defined.

(** *** Where an error comes from *)

Lemma step_explained w nifty gainers i s s' :
  staged w nifty gainers s -> explained w nifty gainers s ->
  step w nifty i s s' -> explained w nifty gainers s'.
Proof.
  intros Hst Hex Hstep.
  destruct Hstep as
    [Hl Hd | stock msg Hi Hlk | stock lk Hi Hlk Hs | stock lk Hi Hlk Hs Hin
     | stock lk Hi Hlk Hs Hin | d msg Hi Hsd | d Hi Hsd | d Hi Hsd];
    try exact Hex;
    intros message; cbn [rejection reject_task];
    (destruct (rejection s) as [first |] eqn:Hr; [intros [= <-]; now apply Hex |]);
    intros [= <-]; destruct (Hst _ _ Hi) as (g & Hg & Hstage); cbn [stage] in Hstage;
    exists g; (split; [eapply list_elem_of_lookup_2, Hg |]).
  - subst stock. now left.
  - destruct Hstage as (lk & Hlk & -> & Hs). right. exists lk. auto.
Qed.

Lemma enrich_all_explained w nifty schedule gainers σ :
  explained w nifty gainers (enrich_all w nifty schedule gainers σ).
Proof.
  set (P := fun s => staged w nifty gainers s /\ explained w nifty gainers s).
  assert (Hstep : forall i s s', P s -> step w nifty i s s' -> P s').
  { intros i s s' [Hs He] Hstep. split;
      [eapply step_staged | eapply step_explained]; eassumption. }
  assert (H : P (enrich_all w nifty schedule gainers σ)); [| apply H].
  unfold enrich_all. apply (settle_invariant w nifty P Hstep).
  apply (run_invariant w nifty P Hstep).
  split; [apply start_staged |]. intros message H. discriminate H.
Qed.

(** X13.  The message of an error report is the message of a rejection
    the route met: that of fetching the movers, of fetching the
    benchmark, of the lookups of a mover, or of the send for a mover
    that classifies as an alert. *)
Theorem error_provenance (w : World) (schedule : list nat) (σ : Session)
    (message : string) :
  error (fst (GET w schedule σ)) = Some message ->
  getTopGainers w MIN_PUMP_PERCENT = Throws message
  \/ getNiftyChangePercent w = Throws message
  \/ exists gainers nifty g,
       getTopGainers w MIN_PUMP_PERCENT = Returns gainers
       /\ getNiftyChangePercent w = Returns nifty
       /\ g ∈ gainers
       /\ (lookups w g = Throws message
           \/ exists lk, lookups w g = Returns lk
                         /\ status (enrich g nifty lk) = alert
                         /\ send_of w (enrich g nifty lk) = Throws message).
Proof.
  destruct (GET_outcome w schedule σ)
    as [msg Hg | gainers msg Hg Hn | nifty Hg Hn
        | gainers nifty msg Hg Hn Hne Hr | gainers nifty Hg Hn Hne Hr];
    cbn [fst error errorResponse]; intros He; try discriminate He;
    injection He as <-; auto.
  right. right.
  destruct (enrich_all_explained w nifty schedule gainers σ _ Hr) as (g & Hin & H).
  exists gainers, nifty, g. auto.
Qed.

Lemma error_provenance_witness :
  getTopGainers no_quotes MIN_PUMP_PERCENT = Throws "fetch failed"
  \/ getNiftyChangePercent no_quotes = Throws "fetch failed"
  \/ exists gainers nifty g,
       getTopGainers no_quotes MIN_PUMP_PERCENT = Returns gainers
       /\ getNiftyChangePercent no_quotes = Returns nifty
       /\ g ∈ gainers
       /\ (lookups no_quotes g = Throws "fetch failed"
           \/ exists lk, lookups no_quotes g = Returns lk
                         /\ status (enrich g nifty lk) = alert
                         /\ send_of no_quotes (enrich g nifty lk)
                            = Throws "fetch failed").
Proof.
  apply (error_provenance no_quotes [] start_of_process "fetch failed").
  vm_compute. reflexivity.
Defined.

(** *** A scan with distinct tickers *)

Lemma final_task_settled w nifty σ g :
  (forall stock, final_task w nifty σ g <> AwaitingLookups stock)
  /\ (forall d, final_task w nifty σ g <> AwaitingSend d).
Proof.
  unfold final_task. destruct (lookups w g) as [lk | msg]; [| split; discriminate].
  cbv zeta. destruct (decide _); [| split; discriminate].
  destruct (decide _); [split; discriminate |].
  destruct (send_of w _) as [[|] | msg]; split; discriminate.
Qed.

Lemma final_task_gainer w nifty σ g d :
  final_task w nifty σ g = Fulfilled d -> gainer d = g.
Proof.
  unfold final_task. destruct (lookups w g) as [lk | msg]; [| discriminate].
  cbv zeta. destruct (decide _); [| intros [= <-]; reflexivity].
  destruct (decide _); [intros [= <-]; reflexivity |].
  destruct (send_of w _) as [[|] | msg]; try discriminate; intros [= <-]; reflexivity.
Qed.

Section Distinct.

Variable w : World.
Variable nifty : Q.
Variable gainers : list GainerStock.
Variable σ : Session.
Hypothesis Hdistinct : NoDup (ticker <$> gainers).

Lemma at_start i s stock :
  on_course w nifty gainers σ s ->
  tasks s !! i = Some (AwaitingLookups stock) -> gainers !! i = Some stock.
Proof.
  intros Hc Hi.
  destruct (Hc _ _ Hi) as (g & Hg & [[= ->] | [(lk & _ & H & _) | H]]);
    [exact Hg | discriminate H |].
  exfalso. symmetry in H. exact (proj1 (final_task_settled w nifty σ g) _ H).
Qed.

Lemma at_send i s d :
  on_course w nifty gainers σ s ->
  tasks s !! i = Some (AwaitingSend d) ->
  exists g lk, gainers !! i = Some g /\ lookups w g = Returns lk
               /\ d = enrich g nifty lk /\ status d = alert
               /\ ticker g ∉ _alertedTickers σ.
Proof.
  intros Hc Hi.
  destruct (Hc _ _ Hi) as (g & Hg & [H | [(lk & Hlk & [= ->] & Hs & Hout) | H]]);
    [discriminate H | exists g, lk; auto |].
  exfalso. symmetry in H. exact (proj2 (final_task_settled w nifty σ g) _ H).
Qed.

(** The ticker of a task that has not looked at the set yet is in the
    set only if it was there when the scan started. *)
Lemma not_yet_marked i s stock :
  on_course w nifty gainers σ s -> grown σ s ->
  tasks s !! i = Some (AwaitingLookups stock) ->
  ticker stock ∈ _alertedTickers (session s) -> ticker stock ∈ _alertedTickers σ.
Proof.
  intros Hc Hgr Hi Hin. apply Hgr in Hin as [Hin | (j & d & Hj & Ha & Ht)];
    [exact Hin | exfalso].
  pose proof (at_start i s stock Hc Hi) as Hgi.
  destruct (Hc _ _ Hj) as (g & Hg & [H | [(lk & _ & H & _) | H]]);
    try discriminate H.
  symmetry in H. apply final_task_gainer in H.
  assert (Hij : i = j).
  { eapply NoDup_lookup; [exact Hdistinct | |].
    - rewrite list_lookup_fmap, Hgi. reflexivity.
    - rewrite list_lookup_fmap, Hg. cbn. f_equal.
      unfold ticker_of in Ht. rewrite H in Ht. exact Ht. }
  subst j. congruence.
Qed.

Lemma step_on_course i s s' :
  grown σ s -> on_course w nifty gainers σ s -> step w nifty i s s' ->
  on_course w nifty gainers σ s'.
Proof.
  intros Hgr Hc Hstep.
  destruct Hstep as
    [Hl Hd | stock msg Hi Hlk | stock lk Hi Hlk Hs | stock lk Hi Hlk Hs Hin
     | stock lk Hi Hlk Hs Hin | d msg Hi Hsd | d Hi Hsd | d Hi Hsd];
    [exact Hc | ..];
    intros k t Hk; cbn [tasks settle_task reject_task] in Hk;
    apply list_lookup_insert_Some in Hk as [(-> & <- & _) | (_ & Hk)];
    try (apply Hc; exact Hk).
  - exists stock. split; [eapply at_start; eassumption |]. right. right.
    unfold final_task. rewrite Hlk. reflexivity.
  - exists stock. split; [eapply at_start; eassumption |]. right. right.
    unfold final_task. rewrite Hlk. cbv zeta.
    destruct (decide _) as [? | _]; [contradiction | reflexivity].
  - exists stock. split; [eapply at_start; eassumption |]. right. right.
    unfold final_task. rewrite Hlk. cbv zeta.
    destruct (decide _) as [_ | ?]; [| contradiction].
    destruct (decide _) as [_ | Hout]; [reflexivity |].
    exfalso. apply Hout. eapply not_yet_marked; eassumption.
  - exists stock. split; [eapply at_start; eassumption |]. right. left.
    exists lk. repeat split; try assumption.
    intros Hσ. apply Hin. apply Hgr. left. exact Hσ.
  - destruct (at_send _ _ _ Hc Hi) as (g & lk & Hg & Hlk & -> & Hs & Hout).
    exists g. split; [exact Hg |]. right. right.
    unfold final_task. rewrite Hlk. cbv zeta.
    destruct (decide _) as [_ | ?]; [| contradiction].
    destruct (decide _) as [? | _]; [contradiction |].
    unfold send_of. rewrite Hsd. reflexivity.
  - destruct (at_send _ _ _ Hc Hi) as (g & lk & Hg & Hlk & -> & Hs & Hout).
    exists g. split; [exact Hg |]. right. right.
    unfold final_task. rewrite Hlk. cbv zeta.
    destruct (decide _) as [_ | ?]; [| contradiction].
    destruct (decide _) as [? | _]; [contradiction |].
    unfold send_of. rewrite Hsd. reflexivity.
  - destruct (at_send _ _ _ Hc Hi) as (g & lk & Hg & Hlk & -> & Hs & Hout).
    exists g. split; [exact Hg |]. right. right.
    unfold final_task. rewrite Hlk. cbv zeta.
    destruct (decide _) as [_ | ?]; [| contradiction].
    destruct (decide _) as [? | _]; [contradiction |].
    unfold send_of. rewrite Hsd. reflexivity.
Qed.

Lemma start_on_course : on_course w nifty gainers σ (start gainers σ).
Proof.
  intros i t Hi. cbn in Hi. apply list_lookup_fmap_Some in Hi as (g & -> & Hg).
  exists g. auto.
Qed.

Lemma enrich_all_on_course schedule :
  on_course w nifty gainers σ (enrich_all w nifty schedule gainers σ).
Proof.
  set (P := fun s => accounted s /\ grown σ s /\ on_course w nifty gainers σ s).
  assert (Hstep : forall i s s', P s -> step w nifty i s s' -> P s').
  { intros i s s' (Ha & Hg & Hc) Hstep. split; [| split].
    - eapply step_accounted; eassumption.
    - eapply step_grown; eassumption.
    - eapply step_on_course; eassumption. }
  assert (H : P (enrich_all w nifty schedule gainers σ)); [| apply H].
  unfold enrich_all. apply (settle_invariant w nifty P Hstep).
  apply (run_invariant w nifty P Hstep).
  split; [apply start_accounted |]. split; [apply start_grown | apply start_on_course].
Qed.

(** The tasks of the scan at its end, whatever the schedule. *)
Lemma enrich_all_tasks schedule :
  tasks (enrich_all w nifty schedule gainers σ) = final_task w nifty σ <$> gainers.
Proof.
  apply list_eq. intros i. rewrite list_lookup_fmap.
  destruct (tasks (enrich_all w nifty schedule gainers σ) !! i) as [t |] eqn:Hi.
  - destruct (enrich_all_on_course schedule _ _ Hi) as (g & Hg & Hcase).
    rewrite Hg. cbn. f_equal.
    destruct (settled_task _ _ _ _ _ Hi) as [[d ->] | [msg ->]];
      destruct Hcase as [H | [(lk & _ & H & _) | H]]; congruence.
  - apply lookup_ge_None in Hi. rewrite enrich_all_length in Hi.
    apply lookup_ge_None in Hi. rewrite Hi. reflexivity.
Qed.

End Distinct.

(** The scan has rejected only if one of its tasks has. *)
Lemma step_rejected w nifty i s s' :
  (is_Some (rejection s) -> exists k msg, tasks s !! k = Some (Rejected msg)) ->
  step w nifty i s s' ->
  is_Some (rejection s') -> exists k msg, tasks s' !! k = Some (Rejected msg).
Proof.
  intros Hrej Hstep.
  assert (Hkeep : forall t x, tasks s !! i = Some x ->
            (forall msg, x <> Rejected msg) ->
            is_Some (rejection s) ->
            exists k msg, <[ i := t ]> (tasks s) !! k = Some (Rejected msg)).
  { intros t x Hi Hx Hr. destruct (Hrej Hr) as (k & msg & Hk).
    exists k, msg. rewrite list_lookup_insert_ne; [exact Hk |].
    intros ->. rewrite Hi in Hk. injection Hk as ->. eapply Hx. reflexivity. }
  destruct Hstep as
    [Hl Hd | stock msg Hi Hlk | stock lk Hi Hlk Hs | stock lk Hi Hlk Hs Hin
     | stock lk Hi Hlk Hs Hin | d msg Hi Hsd | d Hi Hsd | d Hi Hsd];
    [exact Hrej | ..]; cbn [tasks rejection settle_task reject_task];
    try (apply (Hkeep _ _ Hi); discriminate);
    intros _; exists i, msg;
    apply list_lookup_insert_eq; eapply lookup_lt_Some, Hi.
Qed.

Lemma enrich_all_rejected w nifty schedule gainers σ :
  is_Some (rejection (enrich_all w nifty schedule gainers σ)) <->
  exists k msg, tasks (enrich_all w nifty schedule gainers σ) !! k = Some (Rejected msg).
Proof.
  split.
  - unfold enrich_all.
    apply (settle_invariant w nifty
             (fun s => is_Some (rejection s) ->
                       exists k msg, tasks s !! k = Some (Rejected msg)));
      [intros; eapply step_rejected; eassumption |].
    apply (run_invariant w nifty
             (fun s => is_Some (rejection s) ->
                       exists k msg, tasks s !! k = Some (Rejected msg)));
      [intros; eapply step_rejected; eassumption |].
    cbn. intros [? H]. discriminate H.
  - intros (k & msg & Hk).
    destruct (enrich_all_accounted w nifty schedule gainers σ) as (_ & Hrej & _).
    eapply Hrej, Hk.
Qed.

(** X14.  When the movers of a scan have distinct tickers, the order in
    which its tasks run does not show: a scan that ends without error
    under one schedule gives the same report, and leaves the same set
    of alerted tickers, under every other. *)
Theorem schedule_irrelevant (w : World) (schedule schedule' : list nat)
    (σ : Session) :
  distinct_tickers w ->
  error (fst (GET w schedule σ)) = None ->
  fst (GET w schedule' σ) = fst (GET w schedule σ)
  /\ _alertedTickers (snd (GET w schedule' σ))
     = _alertedTickers (snd (GET w schedule σ)).
Proof.
  intros Hdistinct.
  destruct (GET_outcome w schedule σ)
    as [msg Hg | gainers msg Hg Hn | nifty Hg Hn
        | gainers nifty msg Hg Hn Hne Hr | gainers nifty Hg Hn Hne Hr];
    cbn [fst snd error errorResponse]; intros He; try discriminate He.
  - destruct (GET_outcome w schedule' σ)
      as [msg' Hg' | gainers' msg' Hg' Hn' | nifty' Hg' Hn'
          | gainers' nifty' msg' Hg' Hn' Hne' Hr' | gainers' nifty' Hg' Hn' Hne' Hr'];
      cbn [fst snd]; try congruence.
    split; [| reflexivity]. congruence.
  - pose proof (Hdistinct gainers Hg) as Hnodup.
    pose proof (enrich_all_tasks w nifty gainers σ Hnodup) as Htasks.
    destruct (GET_outcome w schedule' σ)
      as [msg' Hg' | gainers' msg' Hg' Hn' | nifty' Hg' Hn'
          | gainers' nifty' msg' Hg' Hn' Hne' Hr' | gainers' nifty' Hg' Hn' Hne' Hr'];
      cbn [fst snd]; try congruence.
    + exfalso.
      assert (gainers' = gainers) by congruence.
      assert (nifty' = nifty) by congruence. subst gainers' nifty'.
      assert (H : is_Some (rejection (enrich_all w nifty schedule gainers σ))).
      { apply enrich_all_rejected. rewrite Htasks, <- (Htasks schedule').
        apply enrich_all_rejected. rewrite Hr'. eexists; reflexivity. }
      rewrite Hr in H. destruct H as [? H]. discriminate H.
    + assert (gainers' = gainers) by congruence.
      assert (nifty' = nifty) by congruence. subst gainers' nifty'.
      split.
      * unfold enriched.
        destruct (enrich_all_accounted w nifty schedule gainers σ) as (-> & _).
        destruct (enrich_all_accounted w nifty schedule' gainers σ) as (-> & _).
        rewrite !Htasks. reflexivity.
      * apply set_eq. intros t.
        rewrite (enrich_all_grown w nifty schedule' gainers σ t),
                (enrich_all_grown w nifty schedule gainers σ t), !Htasks.
        reflexivity.
Qed.

Lemma schedule_irrelevant_witness :
  fst (GET two_movers [1; 0; 1]%nat start_of_process)
  = fst (GET two_movers [] start_of_process)
  /\ _alertedTickers (snd (GET two_movers [1; 0; 1]%nat start_of_process))
     = _alertedTickers (snd (GET two_movers [] start_of_process)).
Proof.
  apply (schedule_irrelevant two_movers [] [1; 0; 1]%nat start_of_process).
  - intros gainers Hg. injection Hg as <-.
    apply NoDup_cons. split; [| apply NoDup_singleton].
    intros H. apply list_elem_of_singleton in H. discriminate H.
  - vm_compute. reflexivity.
Defined.

End ReportFacts.

(** ** The movers of the watchlist *)

Module YahooFacts.
Import Route Yahoo.


Section Quotes.

Variable quote : string -> outcome (option Quote).
Variable minChangePercent : Q.

Lemma collect_omap (symbols : list string) (allQuotes : list GainerStock) :
  collect minChangePercent (quote_or_null quote <$> symbols) allQuotes
  = allQuotes ++ omap (entry quote minChangePercent) symbols.
Proof.
  unfold collect. revert allQuotes.
  induction symbols as [| sym symbols IH]; intros allQuotes; cbn [fmap list_fmap foldl omap list_omap].
  - now rewrite app_nil_r.
  - rewrite IH. unfold entry at 2.
    destruct (quote_or_null quote sym) as [q |]; cbn [mbind option_bind]; [| reflexivity].
    destruct (pushed minChangePercent q); [| reflexivity].
    now rewrite <- app_assoc.
Qed.

(** With enough rounds the loop has gone through all the symbols from
    [i] on, each once and in order. *)
Lemma batches_omap (fuel : nat) (symbols : list string) (i : nat)
    (allQuotes : list GainerStock) :
  (length symbols <= i + fuel)%nat ->
  batches quote fuel minChangePercent symbols i allQuotes
  = allQuotes ++ omap (entry quote minChangePercent) (drop i symbols).
Proof.
  revert i allQuotes. induction fuel as [| fuel IH]; intros i allQuotes Hfuel;
    cbn [batches].
  - rewrite drop_ge by lia. now rewrite app_nil_r.
  - destruct (i <? length symbols)%nat eqn:Hi.
    + cbv zeta. rewrite IH by (unfold BATCH_SIZE; lia).
      rewrite collect_omap, <- app_assoc. f_equal.
      rewrite <- drop_drop, <- omap_app, take_drop. reflexivity.
    + apply Nat.ltb_ge in Hi. rewrite drop_ge by lia. now rewrite app_nil_r.
Qed.

Lemma getTopGainers_sort :
  getTopGainers quote minChangePercent
  = sort (fun a b => changePercent b - changePercent a)
         (omap (entry quote minChangePercent) NIFTY_200_SYMBOLS).
Proof.
  unfold getTopGainers. cbv zeta. rewrite batches_omap by lia. reflexivity.
Qed.

Lemma pushed_Some (q : Quote) (g : GainerStock) :
  pushed minChangePercent q = Some g ->
  minChangePercent <= changePercent g
  /\ changePercent g = default 0 (regularMarketChangePercent q)
  /\ symbol g = default ""%string (q_symbol q).
Proof.
  unfold pushed. cbv zeta.
  destruct (Qlt_bool _ _) eqn:Hlt; [discriminate |]. intros [= <-].
  cbn [changePercent symbol]. repeat split.
  unfold Qlt_bool in Hlt. apply negb_false_iff, Qle_bool_iff in Hlt. exact Hlt.
Qed.

End Quotes.

(** *** Sorting by a key, largest first *)

Lemma insert_by_key {A : Type} (key : A -> Q) (a x : A) (l : list A) :
  HdRel (fun a b => key b <= key a) a l -> key x <= key a ->
  HdRel (fun a b => key b <= key a) a (insert (fun a b => key b - key a) x l).
Proof.
  intros Hl Hx. destruct l as [| y l]; cbn [insert].
  - constructor. exact Hx.
  - inversion_clear Hl. destruct (Qle_bool (key y - key x) 0); constructor; assumption.
Qed.

Lemma insert_sorted_by_key {A : Type} (key : A -> Q) (x : A) (l : list A) :
  Sorted (fun a b => key b <= key a) l ->
  Sorted (fun a b => key b <= key a) (insert (fun a b => key b - key a) x l).
Proof.
  induction 1 as [| y l Hl IH Hy]; cbn [insert].
  - repeat constructor.
  - destruct (Qle_bool (key y - key x) 0) eqn:Hc.
    + apply Qle_bool_iff in Hc. repeat constructor; try assumption. lra.
    + assert (Hlt : ~ key y - key x <= 0).
      { intros H. apply Qle_bool_iff in H. congruence. }
      constructor; [exact IH |]. apply insert_by_key; [exact Hy | lra].
Qed.

Lemma sort_sorted_by_key {A : Type} (key : A -> Q) (l : list A) :
  Sorted (fun a b => key b <= key a) (sort (fun a b => key b - key a) l).
Proof.
  induction l as [| x l IH]; cbn; [constructor | now apply insert_sorted_by_key].
Qed.

Lemma omap_length_le {A B : Type} (f : A -> option B) (l : list A) :
  (length (omap f l) <= length l)%nat.
Proof.
  induction l as [| x l IH]; cbn; [lia |]. destruct (f x); cbn; lia.
Qed.

(** X15.  [getTopGainers] asks for every symbol of the watchlist,
    batch after batch, and loses none between two batches: its result
    is, in some order, what is pushed for the symbols one by one.  A
    mover is in it exactly when a symbol of the list has a quote for
    which the loop pushes it; there are at most 200. *)
Theorem getTopGainers_covers (quote : string -> outcome (option Quote))
    (minChangePercent : Q) :
  getTopGainers quote minChangePercent
  ≡ₚ omap (entry quote minChangePercent) NIFTY_200_SYMBOLS
  /\ (forall g, g ∈ getTopGainers quote minChangePercent <->
                exists sym q, sym ∈ NIFTY_200_SYMBOLS
                              /\ quote sym = Returns (Some q)
                              /\ pushed minChangePercent q = Some g)
  /\ (length (getTopGainers quote minChangePercent) <= 200)%nat.
Proof.
  rewrite getTopGainers_sort. split; [apply ScanFacts.sort_Permutation |]. split.
  - intros g. rewrite ScanFacts.sort_Permutation, list_elem_of_omap. split.
    + intros (sym & Hin & Hentry). unfold entry, quote_or_null in Hentry.
      destruct (quote sym) as [[q |] | msg] eqn:Hq; try discriminate Hentry.
      exists sym, q. auto.
    + intros (sym & q & Hin & Hq & Hp). exists sym. split; [exact Hin |].
      unfold entry, quote_or_null. rewrite Hq. exact Hp.
  - rewrite ScanFacts.sort_Permutation.
    etransitivity; [apply omap_length_le | reflexivity].
Qed.

(** X16.  The movers [getTopGainers] returns are in descending order of
    their change, and each has a change of at least the minimum asked
    for. *)
Theorem getTopGainers_sorted (quote : string -> outcome (option Quote))
    (minChangePercent : Q) :
  Sorted (fun a b => changePercent b <= changePercent a)
    (getTopGainers quote minChangePercent)
  /\ Forall (fun g => minChangePercent <= changePercent g)
       (getTopGainers quote minChangePercent).
Proof.
  rewrite getTopGainers_sort. split; [apply sort_sorted_by_key |].
  rewrite ScanFacts.sort_Permutation. apply Forall_forall. intros g Hg.
  apply list_elem_of_omap in Hg as (sym & _ & Hentry). unfold entry in Hentry.
  destruct (quote_or_null quote sym) as [q |]; [| discriminate Hentry].
  eapply pushed_Some, Hentry.
Qed.





(** X18.  When no quote can be had, [getTopGainers] returns no mover
    and [getNiftyChangePercent] returns 0, neither rejects, and the
    route answers as on a day without movers: an empty report without
    error, and the session as it was. *)
Theorem outage_is_empty_report (quote : string -> outcome (option Quote))
    (w : World) (schedule : list nat) (σ : Session) :
  market quote w ->
  (forall sym, exists msg, quote sym = Throws msg) ->
  GET w schedule σ
  = ({| stocks := []; scannedAt := now w; totalScanned := 0; alertsSent := 0;
        niftyChangePercent := 0; error := None |}, σ).
Proof.
  intros [Hgainers Hnifty] Hdown.
  assert (Hnull : forall sym, quote_or_null quote sym = None).
  { intros sym. unfold quote_or_null. destruct (Hdown sym) as [msg ->]. reflexivity. }
  assert (Hnone : getTopGainers quote CRITERIA.MIN_PUMP_PERCENT = []).
  { rewrite getTopGainers_sort.
    assert (H : omap (entry quote CRITERIA.MIN_PUMP_PERCENT) NIFTY_200_SYMBOLS = []);
      [| rewrite H; reflexivity].
    generalize NIFTY_200_SYMBOLS. intros l.
    induction l as [| sym l IH]; cbn [omap list_omap]; [reflexivity |].
    unfold entry at 1. rewrite Hnull. exact IH. }
  unfold GET. rewrite Hgainers, Hnifty, Hnone.
  unfold getNiftyChangePercent. rewrite Hnull. reflexivity.
Qed.

Lemma outage_is_empty_report_witness :
  GET (market_world down) [] start_of_process
  = ({| stocks := []; scannedAt := now (market_world down); totalScanned := 0;
        alertsSent := 0; niftyChangePercent := 0; error := None |},
     start_of_process).
Proof.
  apply (outage_is_empty_report down (market_world down) [] start_of_process).
  - split; reflexivity.
  - intros sym. eexists. reflexivity.
Defined.

End YahooFacts.

(** ** The delivery percentage and its cache *)

Module DeliveryFacts.
Import Delivery.

Section Parsed.

Variable parseFloat : string -> number.

Lemma fetched_available answer ticker later cache :
  available parseFloat answer ->
  exists pct,
    fetched parseFloat answer ticker later cache
    = (pct, <[ ticker := {| value := pct; fetchedAt := later |} ]> cache).
Proof.
  intros (info & dp & -> & Hdp & Hz). unfold fetched. cbn [mbind option_bind].
  rewrite Hdp. cbv zeta. rewrite Hz. eexists. reflexivity.
Qed.

Lemma fetched_unavailable answer ticker later cache :
  ~ available parseFloat answer ->
  fetched parseFloat answer ticker later cache = (Fin (-1), cache).
Proof.
  intros Hno. unfold fetched.
  destruct answer as [[info |] | msg]; cbn [mbind option_bind]; try reflexivity.
  destruct (securityWiseDP info) as [dp |] eqn:Hdp; [| reflexivity].
  cbv zeta. destruct (is_zero _) eqn:Hz; [reflexivity |].
  exfalso. apply Hno. exists info, dp. auto.
Qed.

(** X19.  A percentage fetched from NSE is kept: a call for the same
    ticker less than three minutes after it was stored returns the
    same value and leaves the cache as it is, whatever NSE would
    answer by then. *)
Theorem delivery_cached_for_three_minutes
    (nse nse' : string -> outcome (option TradeInfo)) (ticker : string)
    (now later now' later' : Z) (cache : gmap string Entry) :
  cached cache ticker now = None ->
  available parseFloat (nse ticker) ->
  (now' - later < 180000)%Z ->
  let first := getDeliveryPercent parseFloat nse ticker now later cache in
  getDeliveryPercent parseFloat nse' ticker now' later' (snd first)
  = (fst first, snd first).
Proof.
  intros Hmiss Hav Hsoon. cbv zeta. unfold getDeliveryPercent at 2 3 4.
  rewrite Hmiss.
  destruct (fetched_available (nse ticker) ticker later cache Hav) as [pct ->].
  cbn [fst snd]. unfold getDeliveryPercent, cached.
  rewrite lookup_insert_eq. cbn [fetchedAt value].
  destruct (now' - later <? CACHE_TTL_MS)%Z eqn:Hlt; [reflexivity |].
  apply Z.ltb_ge in Hlt. unfold CACHE_TTL_MS in Hlt. lia.
Qed.

(** X20.  A call that finds no entry young enough and gets no figures
    from NSE returns -1 and leaves the cache as it was: an entry that
    is too old is not served, and the failure is not remembered, so
    that the next call asks NSE again. *)
Theorem delivery_failure_not_cached
    (nse nse' : string -> outcome (option TradeInfo)) (ticker : string)
    (now later now' later' : Z) (cache : gmap string Entry) :
  cached cache ticker now = None ->
  ~ available parseFloat (nse ticker) ->
  getDeliveryPercent parseFloat nse ticker now later cache = (Fin (-1), cache)
  /\ ((now <= now')%Z ->
      getDeliveryPercent parseFloat nse' ticker now' later' cache
      = fetched parseFloat (nse' ticker) ticker later' cache).
Proof.
  intros Hmiss Hno. split.
  - unfold getDeliveryPercent. rewrite Hmiss. now apply fetched_unavailable.
  - intros Hle. unfold getDeliveryPercent.
    assert (Hstill : cached cache ticker now' = None); [| now rewrite Hstill].
    unfold cached in *. destruct (cache !! ticker) as [entry |]; [| reflexivity].
    destruct (now - fetchedAt entry <? CACHE_TTL_MS)%Z eqn:H1; [discriminate |].
    apply Z.ltb_ge in H1.
    destruct (now' - fetchedAt entry <? CACHE_TTL_MS)%Z eqn:H2; [| reflexivity].
    apply Z.ltb_lt in H2. lia.
Qed.



End Parsed.

Lemma delivery_cached_for_three_minutes_witness :
  getDeliveryPercent parse_digits unreachable "TCS" 60000 60010
    (snd (getDeliveryPercent parse_digits a_quarter "TCS" 0 10 ∅))
  = (fst (getDeliveryPercent parse_digits a_quarter "TCS" 0 10 ∅),
     snd (getDeliveryPercent parse_digits a_quarter "TCS" 0 10 ∅)).
Proof.
  apply (delivery_cached_for_three_minutes parse_digits a_quarter unreachable
           "TCS" 0 10 60000 60010 ∅).
  - reflexivity.
  - eexists _, _. split; [reflexivity |]. split; [reflexivity |].
    vm_compute. reflexivity.
  - lia.
Defined.

Lemma delivery_failure_not_cached_witness :
  getDeliveryPercent parse_digits unreachable "TCS" 0 10 ∅ = (Fin (-1), ∅).
Proof.
  apply (delivery_failure_not_cached parse_digits unreachable a_quarter
           "TCS" 0 10 20 30 ∅).
  - reflexivity.
  - intros (tradeInfo & dp & H & _). discriminate H.
Defined.


End DeliveryFacts.

(** ** The listing of the subreddit *)

Module RedditFacts.
Import Mentions Reddit.

Section Listing.

Variable toISOString : Z -> string.


(** X23.  When no cached listing is young enough and Reddit cannot be
    reached or answers with a status that is not ok, the search
    returns no mention for any ticker and leaves the cache as it was:
    posts that are too old are not searched, and the failure reaches
    the caller as an absence of mentions. *)
Theorem reddit_failure_is_silence
    (response : outcome Listing) (now later : Z) (cache : option Cache)
    (ticker : string) :
  cached cache now = None ->
  (response = Returns NotOk \/ exists msg, response = Throws msg) ->
  searchRedditMentions toISOString response now later cache ticker
  = (Returns [], cache).
Proof.
  intros Hmiss Hfail. unfold searchRedditMentions, fetchPosts. rewrite Hmiss.
  assert (Hnone : fetched response later cache = ([], cache)).
  { destruct Hfail as [-> | [msg ->]]; reflexivity. }
  rewrite Hnone. unfold Mentions.searchRedditMentions.
  rewrite MentionFacts.tickerPattern_returns. reflexivity.
Qed.

End Listing.


Lemma reddit_failure_is_silence_witness :
  searchRedditMentions (fun _ => "2026-01-01T09:30:00.000Z"%string)
    (Returns NotOk) 200000 200010
    (Some {| posts := [a_post]; fetchedAt := 10 |}) "TCS"
  = (Returns [], Some {| posts := [a_post]; fetchedAt := 10 |}).
Proof.
  apply (reddit_failure_is_silence (fun _ => "2026-01-01T09:30:00.000Z"%string)
           (Returns NotOk) 200000 200010
           (Some {| posts := [a_post]; fetchedAt := 10 |}) "TCS");
    [reflexivity | left; reflexivity].
Defined.

End RedditFacts.

(** ** The WhatsApp transport *)

Module WhatsAppFacts.
Import WhatsApp.

(** X24.  [sendWhatsAppAlert] makes no request and returns false when
    one of the four variables is missing or empty, or when the account
    or the token is the placeholder.  Otherwise it makes one request,
    to the recipient of [WHATSAPP_TO], and returns true exactly when
    that request is answered with an ok status; a request that fails
    gives false, not an exception. *)
Theorem sendWhatsAppAlert_sent (toFixed : Q -> nat -> string) (env : Env)
    (fetch : Request -> outcome bool) (ticker : string)
    (changePercent deliveryPercent : Q) (r2Proximity : number) :
  let result := sendWhatsAppAlert toFixed env fetch ticker changePercent
                  deliveryPercent r2Proximity in
  (~ configured env -> result = (false, []))
  /\ (configured env ->
      exists request to,
        snd result = [request]
        /\ WHATSAPP_TO env = Some to
        /\ ("To"%string, to) ∈ params request
        /\ (fst result = true <-> fetch request = Returns true)).
Proof.
  cbv zeta. unfold sendWhatsAppAlert. split.
  - intros Hno.
    destruct (Mentions.truthy (TWILIO_ACCOUNT_SID env)) as [sid |] eqn:H1; [| reflexivity].
    destruct (Mentions.truthy (TWILIO_AUTH_TOKEN env)) as [token |] eqn:H2; [| reflexivity].
    destruct (Mentions.truthy (TWILIO_WHATSAPP_FROM env)) as [from |] eqn:H3; [| reflexivity].
    destruct (Mentions.truthy (WHATSAPP_TO env)) as [to |] eqn:H4; [| reflexivity].
    destruct (String.eqb_spec sid "your_twilio_account_sid") as [| Hsid]; [reflexivity |].
    destruct (String.eqb_spec token "your_twilio_auth_token") as [| Htoken]; [reflexivity |].
    exfalso. apply Hno. exists sid, token, from, to. repeat split; assumption.
  - intros (sid & token & from & to & -> & -> & -> & Hto & Hsid & Htoken).
    rewrite Hto.
    apply String.eqb_neq in Hsid, Htoken. rewrite Hsid, Htoken. cbn [orb]. cbv zeta.
    eexists _, to. split; [| split; [| split]].
    + destruct (fetch _) as [[|] | msg]; reflexivity.
    + unfold Mentions.truthy in Hto. destruct (WHATSAPP_TO env) as [v |]; [| discriminate].
      destruct (String.eqb v ""); [discriminate |]. injection Hto as ->.
      reflexivity.
    + cbn [params]. right. left.
    + destruct (fetch _) as [[|] | msg]; cbn [fst]; split; congruence.
Qed.

Lemma sendWhatsAppAlert_sent_witness :
  exists request to,
    snd (sendWhatsAppAlert (fun _ _ => "6.00"%string) twilio accepted
           "TCS" 6 20 (Fin (83 # 100))) = [request]
    /\ WHATSAPP_TO twilio = Some to
    /\ ("To"%string, to) ∈ params request
    /\ (fst (sendWhatsAppAlert (fun _ _ => "6.00"%string) twilio accepted
               "TCS" 6 20 (Fin (83 # 100))) = true
        <-> accepted request = Returns true).
Proof.
  apply (proj2 (sendWhatsAppAlert_sent (fun _ _ => "6.00"%string) twilio accepted
                  "TCS" 6 20 (Fin (83 # 100)))).
  exists "AC0123456789"%string, "secret"%string, "whatsapp:+14155238886"%string,
         "whatsapp:+919876543210"%string.
  repeat split; try reflexivity; discriminate.
Defined.

End WhatsAppFacts.

(** ** The Twitter search *)

Module TwitterFacts.
Import Mentions Twitter.

(** X25.  The Twitter client is made once: a call of [getClient] that
    returns a client leaves it in [_client], and every later call
    returns that client, whatever the bearer token has become by
    then.  A call that returns no client leaves [_client] empty, so
    that a token set later is picked up; with a token that is neither
    empty nor the placeholder, the first call makes the client. *)
Theorem client_made_once (env env' : Env) (_client : option TwitterApi) :
  let first := getClient env _client in
  (forall client, fst first = Some client ->
     snd first = Some client /\ getClient env' (snd first) = first)
  /\ (fst first = None -> snd first = None)
  /\ (forall token,
        _client = None -> TWITTER_BEARER_TOKEN env = Some token ->
        token <> ""%string -> token <> "your_twitter_bearer_token_here"%string ->
        first = (Some token, Some token)).
Proof.
  cbv zeta. unfold getClient. split; [| split].
  - intros client. destruct _client as [c |]; cbn [fst snd].
    + intros [= ->]. auto.
    + destruct (truthy _) as [token |]; [| discriminate].
      destruct (String.eqb token _); [discriminate |]. cbn [fst snd].
      intros [= ->]. auto.
  - destruct _client as [c |]; cbn [fst snd]; [discriminate |].
    destruct (truthy _) as [token |]; [| reflexivity].
    destruct (String.eqb token _); [reflexivity | discriminate].
  - intros token -> -> Hne Hph. cbn [truthy].
    apply String.eqb_neq in Hne, Hph. rewrite Hne, Hph. reflexivity.
Qed.

(** X26.  [searchTwitterMentions] returns no mention without a client,
    and none when the search fails or has no data; otherwise one
    mention for each tweet, in the order of the tweets.  Each has the
    platform [twitter], a title of at most 200 characters and a link
    on [https://x.com/i/status/]. *)
Theorem twitter_mentions_shape (env : Env)
    (search : TwitterApi -> string -> outcome (option (list Tweet)))
    (_client : option TwitterApi) (ticker : string) :
  let found := fst (searchTwitterMentions env search _client ticker) in
  (fst (getClient env _client) = None -> found = [])
  /\ (forall client,
        fst (getClient env _client) = Some client ->
        (forall tweets,
           search client (query env ticker) = Returns (Some tweets) ->
           found = tweetMention <$> tweets)
        /\ ((forall tweets,
               search client (query env ticker) <> Returns (Some tweets)) ->
            found = []))
  /\ Forall (fun m => platform m = twitter
                      /\ (String.length (title m) <= 200)%nat
                      /\ exists id, url m = "https://x.com/i/status/" +:+ id)
       found.
Proof.
  cbv zeta. unfold searchTwitterMentions.
  destruct (getClient env _client) as [[client |] c]; cbn [fst].
  2: { split; [reflexivity |]. split; [discriminate | constructor]. }
  split; [discriminate |]. split.
  - intros client' [= <-]. split.
    + intros tweets ->. reflexivity.
    + intros H. destruct (search client (query env ticker)) as [[tweets |] | msg];
        [exfalso; eapply H; reflexivity | reflexivity | reflexivity].
  - destruct (search client (query env ticker)) as [[tweets |] | msg]; cbn [fst];
      try constructor.
    apply Forall_forall. intros m Hm.
    apply list_elem_of_fmap in Hm as (tweet & -> & _).
    cbn [tweetMention platform title url]. split; [reflexivity |].
    split; [| eexists; reflexivity].
    destruct (tweet_text tweet); [apply MentionShapeFacts.length_substring_le |].
    cbn. lia.
Qed.

Lemma trimStart_spaces (s : string) :
  Forall (fun c => is_space c = true) (list_ascii_of_string s) ->
  trimStart s = ""%string.
Proof.
  induction s as [| c s IH]; cbn; [reflexivity |]. intros H.
  apply Forall_cons in H as [-> H]. now apply IH.
Qed.

Lemma split_blank (s : string) :
  Forall (fun c => c = ","%char \/ is_space c = true) (list_ascii_of_string s) ->
  Forall (fun piece => Forall (fun c => is_space c = true)
                         (list_ascii_of_string piece))
    (split s).
Proof.
  induction s as [| c s IH]; cbn [split list_ascii_of_string]; intros H.
  - repeat constructor.
  - apply Forall_cons in H as [Hc H]. specialize (IH H).
    destruct (Ascii.eqb_spec c ",") as [-> | Hne].
    + constructor; [constructor | exact IH].
    + destruct Hc as [-> | Hc]; [contradiction |].
      destruct (split s) as [| piece pieces].
      * repeat constructor. exact Hc.
      * apply Forall_cons in IH as [Hp Hps].
        constructor; [| exact Hps]. cbn. constructor; assumption.
Qed.

(** X27.  When [TWITTER_TRUSTED_USER_IDS] is not set, is empty, or holds
    only commas and white space, there is no trusted account and the
    query is not restricted to any: it is
    [($T OR #T) -is:retweet lang:en] for the ticker [T]. *)
Theorem query_without_trusted_ids (env : Env) (ticker : string) :
  Forall (fun c => c = ","%char \/ is_space c = true)
    (list_ascii_of_string (default ""%string (TWITTER_TRUSTED_USER_IDS env))) ->
  trustedIds env = []
  /\ query env ticker
     = ("($" +:+ ticker +:+ " OR #" +:+ ticker +:+ ")") +:+ " -is:retweet lang:en".
Proof.
  intros Hblank.
  assert (Hnone : trustedIds env = []).
  { unfold trustedIds. apply split_blank in Hblank. revert Hblank.
    generalize (split (default ""%string (TWITTER_TRUSTED_USER_IDS env))).
    intros pieces. induction 1 as [| piece pieces Hp _ IH]; [reflexivity |].
    cbn [fmap list_fmap List.filter]. unfold trim at 1.
    rewrite (trimStart_spaces piece Hp). cbn. exact IH. }
  split; [exact Hnone |]. unfold query. rewrite Hnone. reflexivity.
Qed.

Lemma client_made_once_witness :
  getClient a_token None
  = (Some "AAAAAAAAAAAAAAAAAAAAAA"%string, Some "AAAAAAAAAAAAAAAAAAAAAA"%string).
Proof.
  apply (proj2 (proj2 (client_made_once a_token a_token None))
           "AAAAAAAAAAAAAAAAAAAAAA"%string);
    [reflexivity | reflexivity | discriminate | discriminate].
Defined.

Lemma twitter_mentions_shape_witness :
  fst (searchTwitterMentions a_token (fun _ _ => Returns (Some [a_tweet])) None "TCS")
  = [tweetMention a_tweet].
Proof.
  apply (proj1 (proj1 (proj2 (twitter_mentions_shape a_token
                                (fun _ _ => Returns (Some [a_tweet])) None "TCS"))
                  "AAAAAAAAAAAAAAAAAAAAAA"%string eq_refl)
           [a_tweet]).
  reflexivity.
Defined.

Lemma query_without_trusted_ids_witness :
  trustedIds a_token = []
  /\ query a_token "TCS"
     = (("($" +:+ "TCS" +:+ " OR #" +:+ "TCS" +:+ ")") +:+ " -is:retweet lang:en")%string.
Proof.
  apply (query_without_trusted_ids a_token "TCS").
  constructor; [right; reflexivity |]. constructor; [left; reflexivity |].
  constructor; [right; reflexivity |]. constructor.
Defined.

End TwitterFacts.

(** ** The dashboard and the route *)

Module DashboardFacts.
Import Mentions Route Dashboard ScanFacts.

Lemma dashboard_after_fetch_state (r : ScreenResponse) (st : State) :
  (error r = None ->
   fetchData (Returns (served r)) st
   = {| data := Some r; loading := false; st_error := None |})
  /\ (is_Some (error r) ->
      fetchData (Returns (served r)) st
      = {| data := data st; loading := false; st_error := Some "HTTP 500"%string |}).
Proof.
  unfold fetchData, served. split.
  - intros He. rewrite He. cbn. rewrite He. reflexivity.
  - intros [message He]. rewrite He. reflexivity.
Qed.

(** X28.  When the dashboard fetches a report of the route that has no
    error, the report becomes its data and it shows no error.  When
    the report carries an error, the route has answered with status
    500: the dashboard then shows [HTTP 500], not the message of the
    report, and keeps the data it had, whose statistics stay on the
    page beside the error. *)
Theorem dashboard_after_fetch (r : ScreenResponse) (st : State) :
  let st' := fetchData (Returns (served r)) st in
  (error r = None ->
   st' = {| data := Some r; loading := false; st_error := None |})
  /\ (forall message, error r = Some message ->
        st' = {| data := data st; loading := false;
                 st_error := Some "HTTP 500"%string |}
        /\ view st' = shown (bool_decide (is_Some (data st))) StatsBar
                      ++ [ErrorState "HTTP 500"]).
Proof.
  cbv zeta. unfold fetchData, served. split.
  - intros He. rewrite He. cbn. rewrite He. reflexivity.
  - intros message He. rewrite He. cbn. split; [reflexivity |].
    unfold view. cbn. destruct (data st); reflexivity.
Qed.

Lemma dashboard_after_fetch_witness :
  fetchData (Returns (served (fst (GET no_quotes [] start_of_process))))
    first_render
  = {| data := None; loading := false; st_error := Some "HTTP 500"%string |}
  /\ view (fetchData (Returns (served (fst (GET no_quotes [] start_of_process))))
             first_render)
     = [ErrorState "HTTP 500"].
Proof.
  apply (proj2 (dashboard_after_fetch (fst (GET no_quotes [] start_of_process))
                  first_render) "fetch failed"%string).
  vm_compute. reflexivity.
Defined.

Lemma alerts_in_le (l : list StockData) :
  (forall d, d ∈ l -> alertSent d = true -> status d = alert) ->
  (alerts_in l <= length (filter (fun s => status s = alert) l))%nat.
Proof.
  unfold alerts_in. induction l as [| d l IH]; intros H; [cbn; lia |].
  rewrite filter_cons. cbn [sum_list_with].
  assert (IH' : (sum_list_with (fun d => Nat.b2n (alertSent d)) l
                 <= length (filter (fun s => status s = alert) l))%nat).
  { apply IH. intros d' Hd'. apply H. now right. }
  destruct (alertSent d) eqn:Ha; cbn [Nat.b2n].
  - rewrite decide_True by (apply H; [left | exact Ha]). cbn. lia.
  - destruct (decide (status d = alert)); cbn; lia.
Qed.

Lemma filter_two_statuses (l : list StockData) :
  (length (filter (fun s => status s = alert) l)
   + length (filter (fun s => status s = watch) l) <= length l)%nat.
Proof.
  induction l as [| d l IH]; [cbn; lia |]. rewrite !filter_cons.
  destruct (decide (status d = alert)) as [Ha | Ha],
           (decide (status d = watch)) as [Hw | Hw]; cbn; try lia.
  congruence.
Qed.

Lemma sorted_after (a : StockData) (l : list StockData) :
  Sorted precedes l -> HdRel precedes a l ->
  forall b, b ∈ l -> (statusPriority (status a) <= statusPriority (status b))%Z.
Proof.
  intros Hs. revert a. induction Hs as [| x l Hs IH Hx]; intros a Ha b Hb.
  - apply elem_of_nil in Hb. contradiction.
  - inversion_clear Ha as [| ? ? Hax].
    assert (Hle : (statusPriority (status a) <= statusPriority (status x))%Z).
    { destruct Hax as [Hlt | [-> _]]; lia. }
    apply elem_of_cons in Hb as [-> | Hb]; [exact Hle |].
    specialize (IH x Hx b Hb). lia.
Qed.

Lemma sorted_alerts_first (l : list StockData) :
  Sorted precedes l ->
  Forall (fun s => status s = alert)
    (take (length (filter (fun s => status s = alert) l)) l).
Proof.
  induction 1 as [| a l Hs IH Ha]; [constructor |].
  rewrite filter_cons. destruct (decide (status a = alert)) as [Hal | Hna].
  - cbn. constructor; assumption.
  - assert (Hnone : filter (fun s => status s = alert) l = []).
    { destruct (filter (fun s => status s = alert) l) as [| b bs] eqn:Hf;
        [reflexivity | exfalso].
      assert (Hb : b ∈ filter (fun s => status s = alert) l) by (rewrite Hf; left).
      apply list_elem_of_filter in Hb as [Hb Hin].
      pose proof (sorted_after a l Hs Ha b Hin) as Hle. rewrite Hb in Hle.
      destruct (status a); cbn in Hle; [congruence | lia | lia]. }
    rewrite Hnone. constructor.
Qed.

(** X29.  With a report of the route that has no error on the page,
    the number of WhatsApp alerts shown is at most the number of
    alerts shown, alerts and watched stocks together are at most the
    number of stocks screened, and the alerts are the first rows of
    the table. *)
Theorem dashboard_counts (w : World) (schedule : list nat) (σ : Session)
    (st : State) :
  let r := fst (GET w schedule σ) in
  let st' := fetchData (Returns (served r)) st in
  error r = None ->
  (alertsSent r <= alertCount st')%nat
  /\ (alertCount st' + watchCount st' <= totalScanned r)%nat
  /\ Forall (fun s => status s = alert) (take (alertCount st') (stocks r)).
Proof.
  cbv zeta. intros He.
  rewrite (proj1 (dashboard_after_fetch_state _ st) He).
  unfold alertCount, watchCount, count. cbn [data].
  revert He.
  destruct (GET_outcome w schedule σ)
    as [msg Hg | gainers msg Hg Hn | nifty Hg Hn
        | gainers nifty msg Hg Hn Hne Hr | gainers nifty Hg Hn Hne Hr];
    cbn [fst error errorResponse stocks alertsSent totalScanned]; intros He;
    try discriminate He.
  - split; [cbn; lia |]. split; [cbn; lia | constructor].
  - pose proof (enrich_all_accounted w nifty schedule gainers σ)
      as (Hcount & _ & _ & Hdone).
    set (F := enrich_all w nifty schedule gainers σ) in *.
    split; [| split].
    + rewrite Hcount, <- alerts_in_fulfilled.
      rewrite (sort_Permutation compare (enriched F)). apply alerts_in_le.
      intros d Hd Ha. apply list_elem_of_omap in Hd as (t & Ht & Hf).
      destruct t; try discriminate Hf. injection Hf as ->.
      apply list_elem_of_lookup in Ht as [i Hi]. eapply Hdone; eassumption.
    + etransitivity; [apply filter_two_statuses |].
      rewrite sort_Permutation. unfold enriched.
      rewrite length_omap_fulfilled.
      * unfold F. rewrite enrich_all_length. reflexivity.
      * intros i t Hi. eapply enrich_all_fulfilled; eassumption.
    + apply sorted_alerts_first, sort_Sorted.
Qed.

Lemma dashboard_counts_witness :
  (alertsSent (fst (GET two_movers [] start_of_process))
   <= alertCount (fetchData
                    (Returns (served (fst (GET two_movers [] start_of_process))))
                    first_render))%nat
  /\ Forall (fun s => status s = alert)
       (take (alertCount (fetchData
                            (Returns (served (fst (GET two_movers []
                                                     start_of_process))))
                            first_render))
          (stocks (fst (GET two_movers [] start_of_process)))).
Proof.
  destruct (dashboard_counts two_movers [] start_of_process first_render)
    as (Hsent & _ & Hfirst); [vm_compute; reflexivity |].
  split; [exact Hsent | exact Hfirst].
Defined.

End DashboardFacts.
